(** * Omega collaboration backend: session hub, session state and token service

    A shallow embedding of
      - [backend/models/messages.py]   ([SessionState], [User]),
      - [backend/services/auth.py]     ([AuthService]),
      - [backend/services/redis_service.py] ([RedisService]),
      - [backend/api/websocket.py]     ([ConnectionManager], [websocket_endpoint]),
    followed by the properties of the session hub.

    Conventions of the embedding.
      - Python [float] is IEEE binary64: Rocq's primitive [float], with the
        same rounding of decimal literals and the same comparisons.
      - [datetime] values are microseconds since the epoch, in [Z].  Every
        handler reads the clock once; the reading is the argument [now].
      - A [WebSocket] object is a handle in [nat].
      - [Dict[str, _]] whose iteration order is observable is an
        insertion-ordered association list; the other dictionaries and the
        sets are [gmap] and [gset].
      - Code that raises is modelled in a state-and-exception monad: the
        mutations made before the [raise] stay in the state.
      - Each handler runs to completion before the next one starts: the
        interleavings of the asyncio tasks at their [await] points are not
        part of the model. *)

From Stdlib Require Import ZArith Floats.
From stdpp Require Import gmap strings list.

Set Warnings "-inexact-float".
#[local] Open Scope Z_scope.

(** ** Insertion-ordered dictionaries *)

Section OrderedDict.
Context {V : Type}.

Fixpoint dict_get (k : string) (d : list (string * V)) : option V :=
  match d with
  | [] => None
  | (k', v) :: d' => if String.eqb k' k then Some v else dict_get k d'
  end.

(** [d[k] = v]: an existing key keeps its position. *)
Fixpoint dict_set (k : string) (v : V) (d : list (string * V)) : list (string * V) :=
  match d with
  | [] => [(k, v)]
  | (k', v') :: d' =>
      if String.eqb k' k then (k, v) :: d' else (k', v') :: dict_set k v d'
  end.

(** [del d[k]] for a key known to be present. *)
Fixpoint dict_del (k : string) (d : list (string * V)) : list (string * V) :=
  match d with
  | [] => []
  | (k', v') :: d' =>
      if String.eqb k' k then d' else (k', v') :: dict_del k d'
  end.
End OrderedDict.

(** ** models/messages.py *)

Record SessionState := mkSessionState {
  mu : float;
  omega : float;
  kappa : float;
  beta : option float
}.

(** [SessionState()]: the declared defaults; [beta] defaults to [None]. *)
Definition SessionState_default : SessionState :=
  {| mu := 0.569; omega := 0.847; kappa := 0.0207; beta := None |}.

(** [compute_beta(self, c=10.8)]: [self.beta = 1 - self.mu - self.kappa * c]. *)
Definition compute_beta (s : SessionState) : SessionState :=
  {| mu := mu s; omega := omega s; kappa := kappa s;
     beta := Some (1 - mu s - kappa s * 10.8)%float |}.

(** The [Field(ge=..., le=...)] constraints, which pydantic checks when a
    [SessionState] is constructed. *)
Definition in_bounds (lo hi v : float) : bool :=
  (PrimFloat.leb lo v && PrimFloat.leb v hi)%bool.

Definition mu_ok (v : float) : bool := in_bounds 0.5 0.7 v.
Definition omega_ok (v : float) : bool := in_bounds 0.5 1.5 v.
Definition kappa_ok (v : float) : bool := in_bounds 0.01 0.05 v.

(** [SessionState(mu=.., omega=.., kappa=.., beta=..)]: [None] stands for the
    [ValidationError] of a constraint that fails. *)
Definition SessionState_init (m o k : float) (b : option float) : option SessionState :=
  if (mu_ok m && omega_ok o && kappa_ok k)%bool
  then Some {| mu := m; omega := o; kappa := k; beta := b |}
  else None.

Record User := mkUser {
  id : string;
  name : string;
  avatar : option string;
  color : option string
}.

(** ** services/auth.py *)

Record AuthService := mkAuthService {
  secret_key : string;
  algorithm : string;
  expiration_hours : Z
}.

(** The claims [create_token] puts in the payload.  [exp] and [iat] are in
    whole seconds: [jwt.encode] serialises a [datetime] claim as its epoch
    second. *)
Record Claims := mkClaims {
  c_user_id : string;
  c_username : string;
  c_email : option string;
  c_is_anonymous : bool;
  c_exp : Z;
  c_iat : Z
}.

(** A token is its payload together with the key and the algorithm of its
    signature: the MAC is ideal, so that a signature verifies exactly under
    the key and algorithm that produced it. *)
Record Token := mkToken {
  tok_claims : Claims;
  tok_key : string;
  tok_alg : string
}.

Record TokenData := mkTokenData {
  user_id : string;
  username : string;
  email : option string;
  is_anonymous : bool;
  exp : Z
}.

Definition usec_per_sec : Z := 1000000.

(** Epoch second of a clock reading. *)
Definition epoch_sec (t : Z) : Z := t / usec_per_sec.

Definition jwt_encode (payload : Claims) (key alg : string) : Token :=
  {| tok_claims := payload; tok_key := key; tok_alg := alg |}.

Inductive jwt_error := ExpiredSignatureError | InvalidTokenError.

(** [jwt.decode(token, key, algorithms=[alg])]: the signature, then the
    registered claims [exp] and [iat] against the clock. *)
Definition jwt_decode (now : Z) (t : Token) (key alg : string) : Claims + jwt_error :=
  if negb (String.eqb (tok_alg t) alg) then inr InvalidTokenError
  else if negb (String.eqb (tok_key t) key) then inr InvalidTokenError
  else if c_exp (tok_claims t) * usec_per_sec <=? now then inr ExpiredSignatureError
  else if now <? c_iat (tok_claims t) * usec_per_sec then inr InvalidTokenError
  else inl (tok_claims t).

Section Auth.
Variable self : AuthService.

Definition create_token (now : Z) (uid uname : string) (mail : option string)
    (anonymous : bool) : Token :=
  let expiration := now + expiration_hours self * 3600 * usec_per_sec in
  let payload :=
    {| c_user_id := uid; c_username := uname; c_email := mail;
       c_is_anonymous := anonymous;
       c_exp := epoch_sec expiration; c_iat := epoch_sec now |} in
  jwt_encode payload (secret_key self) (algorithm self).

Definition verify_token (now : Z) (token : Token) : option TokenData :=
  match jwt_decode now token (secret_key self) (algorithm self) with
  | inl payload =>
      Some {| user_id := c_user_id payload; username := c_username payload;
              email := c_email payload; is_anonymous := c_is_anonymous payload;
              exp := c_exp payload |}
  | inr ExpiredSignatureError => None
  | inr InvalidTokenError => None
  end.

Definition refresh_token (now : Z) (token : Token) : option Token :=
  match verify_token now token with
  | None => None
  | Some td =>
      Some (create_token now (user_id td) (username td) (email td) (is_anonymous td))
  end.
End Auth.

(** ** services/redis_service.py *)

(** The JSON object under [session:{id}:state]. *)
Record Snapshot := mkSnapshot {
  snap_mu : float;
  snap_omega : float;
  snap_kappa : float;
  snap_beta : option float;
  snap_seq : Z;
  snap_updated_at : Z
}.

(** A member of the sorted set [session:{id}:history]. *)
Record HistoryEvent := mkHistoryEvent {
  h_seq : Z;
  h_user_id : string;
  h_params : list (string * float);
  h_timestamp : Z
}.

(** The client and what it holds.  [enabled] is the outcome of the [ping] at
    start-up; the 24 hour expiry of a key is an action of the backend, which
    shows here as a store without that key. *)
Record RedisService := mkRedisService {
  enabled : bool;
  kv_state : gmap string Snapshot;
  kv_seq : gmap string Z;
  kv_history : gmap string (list HistoryEvent);
  kv_users : gmap string (gmap string User);
  kv_user_sessions : gmap string (gset string)
}.

Definition is_enabled (r : RedisService) : bool := enabled r.

Definition save_session_state (sid : string) (state : SessionState) (seq now : Z)
    (r : RedisService) : RedisService :=
  if negb (is_enabled r) then r
  else
    let data :=
      {| snap_mu := mu state; snap_omega := omega state; snap_kappa := kappa state;
         snap_beta := beta state; snap_seq := seq; snap_updated_at := now |} in
    {| enabled := enabled r;
       kv_state := <[sid := data]> (kv_state r);
       kv_seq := <[sid := seq]> (kv_seq r);
       kv_history := kv_history r;
       kv_users := kv_users r;
       kv_user_sessions := kv_user_sessions r |}.

Definition load_session_state (sid : string) (r : RedisService) : option Snapshot :=
  if negb (is_enabled r) then None else kv_state r !! sid.

(** [zadd] of one member: the set stays ordered by score, a new member goes
    behind the members of the same score. *)
Fixpoint zadd (ev : HistoryEvent) (l : list HistoryEvent) : list HistoryEvent :=
  match l with
  | [] => [ev]
  | e :: l' => if h_seq ev <? h_seq e then ev :: l else e :: zadd ev l'
  end.

(** [zremrangebyrank(key, 0, -1001)]: the last 1000 members stay. *)
Definition zkeep_last_1000 (l : list HistoryEvent) : list HistoryEvent :=
  drop (length l - 1000)%nat l.

Definition add_to_history (sid uid : string) (params : list (string * float))
    (seq now : Z) (r : RedisService) : RedisService :=
  if negb (is_enabled r) then r
  else
    let event :=
      {| h_seq := seq; h_user_id := uid; h_params := params; h_timestamp := now |} in
    {| enabled := enabled r;
       kv_state := kv_state r;
       kv_seq := kv_seq r;
       kv_history :=
         <[sid := zkeep_last_1000 (zadd event (default [] (kv_history r !! sid)))]>
           (kv_history r);
       kv_users := kv_users r;
       kv_user_sessions := kv_user_sessions r |}.

Definition add_user_to_session (sid uid : string) (user_data : User)
    (r : RedisService) : RedisService :=
  if negb (is_enabled r) then r
  else
    {| enabled := enabled r;
       kv_state := kv_state r;
       kv_seq := kv_seq r;
       kv_history := kv_history r;
       kv_users := <[sid := <[uid := user_data]> (default ∅ (kv_users r !! sid))]> (kv_users r);
       kv_user_sessions :=
         <[uid := {[sid]} ∪ default ∅ (kv_user_sessions r !! uid)]> (kv_user_sessions r) |}.

(** ** api/websocket.py: messages *)

(** The dictionary [detect_conflict] returns. *)
Record Conflict := mkConflict {
  cf_param : string;
  cf_yourValue : float;
  cf_theirValue : float;
  cf_theirUserId : string;
  cf_theirUserName : string
}.

(** The payloads of the frames the server sends, one constructor per [type]. *)
Inductive Payload :=
  | AuthFailed (error : string)
  | AuthSuccess (sessionId userId : string) (users : list User)
      (currentState : SessionState * Z)
  | SessionJoined (user : User)
  | SessionLeft (userId : string)
  | ParamBroadcast (userId : string) (params : list (string * float))
  | ConflictDetected (conflict : Conflict)
  | SessionStateMsg (params : SessionState) (seq : Z)
  | Pong.

Definition payload_type (p : Payload) : string :=
  match p with
  | AuthFailed _ => "auth:failed"
  | AuthSuccess _ _ _ _ => "auth:success"
  | SessionJoined _ => "session:joined"
  | SessionLeft _ => "session:left"
  | ParamBroadcast _ _ => "param:broadcast"
  | ConflictDetected _ => "conflict:detected"
  | SessionStateMsg _ _ => "session:state"
  | Pong => "pong"
  end.

(** A frame: [seq] and [timestamp] are the keys [broadcast] adds. *)
Record Message := mkMessage {
  msg_payload : Payload;
  msg_seq : option Z;
  msg_timestamp : option Z
}.

Definition direct (p : Payload) : Message :=
  {| msg_payload := p; msg_seq := None; msg_timestamp := None |}.

(** The frames a client sends, by [type]. *)
Inductive ClientMessage :=
  | Auth (token : option Token) (colour : option string)
  | ParamUpdate (payload : list (string * float))
  | ConflictResolved (param : string) (resolvedValue : float)
  | SessionResync (lastSeenSeq : Z)
  | Ping
  | Other (type : string).

(** ** api/websocket.py: the manager and its world *)

Record ConnectionManager := mkConnectionManager {
  active_connections : gmap string (gset nat);
  session_seq : gmap string Z;
  session_state : gmap string SessionState;
  session_users : gmap string (list (string * User));
  ws_to_user : gmap nat string;
  last_update_time : gmap string (gmap string Z)
}.

(** [ConnectionManager()] *)
Definition manager_init : ConnectionManager :=
  {| active_connections := ∅; session_seq := ∅; session_state := ∅;
     session_users := ∅; ws_to_user := ∅; last_update_time := ∅ |}.

(** What a handler acts on: the global [manager], the global [redis_service],
    the sockets on which [send_json] raises, and the frames sent so far, oldest
    first. *)
Record World := mkWorld {
  manager : ConnectionManager;
  redis_service : RedisService;
  closed : gset nat;
  sent : list (nat * Message)
}.

Inductive exn := KeyError | ValueError | TypeError | ValidationError | SendError.

Inductive outcome (A : Type) :=
  | Ret (a : A)
  | Raise (e : exn).
Arguments Ret {A} a.
Arguments Raise {A} e.

Definition M (A : Type) : Type := World -> outcome A * World.

Definition ret {A} (a : A) : M A := fun w => (Ret a, w).
Definition raise {A} (e : exn) : M A := fun w => (Raise e, w).
Definition bind {A B} (c : M A) (k : A -> M B) : M B :=
  fun w => match c w with
           | (Ret a, w') => k a w'
           | (Raise e, w') => (Raise e, w')
           end.

Notation "'let*' x ':=' c 'in' k" := (bind c (fun x => k))
  (at level 10, x name, c at level 100, k at level 200).
Notation "c ';;' k" := (bind c (fun _ => k))
  (at level 100, k at level 200, right associativity).

Definition get_manager : M ConnectionManager := fun w => (Ret (manager w), w).
Definition get_redis : M RedisService := fun w => (Ret (redis_service w), w).

Definition modify_manager (f : ConnectionManager -> ConnectionManager) : M unit :=
  fun w => (Ret tt, {| manager := f (manager w); redis_service := redis_service w;
                       closed := closed w; sent := sent w |}).

Definition modify_redis (f : RedisService -> RedisService) : M unit :=
  fun w => (Ret tt, {| manager := manager w; redis_service := f (redis_service w);
                       closed := closed w; sent := sent w |}).

(** [d[k]] *)
Definition getitem {K V} `{Countable K} (d : gmap K V) (k : K) : M V :=
  match d !! k with
  | Some v => ret v
  | None => raise KeyError
  end.

Definition set_active_connections (f : gmap string (gset nat) -> gmap string (gset nat))
    (m : ConnectionManager) : ConnectionManager :=
  {| active_connections := f (active_connections m); session_seq := session_seq m;
     session_state := session_state m; session_users := session_users m;
     ws_to_user := ws_to_user m; last_update_time := last_update_time m |}.

Definition set_session_seq (f : gmap string Z -> gmap string Z)
    (m : ConnectionManager) : ConnectionManager :=
  {| active_connections := active_connections m; session_seq := f (session_seq m);
     session_state := session_state m; session_users := session_users m;
     ws_to_user := ws_to_user m; last_update_time := last_update_time m |}.

Definition set_session_state (f : gmap string SessionState -> gmap string SessionState)
    (m : ConnectionManager) : ConnectionManager :=
  {| active_connections := active_connections m; session_seq := session_seq m;
     session_state := f (session_state m); session_users := session_users m;
     ws_to_user := ws_to_user m; last_update_time := last_update_time m |}.

Definition set_session_users
    (f : gmap string (list (string * User)) -> gmap string (list (string * User)))
    (m : ConnectionManager) : ConnectionManager :=
  {| active_connections := active_connections m; session_seq := session_seq m;
     session_state := session_state m; session_users := f (session_users m);
     ws_to_user := ws_to_user m; last_update_time := last_update_time m |}.

Definition set_ws_to_user (f : gmap nat string -> gmap nat string)
    (m : ConnectionManager) : ConnectionManager :=
  {| active_connections := active_connections m; session_seq := session_seq m;
     session_state := session_state m; session_users := session_users m;
     ws_to_user := f (ws_to_user m); last_update_time := last_update_time m |}.

Definition set_last_update_time
    (f : gmap string (gmap string Z) -> gmap string (gmap string Z))
    (m : ConnectionManager) : ConnectionManager :=
  {| active_connections := active_connections m; session_seq := session_seq m;
     session_state := session_state m; session_users := session_users m;
     ws_to_user := ws_to_user m; last_update_time := f (last_update_time m) |}.

(** [del d[k]]: [KeyError] when the key is absent. *)
Definition delitem {V} (d : ConnectionManager -> gmap string V)
    (set : (gmap string V -> gmap string V) -> ConnectionManager -> ConnectionManager)
    (k : string) : M unit :=
  let* m := get_manager in
  match d m !! k with
  | Some _ => modify_manager (set (delete k))
  | None => raise KeyError
  end.

(** [await websocket.send_json(message)] *)
Definition send_json (websocket : nat) (message : Message) : M unit :=
  fun w =>
    if decide (websocket ∈ closed w) then (Raise SendError, w)
    else (Ret tt, {| manager := manager w; redis_service := redis_service w;
                     closed := closed w; sent := sent w ++ [(websocket, message)] |}).

(** ** api/websocket.py: [ConnectionManager] *)

(** The deployment around the manager: the global [auth_service], and the
    names other than the four fields that [hasattr] finds on a [SessionState]
    object (its methods, such as [compute_beta] and [dict], and what the
    pydantic base class brings). *)
Class Env := mkEnv {
  auth_service : AuthService;
  other_attr : string -> bool
}.

Inductive attr :=
  | attr_mu | attr_omega | attr_kappa | attr_beta
  | attr_other
  | attr_missing.

Definition lookup_attr `{E : Env} (key : string) : attr :=
  if String.eqb key "mu" then attr_mu
  else if String.eqb key "omega" then attr_omega
  else if String.eqb key "kappa" then attr_kappa
  else if String.eqb key "beta" then attr_beta
  else if other_attr key then attr_other
  else attr_missing.

(** [hasattr(state, key)] *)
Definition hasattr `{E : Env} (key : string) : bool :=
  match lookup_attr key with
  | attr_missing => false
  | _ => true
  end.

(** [setattr(state, key, value)] where [hasattr] holds: a field takes the
    value as it is (the model does not validate on assignment); pydantic
    refuses a name that is no field with [ValueError]. *)
Definition setattr `{E : Env} (s : SessionState) (key : string) (value : float)
    : outcome SessionState :=
  match lookup_attr key with
  | attr_mu => Ret {| mu := value; omega := omega s; kappa := kappa s; beta := beta s |}
  | attr_omega => Ret {| mu := mu s; omega := value; kappa := kappa s; beta := beta s |}
  | attr_kappa => Ret {| mu := mu s; omega := omega s; kappa := value; beta := beta s |}
  | attr_beta => Ret {| mu := mu s; omega := omega s; kappa := kappa s; beta := Some value |}
  | attr_other => Raise ValueError
  | attr_missing => Raise ValueError
  end.

(** What [getattr(state, param, None)] yields. *)
Inductive attr_value :=
  | AFloat (v : float)
  | ANone
  | AObject.

Definition getattr `{E : Env} (s : SessionState) (param : string) : attr_value :=
  match lookup_attr param with
  | attr_mu => AFloat (mu s)
  | attr_omega => AFloat (omega s)
  | attr_kappa => AFloat (kappa s)
  | attr_beta => match beta s with Some b => AFloat b | None => ANone end
  | attr_other => AObject
  | attr_missing => ANone
  end.

Definition lift_outcome {A} (o : outcome A) : M A := fun w => (o, w).

(** [connect]: [websocket.accept()] and the log lines have no effect on the
    manager and are left out. *)
Definition connect (websocket : nat) (session_id : string) : M unit :=
  let* m := get_manager in
  (match active_connections m !! session_id with
   | Some _ => ret tt
   | None =>
       modify_manager (set_active_connections <[session_id := ∅]>);;
       let* r := get_redis in
       match load_session_state session_id r with
       | Some restored_state =>
           modify_manager (set_session_seq <[session_id := snap_seq restored_state]>);;
           match SessionState_init (snap_mu restored_state) (snap_omega restored_state)
                   (snap_kappa restored_state) (snap_beta restored_state) with
           | Some st => modify_manager (set_session_state <[session_id := st]>)
           | None => raise ValidationError
           end;;
           modify_manager (set_session_users <[session_id := []]>);;
           modify_manager (set_last_update_time <[session_id := ∅]>)
       | None =>
           modify_manager (set_session_seq <[session_id := 0]>);;
           modify_manager (set_session_state <[session_id := SessionState_default]>);;
           modify_manager (set_session_users <[session_id := []]>);;
           modify_manager (set_last_update_time <[session_id := ∅]>)
       end
   end);;
  let* m := get_manager in
  let* conns := getitem (active_connections m) session_id in
  modify_manager (set_active_connections <[session_id := {[websocket]} ∪ conns]>).

(** [disconnect] *)
Definition disconnect (websocket : nat) (session_id : string) : M unit :=
  let* m := get_manager in
  match active_connections m !! session_id with
  | None => ret tt
  | Some conns =>
      modify_manager (set_active_connections <[session_id := conns ∖ {[websocket]}]>);;
      match ws_to_user m !! websocket with
      | Some user_id =>
          modify_manager (set_ws_to_user (delete websocket));;
          match session_users m !! session_id with
          | Some users =>
              match dict_get user_id users with
              | Some _ =>
                  modify_manager
                    (set_session_users <[session_id := dict_del user_id users]>)
              | None => ret tt
              end
          | None => ret tt
          end
      | None => ret tt
      end;;
      if decide (conns ∖ {[websocket]} = ∅) then
        delitem active_connections set_active_connections session_id;;
        delitem session_seq set_session_seq session_id;;
        delitem session_state set_session_state session_id;;
        delitem session_users set_session_users session_id;;
        delitem last_update_time set_last_update_time session_id
      else ret tt
  end.

(** The loop [for key, value in params.items()] of [broadcast]. *)
Fixpoint apply_params `{E : Env} (session_id : string) (params : list (string * float))
    (now : Z) : M unit :=
  match params with
  | [] => ret tt
  | (key, value) :: rest =>
      let* m := get_manager in
      let* st := getitem (session_state m) session_id in
      (if hasattr key then
         let* st' := lift_outcome (setattr st key value) in
         modify_manager (set_session_state <[session_id := st']>);;
         let* m := get_manager in
         let* times := getitem (last_update_time m) session_id in
         modify_manager (set_last_update_time <[session_id := <[key := now]> times]>)
       else ret tt);;
      apply_params session_id rest now
  end.

(** The sending loop of [broadcast]; the result is [dead_sockets]. *)
Fixpoint send_all (targets : list nat) (exclude : option nat) (message : Message)
    : M (list nat) :=
  match targets with
  | [] => ret []
  | ws :: rest =>
      if decide (Some ws = exclude) then send_all rest exclude message
      else
        fun w =>
          match send_json ws message w with
          | (Ret _, w') =>
              send_all rest exclude message w'
          | (Raise _, w') =>
              (let* dead := send_all rest exclude message in ret (ws :: dead)) w'
          end
  end.

(** [for ws in dead_sockets: self.disconnect(ws, session_id)] *)
Fixpoint disconnect_all (dead_sockets : list nat) (session_id : string) : M unit :=
  match dead_sockets with
  | [] => ret tt
  | ws :: rest => disconnect ws session_id;; disconnect_all rest session_id
  end.

(** The block of [broadcast] under [if message.get('type') == 'param:broadcast']. *)
Definition record_update `{E : Env} (session_id : string) (message : Payload) (now : Z)
    : M unit :=
  match message with
  | ParamBroadcast user_id params =>
      apply_params session_id params now;;
      let* m := get_manager in
      let* st := getitem (session_state m) session_id in
      modify_manager (set_session_state <[session_id := compute_beta st]>);;
      let* m := get_manager in
      let* st := getitem (session_state m) session_id in
      let* seq := getitem (session_seq m) session_id in
      modify_redis (save_session_state session_id st seq now);;
      modify_redis (add_to_history session_id user_id params seq now)
  | _ => ret tt
  end.

(** The two loops that end [broadcast]: the sends, then the clean-up of the
    dead sockets. *)
Definition fan_out (session_id : string) (message : Message) (exclude : option nat)
    : M unit :=
  let* m := get_manager in
  let* conns := getitem (active_connections m) session_id in
  let* dead_sockets := send_all (elements conns) exclude message in
  disconnect_all dead_sockets session_id.

(** [broadcast]: [message] is the dictionary of the call, [message'] the same
    with the keys [seq] and [timestamp]. *)
Definition broadcast `{E : Env} (session_id : string) (message : Payload)
    (exclude : option nat) (now : Z) : M unit :=
  let* m := get_manager in
  match active_connections m !! session_id with
  | None => ret tt
  | Some _ =>
      let* old := getitem (session_seq m) session_id in
      modify_manager (set_session_seq <[session_id := old + 1]>);;
      let message' :=
        {| msg_payload := message; msg_seq := Some (old + 1);
           msg_timestamp := Some now |} in
      record_update session_id message now;;
      fan_out session_id message' exclude
  end.

(** [get_session_state]: the pair is the dictionary [{params, seq}]. *)
Definition get_session_state (session_id : string) (m : ConnectionManager)
    : SessionState * Z :=
  match session_state m !! session_id with
  | None => (SessionState_default, 0)
  | Some st => (st, default 0 (session_seq m !! session_id))
  end.

(** [get_session_users] *)
Definition get_session_users (session_id : string) (m : ConnectionManager) : list User :=
  match session_users m !! session_id with
  | None => []
  | Some users => map snd users
  end.

(** [add_user] *)
Definition add_user (websocket : nat) (session_id : string) (user : User) : M unit :=
  let* m := get_manager in
  match session_users m !! session_id with
  | None => modify_manager (set_session_users <[session_id := []]>)
  | Some _ => ret tt
  end;;
  let* m := get_manager in
  let* users := getitem (session_users m) session_id in
  modify_manager (set_session_users <[session_id := dict_set (id user) user users]>);;
  modify_manager (set_ws_to_user <[websocket := id user]>);;
  modify_redis (add_user_to_session session_id (id user) user).

(** The loop [for uid, user in self.session_users[session_id].items()] of
    [detect_conflict]: the first entry of another user id. *)
Fixpoint first_other_user (user_id : string) (users : list (string * User)) : option User :=
  match users with
  | [] => None
  | (uid, user) :: rest =>
      if negb (String.eqb uid user_id) then Some user else first_other_user user_id rest
  end.

(** The conflict window, 0.5 seconds. *)
Definition conflict_window : Z := 500000.

(** [detect_conflict]: it reads the manager and changes nothing; [Ret None] is
    the Python [None]. *)
Definition detect_conflict `{E : Env} (m : ConnectionManager) (session_id param : string)
    (new_value : float) (user_id : string) (now : Z) : outcome (option Conflict) :=
  match last_update_time m !! session_id with
  | None => Ret None
  | Some times =>
      match times !! param with
      | None => Ret None
      | Some last_update =>
          if now - last_update <? conflict_window then
            match session_state m !! session_id with
            | None => Raise KeyError
            | Some st =>
                match getattr st param with
                | ANone => Ret None
                | AObject => Raise TypeError
                | AFloat current_value =>
                    if PrimFloat.ltb 0.001 (PrimFloat.abs (current_value - new_value))
                    then
                      match session_users m !! session_id with
                      | None => Raise KeyError
                      | Some users =>
                          let conflicting_user := first_other_user user_id users in
                          Ret (Some
                            {| cf_param := param;
                               cf_yourValue := new_value;
                               cf_theirValue := current_value;
                               cf_theirUserId :=
                                 match conflicting_user with
                                 | Some u => id u
                                 | None => "unknown"
                                 end;
                               cf_theirUserName :=
                                 match conflicting_user with
                                 | Some u => name u
                                 | None => "Another user"
                                 end |})
                      end
                    else Ret None
                end
            end
          else Ret None
      end
  end.

(** ** api/websocket.py: [websocket_endpoint] *)

(** Truth value of the local [user_id]: [None] and the empty string are false. *)
Definition truthy (uid : option string) : bool :=
  match uid with
  | Some s => negb (String.eqb s "")
  | None => false
  end.

(** The loop that fills [conflicts]. *)
Fixpoint detect_conflicts `{E : Env} (m : ConnectionManager) (session_id : string)
    (params : list (string * float)) (uid : string) (now : Z)
    : outcome (list Conflict) :=
  match params with
  | [] => Ret []
  | (param, value) :: rest =>
      match detect_conflict m session_id param value uid now with
      | Raise e => Raise e
      | Ret conflict =>
          match detect_conflicts m session_id rest uid now with
          | Raise e => Raise e
          | Ret conflicts =>
              Ret (match conflict with
                   | Some c => c :: conflicts
                   | None => conflicts
                   end)
          end
      end
  end.

(** [for conflict in conflicts: await websocket.send_json(...)] *)
Fixpoint send_conflicts (websocket : nat) (conflicts : list Conflict) : M unit :=
  match conflicts with
  | [] => ret tt
  | c :: rest =>
      send_json websocket (direct (ConflictDetected c));;
      send_conflicts websocket rest
  end.

(** One turn of the [while True] loop on the frame [data]; [uid] is the local
    [user_id] at the start of the turn.  The frames are well formed: a
    [payload] with the keys of its [type], parameter values that are numbers. *)
Definition handle_message `{E : Env} (websocket : nat) (session_id : string)
    (uid : option string) (data : ClientMessage) (now : Z) : M unit :=
  match data with
  | Auth token colour =>
      let token_data :=
        match token with
        | Some t => verify_token auth_service now t
        | None => None
        end in
      match token_data with
      | Some td =>
          let user :=
            {| id := user_id td; name := username td; avatar := None;
               color := Some (default (if is_anonymous td then "#8b5cf6" else "#06b6d4")
                                      colour) |} in
          add_user websocket session_id user;;
          let* m := get_manager in
          let current_state := get_session_state session_id m in
          send_json websocket
            (direct (AuthSuccess session_id (user_id td)
                       (get_session_users session_id m) current_state));;
          broadcast session_id (SessionJoined user) (Some websocket) now
      | None =>
          send_json websocket
            (direct (AuthFailed "Invalid or missing authentication token"))
      end
  | ParamUpdate params =>
      match uid with
      | Some me =>
          if negb (truthy uid) then ret tt
          else
            let* m := get_manager in
            let* conflicts := lift_outcome (detect_conflicts m session_id params me now) in
            match conflicts with
            | _ :: _ => send_conflicts websocket conflicts
            | [] => broadcast session_id (ParamBroadcast me params) (Some websocket) now
            end
      | None => ret tt
      end
  | ConflictResolved param resolvedValue =>
      match uid with
      | Some me =>
          if negb (truthy uid) then ret tt
          else broadcast session_id (ParamBroadcast me [(param, resolvedValue)])
                 (Some websocket) now
      | None => ret tt
      end
  | SessionResync lastSeenSeq =>
      let* m := get_manager in
      let current_state := get_session_state session_id m in
      send_json websocket
        (direct (SessionStateMsg (fst current_state) (snd current_state)))
  | Ping => send_json websocket (direct Pong)
  | Other _ => ret tt
  end.

(** The local [user_id] after that turn: the [auth] branch assigns it before
    anything in the branch can raise. *)
Definition next_user_id `{E : Env} (uid : option string) (data : ClientMessage) (now : Z)
    : option string :=
  match data with
  | Auth (Some t) _ =>
      match verify_token auth_service now t with
      | Some td => Some (user_id td)
      | None => uid
      end
  | _ => uid
  end.

(** The [finally] clause. *)
Definition finalize `{E : Env} (websocket : nat) (session_id : string)
    (uid : option string) (now : Z) : M unit :=
  disconnect websocket session_id;;
  match uid with
  | Some me =>
      if truthy uid then broadcast session_id (SessionLeft me) None now else ret tt
  | None => ret tt
  end.

(** ** The server as a whole

    One [websocket_endpoint] task per connection, with its two locals.  An
    event is what wakes a task up: the connection is opened, a frame arrives,
    or [receive_json] raises [WebSocketDisconnect].  [PeerGone] is the
    environment closing a socket without the server having noticed. *)

Record Task := mkTask {
  task_session : string;
  task_user : option string
}.

Record System := mkSystem {
  world : World;
  tasks : gmap nat Task
}.

Inductive Event :=
  | Open (websocket : nat) (session_id : string)
  | Receive (websocket : nat) (data : ClientMessage)
  | Disconnect (websocket : nat)
  | PeerGone (websocket : nat).

Definition world_init (r : RedisService) : World :=
  {| manager := manager_init; redis_service := r; closed := ∅; sent := [] |}.

Definition system_init (r : RedisService) : System :=
  {| world := world_init r; tasks := ∅ |}.

Definition step `{E : Env} (now : Z) (e : Event) (s : System) : System :=
  match e with
  | Open websocket session_id =>
      match tasks s !! websocket with
      | Some _ => s
      | None =>
          match connect websocket session_id (world s) with
          | (Ret _, w) =>
              {| world := w;
                 tasks := <[websocket := {| task_session := session_id;
                                            task_user := None |}]> (tasks s) |}
          | (Raise _, w) => {| world := w; tasks := tasks s |}
          end
      end
  | Receive websocket data =>
      match tasks s !! websocket with
      | None => s
      | Some t =>
          let uid := next_user_id (task_user t) data now in
          match handle_message websocket (task_session t) (task_user t) data now
                  (world s) with
          | (Ret _, w) =>
              {| world := w;
                 tasks := <[websocket := {| task_session := task_session t;
                                            task_user := uid |}]> (tasks s) |}
          | (Raise _, w) =>
              {| world := snd (finalize websocket (task_session t) uid now w);
                 tasks := delete websocket (tasks s) |}
          end
      end
  | Disconnect websocket =>
      match tasks s !! websocket with
      | None => s
      | Some t =>
          {| world := snd (finalize websocket (task_session t) (task_user t) now (world s));
             tasks := delete websocket (tasks s) |}
      end
  | PeerGone websocket =>
      {| world := {| manager := manager (world s);
                     redis_service := redis_service (world s);
                     closed := {[websocket]} ∪ closed (world s);
                     sent := sent (world s) |};
         tasks := tasks s |}
  end.

(** A run: the events in the order the server handles them, each with the
    clock reading of its handler. *)
Fixpoint run `{E : Env} (events : list (Z * Event)) (s : System) : System :=
  match events with
  | [] => s
  | (now, e) :: rest => run rest (step now e s)
  end.

(** The frames a socket has received, oldest first. *)
Definition inbox (websocket : nat) (w : World) : list Message :=
  map snd (filter (fun p => bool_decide (fst p = websocket)) (sent w)).

(** ** A concrete deployment and the clients of the scenarios *)

(** The service with the defaults of [AuthService.__init__]. *)
Definition dev_service : AuthService :=
  {| secret_key := "dev-secret-key-change-in-production";
     algorithm := "HS256";
     expiration_hours := 24 |}.

(** The non-field attributes that the source itself names: the method
    [compute_beta] it defines and the method [dict] it calls. *)
Definition source_methods (key : string) : bool :=
  (String.eqb key "compute_beta" || String.eqb key "dict")%bool.

Definition dev_env : Env :=
  {| auth_service := dev_service; other_attr := source_methods |}.

(** A reachable store that holds nothing yet. *)
Definition empty_store : RedisService :=
  {| enabled := true; kv_state := ∅; kv_seq := ∅; kv_history := ∅;
     kv_users := ∅; kv_user_sessions := ∅ |}.

(** Two connections and the tokens of their users, issued at time 0. *)
Definition ws_A : nat := 1.
Definition ws_B : nat := 2.
Definition ws_C : nat := 3.
Definition token_A : Token := create_token dev_service 0 "A" "Alice" None false.
Definition token_B : Token := create_token dev_service 0 "B" "Bob" None false.

(** A opens session [s1], which the store does not know. *)
Definition opened : System :=
  step (E := dev_env) 1000 (Open ws_A "s1") (system_init empty_store).

(** A and B join session [s1] and both authenticate. *)
Definition join_A_B : list (Z * Event) :=
  [ (1000, Open ws_A "s1");
    (2000, Open ws_B "s1");
    (3000, Receive ws_A (Auth (Some token_A) None));
    (4000, Receive ws_B (Auth (Some token_B) None)) ].

Definition joined : System := run (E := dev_env) join_A_B (system_init empty_store).

(** The other order: B opens its connection after A has authenticated. *)
Definition join_in_turn : list (Z * Event) :=
  [ (1000, Open ws_A "s1");
    (2000, Receive ws_A (Auth (Some token_A) None));
    (3000, Open ws_B "s1");
    (4000, Receive ws_B (Auth (Some token_B) None)) ].

Definition joined_in_turn : System :=
  run (E := dev_env) join_in_turn (system_init empty_store).

Definition basic_broadcast_in_turn : System :=
  step (E := dev_env) 5000 (Receive ws_A (ParamUpdate [("mu", 0.60%float)]))
    joined_in_turn.

(** Scenario 1 of the specification: A then proposes [{mu: 0.60}]. *)
Definition basic_broadcast : System :=
  step (E := dev_env) 5000 (Receive ws_A (ParamUpdate [("mu", 0.60%float)])) joined.

(** Scenario 5: A proposes [{mu: 0.80}], above the declared bound 0.7. *)
Definition out_of_bounds : System :=
  step (E := dev_env) 5000 (Receive ws_A (ParamUpdate [("mu", 0.80%float)])) joined.

(** A proposes [{mu: 0.60}], and 100 ms later A proposes [{mu: 0.65}]. *)
Definition mu_updated : System :=
  step (E := dev_env) 1000000 (Receive ws_A (ParamUpdate [("mu", 0.60%float)])) joined.

Definition own_update_then_proposal : System :=
  step (E := dev_env) 1100000 (Receive ws_A (ParamUpdate [("mu", 0.65%float)]))
    mu_updated.

(** The same two proposals from a participant who is alone in the session. *)
Definition own_update_alone : System :=
  run (E := dev_env)
    [ (1000, Open ws_A "s1");
      (3000, Receive ws_A (Auth (Some token_A) None));
      (1000000, Receive ws_A (ParamUpdate [("mu", 0.60%float)]));
      (1100000, Receive ws_A (ParamUpdate [("mu", 0.65%float)])) ]
    (system_init empty_store).

(** A session with one update, a later join, and then everybody leaving. *)
Definition before_last_leave : System :=
  run (E := dev_env)
    [ (1000, Open ws_A "s1");
      (2000, Receive ws_A (Auth (Some token_A) None));
      (3000, Receive ws_A (ParamUpdate [("mu", 0.60%float)]));
      (4000, Open ws_B "s1");
      (5000, Receive ws_B (Auth (Some token_B) None));
      (6000, Disconnect ws_B) ]
    (system_init empty_store).

Definition after_last_leave : System :=
  step (E := dev_env) 7000 (Disconnect ws_A) before_last_leave.





(** B updates [omega]; 100 ms later A proposes [omega] with an unknown key. *)
Definition omega_updated : System :=
  step (E := dev_env) 1000000 (Receive ws_B (ParamUpdate [("omega", 1.20%float)])) joined.

Definition unknown_key_with_conflict : System :=
  step (E := dev_env) 1100000
    (Receive ws_A (ParamUpdate [("omega", 0.90%float); ("foo", 1%float)]))
    omega_updated.

(** A proposes a single key that names a method of [SessionState]. *)
Definition method_key : System :=
  step (E := dev_env) 1000000
    (Receive ws_A (ParamUpdate [("compute_beta", 1%float)])) joined.

(** ** Invariants of the manager *)

(** A property of the manager that a computation keeps, however it ends. *)
Definition preserves {A} (P : ConnectionManager -> Prop) (c : M A) : Prop :=
  forall (w w' : World) (r : outcome A), c w = (r, w') -> P (manager w) -> P (manager w').

(** Every key of [last_update_time] is a name that [hasattr] finds. *)
Definition stamps_have_attr `{E : Env} (m : ConnectionManager) : Prop :=
  forall (sid : string) (times : gmap string Z) (key : string) (t : Z),
    last_update_time m !! sid = Some times ->
    times !! key = Some t ->
    hasattr key = true.

(** ** What the specification asks of [beta] *)


(** ** Strings as Python slices and splits them

    A string is its sequence of characters. *)

(** [s[-n:]] *)
Definition last_chars (n : nat) (s : string) : string :=
  String.substring (String.length s - n) n s.

(** [s.split(c)] *)
Fixpoint split_on (c : Ascii.ascii) (s : string) : list string :=
  match s with
  | EmptyString => [EmptyString]
  | String a s' =>
      if Ascii.eqb a c then EmptyString :: split_on c s'
      else match split_on c s' with
           | [] => [String a EmptyString]
           | part :: parts => String a part :: parts
           end
  end.

(** The characters [@] and [:]. *)
Definition at_sign : Ascii.ascii := Ascii.ascii_of_nat 64.
Definition colon : Ascii.ascii := Ascii.ascii_of_nat 58.

(** ** services/auth.py: the anonymous token *)

(** [create_anonymous_token]: [if not username] holds for [None] and for the
    empty string. *)
Definition create_anonymous_token (self : AuthService) (now : Z) (uid : string)
    (uname : option string) : Token :=
  let uname' :=
    match uname with
    | Some u => if String.eqb u "" then ("User " ++ last_chars 6 uid)%string else u
    | None => ("User " ++ last_chars 6 uid)%string
    end in
  create_token self now uid uname' None true.

(** ** HTTP endpoints: what they answer *)

Inductive http (A : Type) :=
  | Response (a : A)
  | HTTPException (status_code : nat) (detail : string).
Arguments Response {A} a.
Arguments HTTPException {A} status_code detail.

(** ** api/auth.py

    [uuid_hex] is [uuid.uuid4().hex], the one input of these endpoints that
    the request does not carry. *)

Record LoginResponse := mkLoginResponse {
  login_token : Token;
  login_user_id : string;
  login_username : string;
  login_email : option string;
  login_is_anonymous : bool;
  login_expires_at : Z
}.

Record RefreshResponse := mkRefreshResponse {
  refresh_token_new : Token;
  refresh_expires_at : Z
}.

Definition login_anonymous (svc : AuthService) (now : Z) (uuid_hex : string)
    (request_username : option string) : http LoginResponse :=
  let uid := ("anon_" ++ String.substring 0 12 uuid_hex)%string in
  let uname :=
    match request_username with
    | Some u => if String.eqb u "" then ("User " ++ last_chars 6 uid)%string else u
    | None => ("User " ++ last_chars 6 uid)%string
    end in
  let token := create_anonymous_token svc now uid (Some uname) in
  match verify_token svc now token with
  | None => HTTPException 500 "Failed to create token"
  | Some token_data =>
      Response {| login_token := token; login_user_id := uid; login_username := uname;
                  login_email := None; login_is_anonymous := true;
                  login_expires_at := exp token_data |}
  end.

Definition login (svc : AuthService) (now : Z) (uuid_hex : string)
    (request_email : option string) : http LoginResponse :=
  match request_email with
  | None => HTTPException 400 "Email required"
  | Some mail =>
      if String.eqb mail "" then HTTPException 400 "Email required"
      else
        let uid := ("user_" ++ String.substring 0 12 uuid_hex)%string in
        let uname := hd EmptyString (split_on at_sign mail) in
        let token := create_token svc now uid uname (Some mail) false in
        match verify_token svc now token with
        | None => HTTPException 500 "Failed to create token"
        | Some token_data =>
            Response {| login_token := token; login_user_id := uid;
                        login_username := uname; login_email := Some mail;
                        login_is_anonymous := false;
                        login_expires_at := exp token_data |}
        end
  end.

Definition refresh (svc : AuthService) (now : Z) (request_token : Token)
    : http RefreshResponse :=
  match refresh_token svc now request_token with
  | None => HTTPException 401 "Invalid or expired token"
  | Some new_token =>
      match verify_token svc now new_token with
      | None => HTTPException 500 "Failed to refresh token"
      | Some token_data =>
          Response {| refresh_token_new := new_token;
                      refresh_expires_at := exp token_data |}
      end
  end.

(** [verify] and [get_current_user] answer with the same fields. *)
Definition verify (svc : AuthService) (now : Z) (token : Token) : http TokenData :=
  match verify_token svc now token with
  | None => HTTPException 401 "Invalid or expired token"
  | Some token_data => Response token_data
  end.

(** ** services/redis_service.py: the queries and the removals *)

Definition delete_session_state (sid : string) (r : RedisService) : RedisService :=
  if negb (is_enabled r) then r
  else
    {| enabled := enabled r;
       kv_state := delete sid (kv_state r);
       kv_seq := delete sid (kv_seq r);
       kv_history := delete sid (kv_history r);
       kv_users := delete sid (kv_users r);
       kv_user_sessions := kv_user_sessions r |}.

(** [get_history]: [zrangebyscore] with the bounds [start_seq] and [end_seq],
    or [+inf] when [end_seq] is -1. *)
Definition get_history (sid : string) (start_seq end_seq : Z) (r : RedisService)
    : list HistoryEvent :=
  if negb (is_enabled r) then []
  else
    let events := default [] (kv_history r !! sid) in
    if end_seq =? -1 then filter (fun e => start_seq <= h_seq e) events
    else filter (fun e => start_seq <= h_seq e /\ h_seq e <= end_seq) events.

Definition get_full_history (sid : string) (r : RedisService) : list HistoryEvent :=
  get_history sid 0 (-1) r.

(** [remove_user_from_session]: [hdel] and [srem]. *)
Definition remove_user_from_session (sid uid : string) (r : RedisService)
    : RedisService :=
  if negb (is_enabled r) then r
  else
    {| enabled := enabled r;
       kv_state := kv_state r;
       kv_seq := kv_seq r;
       kv_history := kv_history r;
       kv_users := alter (delete uid) sid (kv_users r);
       kv_user_sessions := alter (fun sessions => sessions ∖ {[sid]}) uid (kv_user_sessions r) |}.

(** [RedisService.get_session_users]: the values of the hash, in the order
    the backend hands them out. *)
Definition redis_get_session_users (sid : string) (r : RedisService) : list User :=
  if negb (is_enabled r) then []
  else map snd (map_to_list (default ∅ (kv_users r !! sid))).

(** The key of a snapshot. *)
Definition state_key (sid : string) : string :=
  ("session:" ++ sid ++ ":state")%string.

(** [get_active_sessions]: the keys that match [session:*:state] are the
    snapshot keys; each gives [key.split(':')[1]]. *)
Definition get_active_sessions (r : RedisService) : list string :=
  if negb (is_enabled r) then []
  else map (fun key => nth 1 (split_on colon key) EmptyString)
           (map state_key (map fst (map_to_list (kv_state r)))).

Record SessionMetadata := mkSessionMetadata {
  meta_session_id : string;
  meta_state : Snapshot;
  meta_users : list User;
  meta_user_count : nat;
  meta_history_count : nat;
  meta_seq : Z
}.

Definition get_session_metadata (sid : string) (r : RedisService)
    : option SessionMetadata :=
  if negb (is_enabled r) then None
  else
    let state := load_session_state sid r in
    let users := redis_get_session_users sid r in
    let history_count := length (default [] (kv_history r !! sid)) in
    match state with
    | None => None
    | Some snap =>
        Some {| meta_session_id := sid; meta_state := snap; meta_users := users;
                meta_user_count := length users; meta_history_count := history_count;
                meta_seq := snap_seq snap |}
    end.

(** ** api/websocket.py: [shutdown] *)

(** [await ws.close()] inside [try] / [except: pass]: from then on a send to
    the socket raises. *)
Definition close (websocket : nat) : M unit :=
  fun w => (Ret tt, {| manager := manager w; redis_service := redis_service w;
                       closed := {[websocket]} ∪ closed w; sent := sent w |}).

Fixpoint close_all (sockets : list nat) : M unit :=
  match sockets with
  | [] => ret tt
  | ws :: rest => close ws;; close_all rest
  end.

Definition shutdown : M unit :=
  let* m := get_manager in
  close_all (concat (map (fun kv => elements kv.2) (map_to_list (active_connections m))));;
  modify_manager (fun _ => manager_init).

(** ** api/sessions.py *)

Record SessionInfo := mkSessionInfo {
  info_session_id : string;
  info_user_count : nat;
  info_current_seq : Z;
  info_state : SessionState
}.

Definition session_info (sid : string) (conns : gset nat) (m : ConnectionManager)
    : SessionInfo :=
  let state := get_session_state sid m in
  {| info_session_id := sid; info_user_count := size conns;
     info_current_seq := snd state; info_state := fst state |}.

Definition list_sessions (m : ConnectionManager) : list SessionInfo :=
  map (fun kv => session_info kv.1 kv.2 m) (map_to_list (active_connections m)).

Definition get_session (sid : string) (m : ConnectionManager) : http SessionInfo :=
  match active_connections m !! sid with
  | None => HTTPException 404 "Session not found"
  | Some conns => Response (session_info sid conns m)
  end.

(** The loop of [delete_session]. *)
Fixpoint close_and_disconnect (sockets : list nat) (sid : string) : M unit :=
  match sockets with
  | [] => ret tt
  | ws :: rest => close ws;; disconnect ws sid;; close_and_disconnect rest sid
  end.

Definition delete_session (sid : string) : M (http string) :=
  let* m := get_manager in
  match active_connections m !! sid with
  | None => ret (HTTPException 404 "Session not found")
  | Some conns =>
      close_and_disconnect (elements conns) sid;;
      ret (Response sid)
  end.

(** ** api/history.py *)

Record HistoryResponse := mkHistoryResponse {
  history_session_id : string;
  history_events : list HistoryEvent;
  history_total_count : nat
}.

Definition history_unavailable {A} : http A :=
  HTTPException 503 "History not available (Redis not configured)".

(** The endpoints, named after the functions of [api/history.py] with the
    prefix [api_], which tells them from the methods of the store. *)

Definition api_get_session_history (sid : string) (start_seq end_seq : Z)
    (r : RedisService) : http HistoryResponse :=
  if negb (is_enabled r) then history_unavailable
  else
    let events := get_history sid start_seq end_seq r in
    Response {| history_session_id := sid; history_events := events;
                history_total_count := length events |}.

Definition api_get_full_history (sid : string) (r : RedisService) : http HistoryResponse :=
  if negb (is_enabled r) then history_unavailable
  else
    let events := get_full_history sid r in
    Response {| history_session_id := sid; history_events := events;
                history_total_count := length events |}.

Definition api_get_session_metadata (sid : string) (r : RedisService)
    : http SessionMetadata :=
  if negb (is_enabled r) then history_unavailable
  else
    match get_session_metadata sid r with
    | None => HTTPException 404 "Session not found"
    | Some metadata => Response metadata
    end.

Definition api_get_active_sessions (r : RedisService) : http (list string) :=
  if negb (is_enabled r) then history_unavailable
  else Response (get_active_sessions r).

Definition api_delete_session_history (sid : string) (r : RedisService)
    : http string * RedisService :=
  if negb (is_enabled r) then (history_unavailable, r)
  else (Response sid, delete_session_state sid r).

(** ** main.py: the routes in the order of their registration

    A path is its list of segments.  The first route whose method and path
    both match serves the request; a path parameter matches one non-empty
    segment.  The documentation routes of the framework are left out. *)

Inductive Handler :=
  | h_health_check | h_root
  | h_login_anonymous | h_login | h_refresh | h_verify | h_get_current_user
  | h_create_session | h_list_sessions | h_get_session | h_delete_session
  | h_get_session_history | h_get_full_history | h_get_session_metadata
  | h_get_active_sessions | h_delete_session_history.

Inductive Segment :=
  | Lit (s : string)
  | Param (name : string).

Record Route := mkRoute {
  route_method : string;
  route_path : list Segment;
  route_handler : Handler
}.

Definition api_v1 (path : list Segment) : list Segment :=
  Lit "api" :: Lit "v1" :: path.

Definition app_routes : list Route :=
  [ mkRoute "GET" [Lit "health"] h_health_check;
    mkRoute "GET" [] h_root;
    mkRoute "POST" (api_v1 [Lit "auth"; Lit "anonymous"]) h_login_anonymous;
    mkRoute "POST" (api_v1 [Lit "auth"; Lit "login"]) h_login;
    mkRoute "POST" (api_v1 [Lit "auth"; Lit "refresh"]) h_refresh;
    mkRoute "POST" (api_v1 [Lit "auth"; Lit "verify"]) h_verify;
    mkRoute "GET" (api_v1 [Lit "auth"; Lit "me"]) h_get_current_user;
    mkRoute "POST" (api_v1 [Lit "sessions"]) h_create_session;
    mkRoute "GET" (api_v1 [Lit "sessions"]) h_list_sessions;
    mkRoute "GET" (api_v1 [Lit "sessions"; Param "session_id"]) h_get_session;
    mkRoute "DELETE" (api_v1 [Lit "sessions"; Param "session_id"]) h_delete_session;
    mkRoute "GET" (api_v1 [Lit "history"; Param "session_id"]) h_get_session_history;
    mkRoute "GET" (api_v1 [Lit "history"; Param "session_id"; Lit "full"])
      h_get_full_history;
    mkRoute "GET" (api_v1 [Lit "history"; Param "session_id"; Lit "metadata"])
      h_get_session_metadata;
    mkRoute "GET" (api_v1 [Lit "history"; Lit "active"]) h_get_active_sessions;
    mkRoute "DELETE" (api_v1 [Lit "history"; Param "session_id"])
      h_delete_session_history ].

(** The path parameters when the pattern matches the path. *)
Fixpoint match_path (pattern : list Segment) (path : list string)
    : option (list (string * string)) :=
  match pattern, path with
  | [], [] => Some []
  | Lit s :: pattern', seg :: path' =>
      if String.eqb s seg then match_path pattern' path' else None
  | Param name :: pattern', seg :: path' =>
      if String.eqb seg "" then None
      else match match_path pattern' path' with
           | Some params => Some ((name, seg) :: params)
           | None => None
           end
  | _, _ => None
  end.

Fixpoint dispatch_in (routes : list Route) (method : string) (path : list string)
    : option (Handler * list (string * string)) :=
  match routes with
  | [] => None
  | route :: rest =>
      if String.eqb (route_method route) method then
        match match_path (route_path route) path with
        | Some params => Some (route_handler route, params)
        | None => dispatch_in rest method path
        end
      else dispatch_in rest method path
  end.

Definition dispatch (method : string) (path : list string)
    : option (Handler * list (string * string)) :=
  dispatch_in app_routes method path.

(** ** The order of a history *)

(** The events are in the order of their scores. *)
Fixpoint ordered_by_seq (l : list HistoryEvent) : Prop :=
  match l with
  | [] => True
  | e :: l' => Forall (fun e' => h_seq e <= h_seq e') l' /\ ordered_by_seq l'
  end.

(** ** Invariants of the manager, continued *)

(** The four fields of [SessionState]. *)
Definition is_field `{E : Env} (key : string) : bool :=
  match lookup_attr key with
  | attr_mu | attr_omega | attr_kappa | attr_beta => true
  | attr_other | attr_missing => false
  end.

(** A session with a counter has its set of connections; a session with
    update times has its state and its roster; the update times are keyed by
    fields; a roster has one entry for a user id. *)
Definition hub_inv `{E : Env} (m : ConnectionManager) : Prop :=
  (forall sid, is_Some (session_seq m !! sid) -> is_Some (active_connections m !! sid)) /\
  (forall sid, is_Some (last_update_time m !! sid) ->
               is_Some (session_state m !! sid) /\ is_Some (session_users m !! sid)) /\
  (forall sid times key t,
      last_update_time m !! sid = Some times -> times !! key = Some t ->
      is_field key = true) /\
  (forall sid users, session_users m !! sid = Some users -> NoDup (map fst users)).

(** No counter appears and no counter goes down from [m] to [m']. *)
Definition seq_mono (m m' : ConnectionManager) : Prop :=
  forall sid n', session_seq m' !! sid = Some n' ->
    exists n, session_seq m !! sid = Some n /\ n <= n'.

(** A computation under which no counter appears or goes down. *)
Definition keeps_seq_mono {A} (c : M A) : Prop :=
  forall (w w' : World) (r : outcome A), c w = (r, w') -> seq_mono (manager w) (manager w').

(** ** Scenarios, continued *)

(** After the proposal [{mu: 0.80}] was applied and saved, A and B leave. *)
Definition out_of_bounds_left : System :=
  run (E := dev_env) [ (6000, Disconnect ws_A); (7000, Disconnect ws_B) ] out_of_bounds.

(** A opens the session in two tabs and authenticates in both with the same
    token. *)
Definition two_tabs : System :=
  run (E := dev_env)
    [ (1000, Open ws_A "s1");
      (2000, Receive ws_A (Auth (Some token_A) None));
      (3000, Open ws_C "s1");
      (4000, Receive ws_C (Auth (Some token_A) None)) ]
    (system_init empty_store).

(** * Properties *)

(** ** The token service *)

Lemma epoch_sec_le (t : Z) : epoch_sec t * usec_per_sec <= t.
Proof.
  unfold epoch_sec, usec_per_sec.
  pose proof (Z.mul_div_le t 1000000 ltac:(lia)). lia.
Qed.

(** The expiry written in a token is the whole second at or below the issue
    time plus the configured lifetime. *)
Lemma token_expiry_bounds (svc : AuthService) (issued : Z) (uid uname : string)
    (mail : option string) (anonymous : bool) :
  let lifetime := expiration_hours svc * 3600 * usec_per_sec in
  let expiry :=
    c_exp (tok_claims (create_token svc issued uid uname mail anonymous)) * usec_per_sec in
  issued + lifetime - usec_per_sec < expiry <= issued + lifetime.
Proof.
  simpl. unfold epoch_sec, usec_per_sec.
  pose proof (Z.mul_div_le (issued + expiration_hours svc * 3600 * 1000000) 1000000
                ltac:(lia)).
  pose proof (Z.mul_succ_div_gt (issued + expiration_hours svc * 3600 * 1000000) 1000000
                ltac:(lia)).
  lia.
Qed.

(** C8.  A token issued for a principal verifies, at any later time before the
    expiry written in the token, to exactly the identity it was issued for. *)
Theorem verify_issue_roundtrip (svc : AuthService) (issued now : Z)
    (uid uname : string) (mail : option string) (anonymous : bool) :
  issued <= now ->
  now < c_exp (tok_claims (create_token svc issued uid uname mail anonymous)) * usec_per_sec ->
  verify_token svc now (create_token svc issued uid uname mail anonymous) =
    Some {| user_id := uid; username := uname; email := mail;
            is_anonymous := anonymous;
            exp := epoch_sec (issued + expiration_hours svc * 3600 * usec_per_sec) |}.
Proof.
  intros Hle Hexp.
  unfold verify_token, jwt_decode, create_token, jwt_encode in *. simpl in *.
  rewrite !String.eqb_refl. simpl.
  destruct (Z.leb_spec
    (epoch_sec (issued + expiration_hours svc * 3600 * usec_per_sec) * usec_per_sec) now)
    as [Hlate|_]; [lia|].
  pose proof (epoch_sec_le issued).
  destruct (Z.ltb_spec now (epoch_sec issued * usec_per_sec)) as [Hearly|_]; [lia|].
  reflexivity.
Qed.

(** Token A of the scenarios, verified when A authenticates. *)
Lemma verify_issue_roundtrip_witness :
  verify_token dev_service 3000 token_A =
    Some {| user_id := "A"; username := "Alice"; email := None;
            is_anonymous := false; exp := 86400 |}.
Proof.
  apply (verify_issue_roundtrip dev_service 0 3000 "A" "Alice" None false).
  - lia.
  - vm_compute. reflexivity.
Defined.

(** ** The hub *)

Section Hub.
Context `{E : Env}.

(** *** Sessions without connections *)

Lemma broadcast_no_session (w : World) (sid : string) (p : Payload)
    (exclude : option nat) (now : Z) :
  active_connections (manager w) !! sid = None ->
  broadcast sid p exclude now w = (Ret tt, w).
Proof.
  intros Hnone. unfold broadcast, bind, get_manager. simpl.
  rewrite Hnone. reflexivity.
Qed.

(** [disconnect] of the only connection of a session whose five entries are
    all there: every entry goes, nothing is sent, the store is not touched. *)
Lemma disconnect_last (w : World) (ws : nat) (sid : string) :
  active_connections (manager w) !! sid = Some {[ws]} ->
  is_Some (session_seq (manager w) !! sid) ->
  is_Some (session_state (manager w) !! sid) ->
  is_Some (session_users (manager w) !! sid) ->
  is_Some (last_update_time (manager w) !! sid) ->
  exists w',
    disconnect ws sid w = (Ret tt, w') /\
    active_connections (manager w') !! sid = None /\
    session_seq (manager w') !! sid = None /\
    session_state (manager w') !! sid = None /\
    session_users (manager w') !! sid = None /\
    last_update_time (manager w') !! sid = None /\
    redis_service w' = redis_service w /\
    closed w' = closed w /\
    sent w' = sent w.
Proof.
  intros Hconns [n Hn] [st Hst] [us Hus] [ts Hts].
  assert (Hempty : ({[ws]} : gset nat) ∖ {[ws]} = ∅) by apply difference_diag_L.
  unfold disconnect, bind, get_manager. simpl. rewrite Hconns.
  destruct (ws_to_user (manager w) !! ws) as [uid|] eqn:Huid; simpl.
  - rewrite Hus. destruct (dict_get uid us) as [u|] eqn:Hu; simpl.
    + rewrite Hempty. rewrite decide_True by reflexivity.
      unfold delitem, bind, get_manager, modify_manager. simpl.
      rewrite lookup_insert_eq. simpl.
      rewrite Hn. simpl. rewrite Hst. simpl.
      rewrite lookup_insert_eq. simpl. rewrite Hts. simpl.
      eexists. split; [reflexivity|]. simpl.
      rewrite !lookup_delete_eq. repeat split; reflexivity.
    + rewrite Hempty. rewrite decide_True by reflexivity.
      unfold delitem, bind, get_manager, modify_manager. simpl.
      rewrite lookup_insert_eq. simpl.
      rewrite Hn. simpl. rewrite Hst. simpl. rewrite Hus. simpl. rewrite Hts. simpl.
      eexists. split; [reflexivity|]. simpl.
      rewrite !lookup_delete_eq. repeat split; reflexivity.
  - rewrite Hempty. rewrite decide_True by reflexivity.
    unfold delitem, bind, get_manager, modify_manager. simpl.
    rewrite lookup_insert_eq. simpl.
    rewrite Hn. simpl. rewrite Hst. simpl. rewrite Hus. simpl. rewrite Hts. simpl.
    eexists. split; [reflexivity|]. simpl.
    rewrite !lookup_delete_eq. repeat split; reflexivity.
Qed.


(** *** Resync *)


(** For a session id without state, the reply holds the default parameters
    and 0, whatever [session_seq] has for that id. *)
Lemma resync_without_state (w : World) (ws : nat) (sid : string) (uid : option string)
    (lastSeenSeq : Z) (now : Z) :
  session_state (manager w) !! sid = None ->
  ws ∉ closed w ->
  handle_message ws sid uid (SessionResync lastSeenSeq) now w =
    (Ret tt,
     {| manager := manager w;
        redis_service := redis_service w;
        closed := closed w;
        sent := sent w ++ [(ws, direct (SessionStateMsg SessionState_default 0))] |}).
Proof.
  intros Hst Hopen.
  unfold handle_message, bind, get_manager, get_session_state, send_json. simpl.
  rewrite Hst. simpl.
  rewrite decide_False by assumption. reflexivity.
Qed.

(** *** Proposals that conflict *)

Lemma send_conflicts_open (w : World) (ws : nat) (cs : list Conflict) :
  ws ∉ closed w ->
  send_conflicts ws cs w =
    (Ret tt,
     {| manager := manager w;
        redis_service := redis_service w;
        closed := closed w;
        sent := sent w ++ map (fun c => (ws, direct (ConflictDetected c))) cs |}).
Proof.
  revert w. induction cs as [|c cs IH]; intros w Hopen; simpl.
  - unfold ret. rewrite app_nil_r. destruct w; reflexivity.
  - unfold bind, send_json. rewrite decide_False by assumption.
    rewrite IH by assumption. simpl.
    rewrite <- app_assoc. reflexivity.
Qed.

(** The conflicts of a proposal, parameter by parameter. *)
Lemma detect_conflicts_spec (m : ConnectionManager) (sid : string)
    (params : list (string * float)) (me : string) (now : Z) (cs : list Conflict) :
  detect_conflicts m sid params me now = Ret cs ->
  cs = omap (fun kv => match detect_conflict m sid kv.1 kv.2 me now with
                       | Ret c => c
                       | Raise _ => None
                       end) params.
Proof.
  revert cs. induction params as [|[k v] params IH]; intros cs Hcs; simpl in *.
  - congruence.
  - destruct (detect_conflict m sid k v me now) as [c|e]; [|discriminate].
    destruct (detect_conflicts m sid params me now) as [cs'|e]; [|discriminate].
    specialize (IH cs' eq_refl).
    injection Hcs as <-. rewrite IH. destruct c; reflexivity.
Qed.

(** The conflict frames on a closed socket: the first send raises. *)
Lemma send_conflicts_closed (w : World) (ws : nat) (cs : list Conflict) :
  ws ∈ closed w ->
  cs <> [] ->
  send_conflicts ws cs w = (Raise SendError, w).
Proof.
  intros Hclosed Hne. destruct cs as [|c cs]; [congruence|].
  simpl. unfold bind, send_json. rewrite decide_True by assumption. reflexivity.
Qed.

(** C4.  When the conflict check of a proposal finds at least one conflict,
    the proposing connection is sent one [conflict:detected] frame for each
    conflicting parameter and nothing else happens: no frame goes to another
    connection, and the manager (state, counter, update times) and the store
    are unchanged.  When the proposing socket is closed, the first send raises
    and nothing at all has changed. *)
Theorem conflicting_proposal_is_rejected (w : World) (ws : nat) (sid me : string)
    (params : list (string * float)) (now : Z) (cs : list Conflict) :
  me <> "" ->
  detect_conflicts (manager w) sid params me now = Ret cs ->
  cs <> [] ->
  (ws ∉ closed w ->
   handle_message ws sid (Some me) (ParamUpdate params) now w =
     (Ret tt,
      {| manager := manager w;
         redis_service := redis_service w;
         closed := closed w;
         sent := sent w ++ map (fun c => (ws, direct (ConflictDetected c))) cs |})) /\
  (ws ∈ closed w ->
   handle_message ws sid (Some me) (ParamUpdate params) now w = (Raise SendError, w)) /\
  cs = omap (fun kv => match detect_conflict (manager w) sid kv.1 kv.2 me now with
                       | Ret c => c
                       | Raise _ => None
                       end) params.
Proof.
  intros Hme Hcs Hne.
  assert (Hrun : handle_message ws sid (Some me) (ParamUpdate params) now w =
                 send_conflicts ws cs w).
  { unfold handle_message, truthy.
    apply String.eqb_neq in Hme. rewrite Hme. simpl.
    unfold bind, get_manager, lift_outcome. simpl. rewrite Hcs.
    destruct cs as [|c cs]; [congruence|]. reflexivity. }
  rewrite Hrun. split; [|split].
  - apply send_conflicts_open.
  - intros Hclosed. by apply send_conflicts_closed.
  - by apply detect_conflicts_spec.
Qed.

(** *** What the loops of [broadcast] touch *)

Ltac monad_unfold :=
  repeat (progress unfold delitem, bind, ret, raise, get_manager, get_redis,
            modify_manager, modify_redis, getitem, lift_outcome in *);
  simpl in *.

(** The parameter loop works on [session_state] and [last_update_time] only. *)
Lemma apply_params_frame (sid : string) (params : list (string * float)) (now : Z)
    (w w' : World) (r : outcome unit) :
  apply_params sid params now w = (r, w') ->
  redis_service w' = redis_service w /\
  closed w' = closed w /\
  sent w' = sent w /\
  active_connections (manager w') = active_connections (manager w) /\
  session_seq (manager w') = session_seq (manager w) /\
  session_users (manager w') = session_users (manager w) /\
  ws_to_user (manager w') = ws_to_user (manager w).
Proof.
  revert w. induction params as [|[key value] rest IH]; intros w Hrun; simpl in Hrun.
  - monad_unfold. by injection Hrun as <- <-.
  - monad_unfold.
    destruct (session_state (manager w) !! sid) as [st|]; simpl in Hrun;
      [|by injection Hrun as <- <-].
    destruct (hasattr key); simpl in Hrun.
    + destruct (setattr st key value) as [st'|e]; simpl in Hrun;
        [|by injection Hrun as <- <-].
      destruct (last_update_time (manager w) !! sid) as [times|]; simpl in Hrun;
        [|by injection Hrun as <- <-].
      apply IH in Hrun. simpl in Hrun. exact Hrun.
    + apply IH in Hrun. exact Hrun.
Qed.

(** The sending loop: the sockets that are open and not excluded get the
    frame, the closed ones come back as [dead_sockets]. *)
Lemma send_all_spec (targets : list nat) (exclude : option nat) (message : Message)
    (w : World) :
  send_all targets exclude message w =
    (Ret (filter (fun ws => Some ws <> exclude /\ ws ∈ closed w) targets),
     {| manager := manager w;
        redis_service := redis_service w;
        closed := closed w;
        sent := sent w ++
                map (fun ws => (ws, message))
                    (filter (fun ws => Some ws <> exclude /\ ws ∉ closed w) targets) |}).
Proof.
  revert w. induction targets as [|ws rest IH]; intros w; simpl.
  - unfold ret. rewrite app_nil_r. by destruct w.
  - destruct (decide (Some ws = exclude)) as [Hex|Hex].
    + rewrite IH.
      rewrite !filter_cons_False by (intros [? _]; contradiction). reflexivity.
    + unfold send_json. destruct (decide (ws ∈ closed w)) as [Hc|Hc].
      * unfold bind. rewrite IH. simpl.
        rewrite filter_cons_True by done.
        rewrite (filter_cons_False (fun ws => Some ws <> exclude /\ ws ∉ closed w))
          by (intros [_ ?]; contradiction).
        reflexivity.
      * rewrite IH. simpl.
        rewrite filter_cons_False by (intros [_ ?]; contradiction).
        rewrite (filter_cons_True (fun ws => Some ws <> exclude /\ ws ∉ closed w)) by done.
        simpl. rewrite <- app_assoc. reflexivity.
Qed.

Lemma disconnect_no_session (w : World) (ws : nat) (sid : string) :
  active_connections (manager w) !! sid = None ->
  disconnect ws sid w = (Ret tt, w).
Proof.
  intros Hnone. unfold disconnect, bind, get_manager. simpl.
  rewrite Hnone. reflexivity.
Qed.

(** [disconnect] sends nothing and leaves the store alone; the counter and
    the state of the session stay, or the session is torn down. *)
Lemma disconnect_frame (w w' : World) (ws : nat) (sid : string) (r : outcome unit) :
  disconnect ws sid w = (r, w') ->
  redis_service w' = redis_service w /\
  closed w' = closed w /\
  sent w' = sent w /\
  (session_seq (manager w') !! sid = session_seq (manager w) !! sid \/
   active_connections (manager w') !! sid = None) /\
  (session_state (manager w') !! sid = session_state (manager w) !! sid \/
   session_state (manager w') !! sid = None).
Proof.
  unfold disconnect. monad_unfold. intros Hrun.
  repeat (case_match; simpl in *; simplify_eq);
    rewrite ?lookup_delete_eq, ?lookup_insert_eq; auto 10.
Qed.

Lemma disconnect_all_frame (dead : list nat) (sid : string) (w w' : World)
    (r : outcome unit) :
  disconnect_all dead sid w = (r, w') ->
  redis_service w' = redis_service w /\
  closed w' = closed w /\
  sent w' = sent w /\
  (session_seq (manager w') !! sid = session_seq (manager w) !! sid \/
   active_connections (manager w') !! sid = None) /\
  (session_state (manager w') !! sid = session_state (manager w) !! sid \/
   session_state (manager w') !! sid = None).
Proof.
  revert w. induction dead as [|ws rest IH]; intros w Hrun; simpl in Hrun.
  - unfold ret in Hrun. injection Hrun as <- <-. auto 10.
  - unfold bind in Hrun.
    destruct (disconnect ws sid w) as [r1 w1] eqn:Hd.
    pose proof (disconnect_frame _ _ _ _ _ Hd) as (Hr1 & Hc1 & Hs1 & Hq1 & Ht1).
    destruct r1 as [[]|e].
    + pose proof (IH _ Hrun) as (Hr2 & Hc2 & Hs2 & Hq2 & Ht2).
      repeat split; try congruence.
      * destruct Hq2 as [Hq2|Hq2]; [|by right].
        destruct Hq1 as [Hq1|Hq1]; [left; congruence|].
        right.
        clear IH Hr2 Hc2 Hs2 Hq2 Ht2.
        revert w' Hrun. induction rest as [|ws' rest IHrest]; intros w' Hrun;
          simpl in Hrun.
        -- unfold ret in Hrun. by injection Hrun as <- <-.
        -- unfold bind in Hrun. rewrite disconnect_no_session in Hrun by assumption.
           by apply IHrest.
      * destruct Ht2 as [Ht2|Ht2]; [|by right].
        destruct Ht1 as [Ht1|Ht1]; [left|right]; congruence.
    + injection Hrun as <- <-. auto 10.
Qed.

(** The update block of [broadcast] sends nothing and leaves the connections,
    the counter and the roster as they are. *)
Lemma record_update_frame (sid : string) (p : Payload) (now : Z) (w w' : World)
    (r : outcome unit) :
  record_update sid p now w = (r, w') ->
  closed w' = closed w /\
  sent w' = sent w /\
  active_connections (manager w') = active_connections (manager w) /\
  session_seq (manager w') = session_seq (manager w) /\
  session_users (manager w') = session_users (manager w) /\
  ws_to_user (manager w') = ws_to_user (manager w).
Proof.
  destruct p; simpl; try (unfold ret; by intros [= <- <-]).
  unfold bind at 1.
  destruct (apply_params sid params now w) as [r1 w1] eqn:Hloop.
  pose proof (apply_params_frame _ _ _ _ _ _ Hloop) as (_ & Hc & Hs & Ha & Hq & Hu & Hm).
  destruct r1 as [[]|e]; [|by intros [= <- <-]].
  monad_unfold. intros Hrun.
  repeat (case_match; simpl in *; simplify_eq); auto 10.
Qed.

(** The two closing loops send the frame to some connections and to nobody
    else; the counter and the state stay unless the clean-up tears the
    session down. *)
Lemma fan_out_frame (sid : string) (message : Message) (exclude : option nat)
    (w w' : World) (r : outcome unit) :
  fan_out sid message exclude w = (r, w') ->
  (exists targets, sent w' = sent w ++ map (fun ws => (ws, message)) targets) /\
  redis_service w' = redis_service w /\
  closed w' = closed w /\
  (session_seq (manager w') !! sid = session_seq (manager w) !! sid \/
   active_connections (manager w') !! sid = None) /\
  (session_state (manager w') !! sid = session_state (manager w) !! sid \/
   session_state (manager w') !! sid = None).
Proof.
  unfold fan_out, bind at 1, get_manager. unfold bind at 1, getitem.
  destruct (active_connections (manager w) !! sid) as [conns|]; simpl.
  - unfold bind at 1. rewrite send_all_spec. intros Hrun.
    apply disconnect_all_frame in Hrun. simpl in Hrun.
    destruct Hrun as (Hr & Hc & Hs & Hq & Ht).
    split; [eexists; exact Hs|]. auto.
  - unfold raise. intros [= <- <-].
    split; [exists []; simpl; by rewrite app_nil_r|]. auto 10.
Qed.

(** On a live session whose counter is [n], every frame that [broadcast]
    sends carries [n + 1], and the counter is [n + 1] afterwards unless the
    clean-up of dead sockets has torn the session down. *)
Lemma broadcast_tags_next_seq (w w' : World) (sid : string) (p : Payload)
    (exclude : option nat) (now : Z) (conns : gset nat) (n : Z) (r : outcome unit) :
  active_connections (manager w) !! sid = Some conns ->
  session_seq (manager w) !! sid = Some n ->
  broadcast sid p exclude now w = (r, w') ->
  (exists targets,
      sent w' = sent w ++
        map (fun ws => (ws, {| msg_payload := p; msg_seq := Some (n + 1);
                               msg_timestamp := Some now |})) targets) /\
  (session_seq (manager w') !! sid = Some (n + 1) \/
   active_connections (manager w') !! sid = None).
Proof.
  intros Hconns Hn. unfold broadcast, bind at 1, get_manager.
  rewrite Hconns. unfold bind at 1, getitem. rewrite Hn. simpl.
  unfold bind at 1, modify_manager. unfold bind at 1.
  match goal with
  | |- context [record_update sid p now ?w0] =>
      destruct (record_update sid p now w0) as [r1 w1] eqn:Hrec
  end.
  pose proof (record_update_frame _ _ _ _ _ _ Hrec) as (_ & Hs & _ & Hq & _).
  simpl in Hs, Hq.
  destruct r1 as [[]|e].
  - intros Hfan. apply fan_out_frame in Hfan.
    destruct Hfan as ([targets Ht] & _ & _ & Hq' & _).
    split.
    + exists targets. by rewrite Ht, Hs.
    + destruct Hq' as [Hq'|Hq']; [left|by right].
      by rewrite Hq', Hq, lookup_insert_eq.
  - intros [= <- <-]. split.
    + exists []. simpl. by rewrite app_nil_r.
    + left. by rewrite Hq, lookup_insert_eq.
Qed.

(** *** The update block, step by step *)

(** When the update block completes, the parameter loop completed, [beta] was
    recomputed on its result, and that state went to the store together with
    the history event. *)
Lemma record_update_run (sid uid : string) (params : list (string * float)) (now : Z)
    (w w' : World) :
  record_update sid (ParamBroadcast uid params) now w = (Ret tt, w') ->
  exists w1 st seq,
    apply_params sid params now w = (Ret tt, w1) /\
    session_state (manager w1) !! sid = Some st /\
    session_seq (manager w1) !! sid = Some seq /\
    w' = {| manager := set_session_state <[sid := compute_beta st]> (manager w1);
            redis_service :=
              add_to_history sid uid params seq now
                (save_session_state sid (compute_beta st) seq now (redis_service w1));
            closed := closed w1;
            sent := sent w1 |}.
Proof.
  simpl. unfold bind at 1.
  destruct (apply_params sid params now w) as [[[]|e] w1] eqn:Hloop; [|discriminate].
  monad_unfold. intros Hrun.
  destruct (session_state (manager w1) !! sid) as [st|] eqn:Hst; simpl in Hrun;
    [|discriminate].
  rewrite lookup_insert_eq in Hrun. simpl in Hrun.
  destruct (session_seq (manager w1) !! sid) as [seq|] eqn:Hseq; simpl in Hrun;
    [|discriminate].
  injection Hrun as <-.
  exists w1, st, seq. auto.
Qed.

(** The converse: these three facts make the update block complete. *)
Lemma record_update_complete (sid uid : string) (params : list (string * float))
    (now : Z) (w w1 : World) (st : SessionState) (seq : Z) :
  apply_params sid params now w = (Ret tt, w1) ->
  session_state (manager w1) !! sid = Some st ->
  session_seq (manager w1) !! sid = Some seq ->
  record_update sid (ParamBroadcast uid params) now w =
    (Ret tt,
     {| manager := set_session_state <[sid := compute_beta st]> (manager w1);
        redis_service :=
          add_to_history sid uid params seq now
            (save_session_state sid (compute_beta st) seq now (redis_service w1));
        closed := closed w1;
        sent := sent w1 |}).
Proof.
  intros Hloop Hst Hseq. simpl. unfold bind at 1. rewrite Hloop.
  monad_unfold. rewrite Hst. simpl. rewrite lookup_insert_eq. simpl.
  rewrite Hseq. reflexivity.
Qed.

(** *** The derived field *)




(** *** Creation and hydration *)


(** The first [connect] of a session id with a snapshot takes the counter
    from the snapshot, validation of the parameters or not, and the
    parameters and [beta] when the parameters are within their bounds. *)
Lemma connect_hydrates (w : World) (ws : nat) (sid : string) (snap : Snapshot) :
  active_connections (manager w) !! sid = None ->
  load_session_state sid (redis_service w) = Some snap ->
  session_seq (manager (snd (connect ws sid w))) !! sid = Some (snap_seq snap) /\
  match SessionState_init (snap_mu snap) (snap_omega snap) (snap_kappa snap)
          (snap_beta snap) with
  | Some st =>
      fst (connect ws sid w) = Ret tt /\
      session_state (manager (snd (connect ws sid w))) !! sid = Some st /\
      active_connections (manager (snd (connect ws sid w))) !! sid = Some {[ws]}
  | None =>
      fst (connect ws sid w) = Raise ValidationError /\
      session_state (manager (snd (connect ws sid w))) !! sid =
        session_state (manager w) !! sid /\
      active_connections (manager (snd (connect ws sid w))) !! sid = Some ∅
  end.
Proof.
  intros Hnone Hload. unfold connect. monad_unfold.
  rewrite Hnone. simpl. rewrite Hload. simpl.
  destruct (SessionState_init (snap_mu snap) (snap_omega snap) (snap_kappa snap)
              (snap_beta snap)) as [st|]; simpl.
  - rewrite !lookup_insert_eq. simpl. rewrite !lookup_insert_eq, union_empty_r_L. auto.
  - rewrite !lookup_insert_eq. auto.
Qed.


(** *** Keys without an attribute *)

(** With the session's state and update times in place and no key naming a
    non-field attribute, the parameter loop completes, and it stamps no key
    for which [hasattr] is false. *)
Lemma apply_params_completes (sid : string) (params : list (string * float)) (now : Z)
    (w : World) (st : SessionState) (times : gmap string Z) :
  session_state (manager w) !! sid = Some st ->
  last_update_time (manager w) !! sid = Some times ->
  Forall (fun kv => lookup_attr kv.1 <> attr_other) params ->
  exists w1 st1 times1,
    apply_params sid params now w = (Ret tt, w1) /\
    session_state (manager w1) !! sid = Some st1 /\
    last_update_time (manager w1) !! sid = Some times1 /\
    (forall k, hasattr k = false -> times1 !! k = times !! k).
Proof.
  revert w st times.
  induction params as [|[key value] rest IH]; intros w st times Hst Htimes Hattrs.
  - exists w, st, times. simpl. unfold ret. auto.
  - apply Forall_cons in Hattrs as [Hkey Hrest]. simpl in Hkey.
    simpl. monad_unfold. rewrite Hst. simpl.
    destruct (hasattr key) eqn:Hhas; simpl.
    + assert (exists st', setattr st key value = Ret st') as [st' Hset].
      { unfold hasattr in Hhas. unfold setattr.
        destruct (lookup_attr key); try discriminate; try congruence; eauto. }
      rewrite Hset. simpl. rewrite Htimes. simpl.
      match goal with
      | |- context [apply_params sid rest now ?w0] =>
          destruct (IH w0 st' (<[key := now]> times)) as (w1 & st1 & times1 & Hrun & H1 & H2 & H3)
      end; simpl; rewrite ?lookup_insert_eq; auto.
      exists w1, st1, times1. repeat split; auto.
      intros k Hk. rewrite H3 by assumption.
      apply lookup_insert_ne. intros ->. congruence.
    + destruct (IH w st times) as (w1 & st1 & times1 & Hrun & H1 & H2 & H3); auto.
      exists w1, st1, times1. auto.
Qed.

(** The parameter loop skips a key for which [hasattr] is false. *)
Lemma apply_params_skip (sid : string) (params : list (string * float)) (now : Z)
    (w : World) (key : string) :
  hasattr key = false ->
  is_Some (session_state (manager w) !! sid) ->
  apply_params sid (filter (fun kv => kv.1 <> key) params) now w =
    apply_params sid params now w.
Proof.
  intros Hkey. revert w.
  induction params as [|[k v] rest IH]; intros w [st Hst]; [reflexivity|].
  destruct (decide (k = key)) as [->|Hne].
  - rewrite filter_cons_False by (simpl; tauto).
    rewrite IH by eauto.
    simpl. monad_unfold. rewrite Hst. simpl. rewrite Hkey. reflexivity.
  - rewrite filter_cons_True by done.
    simpl. monad_unfold. rewrite Hst. simpl.
    destruct (hasattr k); simpl.
    + destruct (setattr st k v) as [st'|e]; simpl; [|reflexivity].
      destruct (last_update_time (manager w) !! sid) as [times|]; simpl; [|reflexivity].
      apply IH. simpl. rewrite lookup_insert_eq. eauto.
    + apply IH. eauto.
Qed.

(** A proposal without conflicts stays without conflicts when keys are
    taken out. *)
Lemma detect_conflicts_filter (m : ConnectionManager) (sid me : string)
    (params : list (string * float)) (now : Z) (P : string * float -> Prop)
    `{forall kv, Decision (P kv)} :
  detect_conflicts m sid params me now = Ret [] ->
  detect_conflicts m sid (filter P params) me now = Ret [].
Proof.
  induction params as [|[k v] rest IH]; [done|].
  simpl. destruct (detect_conflict m sid k v me now) as [c|e] eqn:Hc; [|discriminate].
  destruct (detect_conflicts m sid rest me now) as [cs|e]; [|discriminate].
  destruct c as [c|]; [discriminate|]. intros [= ->].
  rewrite filter_cons. case_decide; [|by apply IH].
  simpl. rewrite Hc, IH by reflexivity. reflexivity.
Qed.

(** The recipients of a broadcast none of whom is closed. *)
Lemma open_recipients (l : list nat) (ws : nat) (cl : gset nat) :
  (forall c, c ∈ l -> c <> ws -> c ∉ cl) ->
  filter (fun c => Some c <> Some ws /\ c ∈ cl) l = [] /\
  filter (fun c => Some c <> Some ws /\ c ∉ cl) l = filter (fun c => c <> ws) l.
Proof.
  induction l as [|c l IH]; intros Hopen; [done|].
  destruct IH as [IH1 IH2].
  { intros c' Hc'. apply Hopen. by right. }
  destruct (decide (c = ws)) as [->|Hne].
  - rewrite !filter_cons_False by (try intros [? _]; congruence). auto.
  - assert (c ∉ cl) by (apply Hopen; [by left|done]).
    rewrite filter_cons_False by (intros [_ ?]; contradiction).
    rewrite !filter_cons_True by (try split; congruence).
    split; [done|]. by rewrite IH2.
Qed.

(** *** The update times hold attribute names only *)

Lemma preserves_ret {A} (P : ConnectionManager -> Prop) (a : A) : preserves P (ret a).
Proof. intros w w' r [= <- <-]. auto. Qed.

Lemma preserves_raise {A} (P : ConnectionManager -> Prop) (e : exn) :
  preserves P (raise (A := A) e).
Proof. intros w w' r [= <- <-]. auto. Qed.

Lemma preserves_bind {A B} (P : ConnectionManager -> Prop) (c : M A) (k : A -> M B) :
  preserves P c -> (forall a, preserves P (k a)) -> preserves P (bind c k).
Proof.
  intros Hc Hk w w' r. unfold bind.
  destruct (c w) as [[a|e] w1] eqn:Hrun.
  - intros Hrun' HP. eapply Hk; [exact Hrun'|]. eapply Hc; eauto.
  - intros [= <- <-] HP. eapply Hc; eauto.
Qed.

Lemma preserves_get_manager (P : ConnectionManager -> Prop) : preserves P get_manager.
Proof. intros w w' r [= <- <-]. auto. Qed.

Lemma preserves_get_redis (P : ConnectionManager -> Prop) : preserves P get_redis.
Proof. intros w w' r [= <- <-]. auto. Qed.

Lemma preserves_modify_redis (P : ConnectionManager -> Prop)
    (f : RedisService -> RedisService) :
  preserves P (modify_redis f).
Proof. intros w w' r [= <- <-]. auto. Qed.

Lemma preserves_modify_manager (P : ConnectionManager -> Prop)
    (f : ConnectionManager -> ConnectionManager) :
  (forall m, P m -> P (f m)) -> preserves P (modify_manager f).
Proof. intros Hf w w' r [= <- <-]. simpl. auto. Qed.

Lemma preserves_getitem {K V} `{Countable K} (P : ConnectionManager -> Prop)
    (d : gmap K V) (k : K) :
  preserves P (getitem d k).
Proof.
  unfold getitem. destruct (d !! k); [apply preserves_ret|apply preserves_raise].
Qed.

Lemma preserves_lift_outcome {A} (P : ConnectionManager -> Prop) (o : outcome A) :
  preserves P (lift_outcome o).
Proof. intros w w' r [= <- <-]. auto. Qed.

Lemma preserves_send_json (P : ConnectionManager -> Prop) (ws : nat) (message : Message) :
  preserves P (send_json ws message).
Proof.
  intros w w' r. unfold send_json. case_decide; intros [= <- <-]; auto.
Qed.

Lemma preserves_send_conflicts (P : ConnectionManager -> Prop) (ws : nat)
    (cs : list Conflict) :
  preserves P (send_conflicts ws cs).
Proof.
  induction cs as [|c cs IH]; simpl; [apply preserves_ret|].
  apply preserves_bind; [apply preserves_send_json|]. auto.
Qed.

Lemma preserves_send_all (P : ConnectionManager -> Prop) (targets : list nat)
    (exclude : option nat) (message : Message) :
  preserves P (send_all targets exclude message).
Proof.
  intros w w' r. rewrite send_all_spec. intros [= <- <-]. auto.
Qed.

Lemma stamps_set_other (m : ConnectionManager) (f : ConnectionManager -> ConnectionManager) :
  last_update_time (f m) = last_update_time m ->
  stamps_have_attr m -> stamps_have_attr (f m).
Proof. unfold stamps_have_attr. intros ->. auto. Qed.

Lemma stamps_insert_empty (m : ConnectionManager) (sid : string) :
  stamps_have_attr m ->
  stamps_have_attr (set_last_update_time <[sid := ∅]> m).
Proof.
  intros Hm sid' times key t. simpl.
  destruct (decide (sid = sid')) as [->|Hne].
  - rewrite lookup_insert_eq. intros [= <-]. by rewrite lookup_empty.
  - rewrite lookup_insert_ne by done. apply Hm.
Qed.

Lemma stamps_delete (m : ConnectionManager) (sid : string) :
  stamps_have_attr m ->
  stamps_have_attr (set_last_update_time (delete sid) m).
Proof.
  intros Hm sid' times key t. simpl.
  destruct (decide (sid = sid')) as [->|Hne].
  - by rewrite lookup_delete_eq.
  - rewrite lookup_delete_ne by done. apply Hm.
Qed.

Lemma stamps_stamp (m : ConnectionManager) (sid key : string) (now : Z)
    (times : gmap string Z) :
  hasattr key = true ->
  last_update_time m !! sid = Some times ->
  stamps_have_attr m ->
  stamps_have_attr (set_last_update_time <[sid := <[key := now]> times]> m).
Proof.
  intros Hkey Htimes Hm sid' times' key' t. simpl.
  destruct (decide (sid = sid')) as [->|Hne].
  - rewrite lookup_insert_eq. intros [= <-].
    destruct (decide (key = key')) as [->|Hk]; [done|].
    rewrite lookup_insert_ne by done. intros Ht. eapply Hm; eauto.
  - rewrite lookup_insert_ne by done. apply Hm.
Qed.

Lemma connect_stamps (ws : nat) (sid : string) : preserves stamps_have_attr (connect ws sid).
Proof.
  unfold connect.
  repeat first
    [ apply preserves_bind; [|intros ?]
    | apply preserves_get_manager | apply preserves_get_redis | apply preserves_ret
    | apply preserves_raise | apply preserves_getitem
    | apply preserves_modify_manager; intros m Hm;
        first [ by apply stamps_insert_empty | by apply stamps_set_other ]
    | case_match ].
Qed.

Lemma disconnect_stamps (ws : nat) (sid : string) :
  preserves stamps_have_attr (disconnect ws sid).
Proof.
  unfold disconnect, delitem.
  repeat first
    [ apply preserves_bind; [|intros ?]
    | apply preserves_get_manager | apply preserves_ret
    | apply preserves_raise
    | apply preserves_modify_manager; intros m' Hm;
        first [ by apply stamps_delete | by apply stamps_set_other ]
    | case_match ].
Qed.

Lemma disconnect_all_stamps (dead : list nat) (sid : string) :
  preserves stamps_have_attr (disconnect_all dead sid).
Proof.
  induction dead as [|ws rest IH]; simpl; [apply preserves_ret|].
  apply preserves_bind; [apply disconnect_stamps|]. auto.
Qed.

Lemma apply_params_stamps (sid : string) (params : list (string * float)) (now : Z) :
  preserves stamps_have_attr (apply_params sid params now).
Proof.
  induction params as [|[key value] rest IH]; simpl; [apply preserves_ret|].
  intros w w' r. monad_unfold.
  destruct (session_state (manager w) !! sid) as [st|]; simpl;
    [|by intros [= <- <-]].
  destruct (hasattr key) eqn:Hkey; simpl.
  - destruct (setattr st key value) as [st'|e]; simpl; [|by intros [= <- <-]].
    destruct (last_update_time (manager w) !! sid) as [times|] eqn:Htimes; simpl;
      [|by intros [= <- <-]].
    intros Hrun Hm. eapply IH; [exact Hrun|]. simpl.
    apply (stamps_stamp (set_session_state <[sid := st']> (manager w))); auto.
  - intros Hrun Hm. eapply IH; eauto.
Qed.

Lemma record_update_stamps (sid : string) (p : Payload) (now : Z) :
  preserves stamps_have_attr (record_update sid p now).
Proof.
  destruct p; simpl; try apply preserves_ret.
  repeat first
    [ apply apply_params_stamps
    | apply preserves_bind; [|intros ?]
    | apply preserves_get_manager | apply preserves_getitem
    | apply preserves_modify_redis
    | apply preserves_modify_manager; intros m' Hm; by apply stamps_set_other ].
Qed.

Lemma fan_out_stamps (sid : string) (message : Message) (exclude : option nat) :
  preserves stamps_have_attr (fan_out sid message exclude).
Proof.
  unfold fan_out.
  repeat first
    [ apply preserves_bind; [|intros ?]
    | apply preserves_get_manager | apply preserves_getitem
    | apply preserves_send_all | apply disconnect_all_stamps ].
Qed.

Lemma broadcast_stamps (sid : string) (p : Payload) (exclude : option nat) (now : Z) :
  preserves stamps_have_attr (broadcast sid p exclude now).
Proof.
  unfold broadcast.
  repeat first
    [ apply record_update_stamps | apply fan_out_stamps
    | apply preserves_bind; [|intros ?]
    | apply preserves_get_manager | apply preserves_getitem | apply preserves_ret
    | apply preserves_modify_manager; intros m' Hm; by apply stamps_set_other
    | case_match ].
Qed.

Lemma add_user_stamps (ws : nat) (sid : string) (user : User) :
  preserves stamps_have_attr (add_user ws sid user).
Proof.
  unfold add_user.
  repeat first
    [ apply preserves_bind; [|intros ?]
    | apply preserves_get_manager | apply preserves_getitem | apply preserves_ret
    | apply preserves_modify_redis
    | apply preserves_modify_manager; intros m' Hm; by apply stamps_set_other
    | case_match ].
Qed.

Lemma handle_message_stamps (ws : nat) (sid : string) (uid : option string)
    (data : ClientMessage) (now : Z) :
  preserves stamps_have_attr (handle_message ws sid uid data now).
Proof.
  unfold handle_message.
  repeat first
    [ apply broadcast_stamps | apply add_user_stamps | apply preserves_send_conflicts
    | apply preserves_send_json | apply preserves_lift_outcome
    | apply preserves_bind; [|intros ?]
    | apply preserves_get_manager | apply preserves_ret
    | case_match ].
Qed.

Lemma finalize_stamps (ws : nat) (sid : string) (uid : option string) (now : Z) :
  preserves stamps_have_attr (finalize ws sid uid now).
Proof.
  unfold finalize.
  repeat first
    [ apply broadcast_stamps | apply disconnect_stamps
    | apply preserves_bind; [|intros ?]
    | apply preserves_ret
    | case_match ].
Qed.

Lemma step_stamps (now : Z) (e : Event) (s : System) :
  stamps_have_attr (manager (world s)) ->
  stamps_have_attr (manager (world (step now e s))).
Proof.
  intros Hs. destruct e as [ws sid|ws data|ws|ws]; simpl.
  - destruct (tasks s !! ws); [done|].
    destruct (connect ws sid (world s)) as [[[]|e] w] eqn:Hrun; simpl;
      eapply connect_stamps; eauto.
  - destruct (tasks s !! ws) as [t|]; [|done].
    destruct (handle_message ws (task_session t) (task_user t) data now (world s))
      as [[[]|e] w] eqn:Hrun; simpl.
    + eapply handle_message_stamps; eauto.
    + eapply finalize_stamps; [apply surjective_pairing|].
      eapply handle_message_stamps; eauto.
  - destruct (tasks s !! ws) as [t|]; [|done]. simpl.
    eapply finalize_stamps; [apply surjective_pairing|]. done.
  - done.
Qed.

(** In every state that the server reaches, the update times of every
    session are keyed by attribute names. *)
Lemma run_stamps (events : list (Z * Event)) (s : System) :
  stamps_have_attr (manager (world s)) ->
  stamps_have_attr (manager (world (run events s))).
Proof.
  revert s. induction events as [|[now e] rest IH]; intros s Hs; [done|].
  simpl. apply IH. by apply step_stamps.
Qed.

Lemma init_stamps (r : RedisService) :
  stamps_have_attr (manager (world (system_init r))).
Proof. intros sid times key t. simpl. by rewrite lookup_empty. Qed.

(** The conflict check of a key without attribute finds nothing. *)
Lemma unknown_key_never_conflicts (m : ConnectionManager) (sid key me : string)
    (value : float) (now : Z) :
  stamps_have_attr m ->
  hasattr key = false ->
  detect_conflict m sid key value me now = Ret None.
Proof.
  intros Hm Hkey. unfold detect_conflict.
  destruct (last_update_time m !! sid) as [times|] eqn:Htimes; [|done].
  destruct (times !! key) as [t|] eqn:Ht; [|done].
  pose proof (Hm _ _ _ _ Htimes Ht). congruence.
Qed.

(** *** An accepted proposal *)

(** A [param:broadcast] on a live session whose parameter loop completes and
    whose recipients are all open: the counter moves by one, the state takes
    the result of the loop with [beta] recomputed, the store gets the snapshot
    and the event, every connection but the excluded one gets the frame. *)
Lemma broadcast_param_accepted (w w1 : World) (ws : nat) (sid me : string)
    (params : list (string * float)) (now : Z) (conns : gset nat) (n : Z)
    (st1 : SessionState) :
  active_connections (manager w) !! sid = Some conns ->
  session_seq (manager w) !! sid = Some n ->
  apply_params sid params now
    (snd (modify_manager (set_session_seq <[sid := n + 1]>) w)) = (Ret tt, w1) ->
  session_state (manager w1) !! sid = Some st1 ->
  (forall c, c ∈ conns -> c <> ws -> c ∉ closed w) ->
  broadcast sid (ParamBroadcast me params) (Some ws) now w =
    (Ret tt,
     {| manager := set_session_state <[sid := compute_beta st1]> (manager w1);
        redis_service :=
          add_to_history sid me params (n + 1) now
            (save_session_state sid (compute_beta st1) (n + 1) now (redis_service w));
        closed := closed w;
        sent := sent w ++
                map (fun c => (c, {| msg_payload := ParamBroadcast me params;
                                     msg_seq := Some (n + 1);
                                     msg_timestamp := Some now |}))
                    (filter (fun c => c <> ws) (elements conns)) |}).
Proof.
  intros Hconns Hn Hloop Hst1 Hopen.
  pose proof (apply_params_frame _ _ _ _ _ _ Hloop) as (Hr & Hc & Hs & Ha & Hq & _).
  simpl in Hr, Hc, Hs, Ha, Hq.
  assert (Hseq1 : session_seq (manager w1) !! sid = Some (n + 1))
    by (rewrite Hq; apply lookup_insert_eq).
  remember (ParamBroadcast me params) as p eqn:Hp.
  unfold broadcast, bind at 1, get_manager. rewrite Hconns.
  unfold bind at 1, getitem. rewrite Hn. simpl.
  unfold bind at 1. unfold bind at 1. subst p.
  unfold modify_manager in Hloop. simpl in Hloop.
  unfold modify_manager at 1.
  rewrite (record_update_complete _ _ _ _ _ _ _ _ Hloop Hst1 Hseq1).
  unfold fan_out, bind at 1, get_manager. simpl.
  unfold bind at 1, getitem. rewrite Ha, Hconns. simpl.
  unfold bind at 1. rewrite send_all_spec. simpl.
  destruct (open_recipients (elements conns) ws (closed w1)) as [Hdead Hlive].
  { intros c Hc'. rewrite Hc. apply Hopen. by apply elem_of_elements. }
  rewrite Hdead, Hlive. simpl. unfold ret.
  rewrite Hr, Hc, Hs. reflexivity.
Qed.

(** C9 (as amended).  In a state in which the update times hold attribute
    names only (every state that the server reaches), the conflict check finds
    nothing for a key for which [hasattr] is false.  A proposal of an
    authenticated participant on a live session, none of whose keys conflicts
    or names a non-field attribute of the state object and whose recipients
    are all open, is accepted whatever keys without attribute it holds: the
    counter moves by one, the other connections get the [param:broadcast]
    frame with the whole payload, the store gets the snapshot and the event
    with the whole payload.  A key for which [hasattr] is false keeps its
    entry of the update times, and the manager ends as it does for the payload
    without that key. *)
Theorem unknown_key_is_broadcast_not_applied (w : World) (ws : nat) (sid me : string)
    (params : list (string * float)) (now : Z) (key : string)
    (conns : gset nat) (n : Z) (st : SessionState) (times : gmap string Z) :
  me <> "" ->
  hasattr key = false ->
  stamps_have_attr (manager w) ->
  Forall (fun kv => lookup_attr kv.1 <> attr_other) params ->
  detect_conflicts (manager w) sid params me now = Ret [] ->
  active_connections (manager w) !! sid = Some conns ->
  session_seq (manager w) !! sid = Some n ->
  session_state (manager w) !! sid = Some st ->
  last_update_time (manager w) !! sid = Some times ->
  (forall c, c ∈ conns -> c <> ws -> c ∉ closed w) ->
  (forall value, detect_conflict (manager w) sid key value me now = Ret None) /\
  exists w' st' times',
    handle_message ws sid (Some me) (ParamUpdate params) now w = (Ret tt, w') /\
    session_seq (manager w') !! sid = Some (n + 1) /\
    sent w' = sent w ++
      map (fun c => (c, {| msg_payload := ParamBroadcast me params;
                           msg_seq := Some (n + 1);
                           msg_timestamp := Some now |}))
          (filter (fun c => c <> ws) (elements conns)) /\
    session_state (manager w') !! sid = Some st' /\
    redis_service w' =
      add_to_history sid me params (n + 1) now
        (save_session_state sid st' (n + 1) now (redis_service w)) /\
    last_update_time (manager w') !! sid = Some times' /\
    times' !! key = times !! key /\
    manager w' =
      manager (snd (handle_message ws sid (Some me)
                      (ParamUpdate (filter (fun kv => kv.1 <> key) params)) now w)).
Proof.
  intros Hme Hkey Hstamps Hattrs Hnone Hconns Hn Hst Htimes Hopen.
  split; [intros value; by apply unknown_key_never_conflicts|].
  destruct (apply_params_completes sid params now
              (snd (modify_manager (set_session_seq <[sid := n + 1]>) w)) st times)
    as (w1 & st1 & times1 & Hloop & Hst1 & Htimes1 & Hstamp); auto.
  pose proof (apply_params_frame _ _ _ _ _ _ Hloop) as (_ & _ & _ & _ & Hq & _).
  simpl in Hq.
  assert (Hskip : apply_params sid (filter (fun kv => kv.1 <> key) params) now
                    (snd (modify_manager (set_session_seq <[sid := n + 1]>) w)) =
                  (Ret tt, w1)).
  { rewrite apply_params_skip; [exact Hloop|exact Hkey|]. simpl. eauto. }
  assert (Hhandle : forall ps,
    detect_conflicts (manager w) sid ps me now = Ret [] ->
    handle_message ws sid (Some me) (ParamUpdate ps) now w =
      broadcast sid (ParamBroadcast me ps) (Some ws) now w).
  { intros ps Hps. unfold handle_message, truthy.
    apply String.eqb_neq in Hme. rewrite Hme. simpl.
    unfold bind, get_manager, lift_outcome. simpl. rewrite Hps. reflexivity. }
  rewrite !Hhandle by (try apply detect_conflicts_filter; assumption).
  rewrite (broadcast_param_accepted w w1 ws sid me _ now conns n st1
             Hconns Hn Hskip Hst1 Hopen).
  rewrite (broadcast_param_accepted w w1 ws sid me params now conns n st1
             Hconns Hn Hloop Hst1 Hopen).
  eexists _, (compute_beta st1), times1.
  split; [reflexivity|]. simpl.
  rewrite lookup_insert_eq, Hq, lookup_insert_eq.
  repeat split; auto.
Qed.

(** A proposal of [mu] alone, with no update of [mu] on record, is applied
    whatever the value: no bound is consulted on this path. *)
Lemma mu_proposal_is_applied_unchecked (w : World) (ws : nat) (sid me : string)
    (value : float) (now : Z) (conns : gset nat) (n : Z) (st : SessionState)
    (times : gmap string Z) :
  me <> "" ->
  active_connections (manager w) !! sid = Some conns ->
  session_seq (manager w) !! sid = Some n ->
  session_state (manager w) !! sid = Some st ->
  last_update_time (manager w) !! sid = Some times ->
  times !! "mu" = None ->
  (forall c, c ∈ conns -> c <> ws -> c ∉ closed w) ->
  exists w',
    handle_message ws sid (Some me) (ParamUpdate [("mu", value)]) now w = (Ret tt, w') /\
    session_seq (manager w') !! sid = Some (n + 1) /\
    session_state (manager w') !! sid =
      Some (compute_beta {| mu := value; omega := omega st; kappa := kappa st;
                            beta := beta st |}).
Proof.
  intros Hme Hconns Hn Hst Htimes Hfree Hopen.
  unfold handle_message, truthy.
  apply String.eqb_neq in Hme. rewrite Hme. simpl.
  unfold bind at 1, get_manager. unfold bind at 1, lift_outcome.
  unfold detect_conflict. rewrite Htimes, Hfree.
  eassert (Hloop : apply_params sid [("mu", value)] now
                     (snd (modify_manager (set_session_seq <[sid := n + 1]>) w)) =
                   (Ret tt, _)).
  { simpl. monad_unfold. rewrite Hst. simpl. rewrite Htimes. simpl. reflexivity. }
  match type of Hloop with
  | _ = (_, ?w1) =>
      assert (Hst1 : session_state (manager w1) !! sid =
                       Some {| mu := value; omega := omega st; kappa := kappa st;
                               beta := beta st |})
        by (simpl; apply lookup_insert_eq)
  end.
  rewrite (broadcast_param_accepted w _ ws sid me _ now conns n _
             Hconns Hn Hloop Hst1 Hopen).
  eexists. split; [reflexivity|]. simpl.
  rewrite !lookup_insert_eq. split; reflexivity.
Qed.

(** *** Conflicts *)

(** A conflict is raised only inside the window, for a stored value that is
    more than 0.001 away from the proposed one; the descriptor names the first
    entry of the roster that is not the proposer. *)
Lemma detect_conflict_sound (m : ConnectionManager) (sid param me : string)
    (new_value : float) (now : Z) (c : Conflict) :
  detect_conflict m sid param new_value me now = Ret (Some c) ->
  exists times last_update st users,
    last_update_time m !! sid = Some times /\
    times !! param = Some last_update /\
    now - last_update < conflict_window /\
    session_state m !! sid = Some st /\
    getattr st param = AFloat (cf_theirValue c) /\
    PrimFloat.ltb 0.001 (PrimFloat.abs (cf_theirValue c - new_value)) = true /\
    session_users m !! sid = Some users /\
    cf_theirUserId c =
      match first_other_user me users with Some u => id u | None => "unknown" end.
Proof.
  unfold detect_conflict. intros Hrun.
  destruct (last_update_time m !! sid) as [times|]; [|discriminate].
  destruct (times !! param) as [last_update|] eqn:Hlast; [|discriminate].
  destruct (Z.ltb_spec (now - last_update) conflict_window) as [Hwin|]; [|discriminate].
  destruct (session_state m !! sid) as [st|]; [|discriminate].
  destruct (getattr st param) as [v| |] eqn:Hget; try discriminate.
  destruct (PrimFloat.ltb 0.001 (PrimFloat.abs (v - new_value))) eqn:Hdiff;
    [|discriminate].
  destruct (session_users m !! sid) as [users|]; [|discriminate].
  injection Hrun as <-. simpl.
  exists times, last_update, st, users. repeat split; auto.
Qed.

(** *** The derived field and the counter across the life of a session *)



End Hub.

(** ** The scenarios *)

Lemma joined_is_open : closed (world joined) = ∅.
Proof. vm_compute. reflexivity. Qed.

(** C1.  The proposal [{mu: 0.80}] violates the declared bound of [mu], and
    [websocket_endpoint] applies it all the same: the counter goes from 2 to
    3, the session's [mu] becomes 0.80 and B is sent the broadcast. *)
Theorem out_of_bounds_proposal_is_applied :
  mu_ok 0.80 = false /\
  session_seq (manager (world joined)) !! "s1" = Some 2 /\
  session_seq (manager (world out_of_bounds)) !! "s1" = Some 3 /\
  session_state (manager (world joined)) !! "s1" = Some SessionState_default /\
  session_state (manager (world out_of_bounds)) !! "s1" =
    Some {| mu := 0.80; omega := 0.847; kappa := 0.0207;
            beta := Some (1 - 0.80 - 0.0207 * 10.8)%float |} /\
  inbox ws_B (world out_of_bounds) =
    inbox ws_B (world joined) ++
      [ {| msg_payload := ParamBroadcast "A" [("mu", 0.80%float)];
           msg_seq := Some 3;
           msg_timestamp := Some 5000 |} ].
Proof. repeat split; vm_compute; reflexivity. Qed.

(** C2, as stated: the frame that B receives for A's proposal carries 3, not
    1. *)
Lemma basic_broadcast_seq_is_not_1 :
  exists m,
    inbox ws_B (world basic_broadcast) = inbox ws_B (world joined) ++ [m] /\
    msg_payload m = ParamBroadcast "A" [("mu", 0.60%float)] /\
    msg_seq m = Some 3 /\
    msg_seq m <> Some 1.
Proof.
  eexists. split; [vm_compute; reflexivity|].
  split; [reflexivity|]. split; [reflexivity|]. discriminate.
Qed.

(** C2 (as amended).  In a fresh session that A and B join, authenticating in
    that order, the two [session:joined] broadcasts carry 1 and 2, and for A's
    proposal [{mu: 0.60}] B receives one [param:broadcast] frame with [seq] 3,
    [userId] A and the proposed parameters, while A receives nothing; the same
    holds when B connects only after A has authenticated.  On every
    live session, each call of [broadcast] tags the frames it sends with the
    counter plus one and leaves the counter there, unless the clean-up of dead
    sockets tears the session down. *)
Theorem basic_broadcast_carries_next_seq :
  map msg_seq (inbox ws_B (world joined)) = [Some 1; None] /\
  map msg_seq (inbox ws_A (world joined)) = [None; Some 2] /\
  inbox ws_B (world basic_broadcast) =
    inbox ws_B (world joined) ++
      [ {| msg_payload := ParamBroadcast "A" [("mu", 0.60%float)];
           msg_seq := Some 3;
           msg_timestamp := Some 5000 |} ] /\
  inbox ws_A (world basic_broadcast) = inbox ws_A (world joined) /\
  inbox ws_B (world basic_broadcast_in_turn) =
    inbox ws_B (world joined_in_turn) ++
      [ {| msg_payload := ParamBroadcast "A" [("mu", 0.60%float)];
           msg_seq := Some 3;
           msg_timestamp := Some 5000 |} ] /\
  inbox ws_A (world basic_broadcast_in_turn) = inbox ws_A (world joined_in_turn) /\
  (forall (E : Env) (w w' : World) (sid : string) (p : Payload) (exclude : option nat)
          (now : Z) (conns : gset nat) (n : Z) (r : outcome unit),
      active_connections (manager w) !! sid = Some conns ->
      session_seq (manager w) !! sid = Some n ->
      broadcast sid p exclude now w = (r, w') ->
      (exists targets,
          sent w' = sent w ++
            map (fun ws => (ws, {| msg_payload := p; msg_seq := Some (n + 1);
                                   msg_timestamp := Some now |})) targets) /\
      (session_seq (manager w') !! sid = Some (n + 1) \/
       active_connections (manager w') !! sid = None)).
Proof.
  repeat split; try (vm_compute; reflexivity).
  - eapply broadcast_tags_next_seq; eassumption.
  - eapply broadcast_tags_next_seq; eassumption.
Qed.

(** A [session:left] broadcast on the session of the scenario. *)
Lemma basic_broadcast_carries_next_seq_witness :
  (exists targets,
      sent (snd (broadcast (E := dev_env) "s1" (SessionLeft "B") None 5000 (world joined))) =
        sent (world joined) ++
          map (fun ws => (ws, {| msg_payload := SessionLeft "B"; msg_seq := Some (2 + 1);
                                 msg_timestamp := Some 5000 |})) targets) /\
  (session_seq
     (manager (snd (broadcast (E := dev_env) "s1" (SessionLeft "B") None 5000
                      (world joined)))) !! "s1" = Some (2 + 1) \/
   active_connections
     (manager (snd (broadcast (E := dev_env) "s1" (SessionLeft "B") None 5000
                      (world joined)))) !! "s1" = None).
Proof.
  apply (proj2 (proj2 (proj2 (proj2 (proj2 (proj2 basic_broadcast_carries_next_seq)))))
           dev_env (world joined) _ "s1" (SessionLeft "B") None 5000
           ({[ws_A; ws_B]}) 2
           (fst (broadcast (E := dev_env) "s1" (SessionLeft "B") None 5000 (world joined)))).
  - vm_compute. reflexivity.
  - vm_compute. reflexivity.
  - apply surjective_pairing.
Defined.

(** C3.  A updates [mu]; 100 ms later A proposes another [mu].  The last
    accepted update of [mu] is A's own, B has proposed nothing, and still A is
    sent a conflict, which names B as the other party; alone in a session, A
    is sent the conflict with the user id [unknown]. *)
Theorem own_update_conflicts_with_next_proposal :
  inbox ws_B (world mu_updated) =
    inbox ws_B (world joined) ++
      [ {| msg_payload := ParamBroadcast "A" [("mu", 0.60%float)];
           msg_seq := Some 3;
           msg_timestamp := Some 1000000 |} ] /\
  inbox ws_A (world own_update_then_proposal) =
    inbox ws_A (world mu_updated) ++
      [ direct (ConflictDetected
          {| cf_param := "mu"; cf_yourValue := 0.65; cf_theirValue := 0.60;
             cf_theirUserId := "B"; cf_theirUserName := "Bob" |}) ] /\
  inbox ws_B (world own_update_then_proposal) = inbox ws_B (world mu_updated) /\
  manager (world own_update_then_proposal) = manager (world mu_updated) /\
  last (inbox ws_A (world own_update_alone)) =
    Some (direct (ConflictDetected
      {| cf_param := "mu"; cf_yourValue := 0.65; cf_theirValue := 0.60;
         cf_theirUserId := "unknown"; cf_theirUserName := "Another user" |})).
Proof. repeat split; vm_compute; reflexivity. Qed.

(** The rejection at A's second proposal of the scenario. *)
Lemma conflicting_proposal_is_rejected_witness :
  handle_message (E := dev_env) ws_A "s1" (Some "A") (ParamUpdate [("mu", 0.65%float)])
      1100000 (world mu_updated) =
    (Ret tt,
     {| manager := manager (world mu_updated);
        redis_service := redis_service (world mu_updated);
        closed := closed (world mu_updated);
        sent := sent (world mu_updated) ++
                map (fun c => (ws_A, direct (ConflictDetected c)))
                    [ {| cf_param := "mu"; cf_yourValue := 0.65; cf_theirValue := 0.60;
                         cf_theirUserId := "B"; cf_theirUserName := "Bob" |} ] |}).
Proof.
  apply (conflicting_proposal_is_rejected (E := dev_env) (world mu_updated) ws_A "s1" "A"
           [("mu", 0.65%float)] 1100000
           [ {| cf_param := "mu"; cf_yourValue := 0.65; cf_theirValue := 0.60;
                cf_theirUserId := "B"; cf_theirUserName := "Bob" |} ]).
  - discriminate.
  - vm_compute. reflexivity.
  - discriminate.
  - assert (Hc : closed (world mu_updated) = ∅) by (vm_compute; reflexivity).
    rewrite Hc. apply not_elem_of_empty.
Defined.






(** C9, as stated: a payload with the unknown key [foo] next to a conflicting
    [omega] is not accepted (the counter stays at 3, B gets no frame, the store
    keeps the history it had); and a payload whose one key is [compute_beta],
    no field of [SessionState] but an attribute, is not broadcast either: B gets
    no [param:broadcast], the store gets no event, and A's task has ended. *)
Lemma unknown_key_payload_not_accepted :
  (hasattr (E := dev_env) "foo" = false /\
   session_seq (manager (world omega_updated)) !! "s1" = Some 3 /\
   session_seq (manager (world unknown_key_with_conflict)) !! "s1" = Some 3 /\
   inbox ws_B (world unknown_key_with_conflict) = inbox ws_B (world omega_updated) /\
   redis_service (world unknown_key_with_conflict) = redis_service (world omega_updated)) /\
  (lookup_attr (E := dev_env) "compute_beta" = attr_other /\
   inbox ws_B (world method_key) =
     inbox ws_B (world joined) ++
       [ {| msg_payload := SessionLeft "A"; msg_seq := Some 4;
            msg_timestamp := Some 1000000 |} ] /\
   kv_history (redis_service (world method_key)) !! "s1" = None /\
   tasks method_key !! ws_A = None).
Proof. repeat split; vm_compute; reflexivity. Qed.

(** A proposes [omega] and the unknown key [foo] right after the joins. *)
Lemma unknown_key_is_broadcast_not_applied_witness :
  (forall value,
      detect_conflict (E := dev_env) (manager (world joined)) "s1" "foo" value "A" 5000 =
        Ret None) /\
  exists w' st' times',
    handle_message (E := dev_env) ws_A "s1" (Some "A")
      (ParamUpdate [("omega", 0.90%float); ("foo", 1%float)]) 5000 (world joined) =
      (Ret tt, w') /\
    session_seq (manager w') !! "s1" = Some (2 + 1) /\
    sent w' = sent (world joined) ++
      map (fun c => (c, {| msg_payload :=
                             ParamBroadcast "A" [("omega", 0.90%float); ("foo", 1%float)];
                           msg_seq := Some (2 + 1);
                           msg_timestamp := Some 5000 |}))
          (filter (fun c => c <> ws_A) (elements ({[ws_A; ws_B]} : gset nat))) /\
    session_state (manager w') !! "s1" = Some st' /\
    redis_service w' =
      add_to_history "s1" "A" [("omega", 0.90%float); ("foo", 1%float)] (2 + 1) 5000
        (save_session_state "s1" st' (2 + 1) 5000 (redis_service (world joined))) /\
    last_update_time (manager w') !! "s1" = Some times' /\
    times' !! "foo" = (∅ : gmap string Z) !! "foo" /\
    manager w' =
      manager (snd (handle_message (E := dev_env) ws_A "s1" (Some "A")
                      (ParamUpdate (filter (fun kv => kv.1 <> "foo")
                                      [("omega", 0.90%float); ("foo", 1%float)]))
                      5000 (world joined))).
Proof.
  apply (unknown_key_is_broadcast_not_applied (E := dev_env) (world joined) ws_A "s1" "A"
           [("omega", 0.90%float); ("foo", 1%float)] 5000 "foo"
           {[ws_A; ws_B]} 2 SessionState_default ∅).
  - discriminate.
  - reflexivity.
  - apply (run_stamps (E := dev_env)), init_stamps.
  - repeat constructor; discriminate.
  - vm_compute. reflexivity.
  - vm_compute. reflexivity.
  - vm_compute. reflexivity.
  - vm_compute. reflexivity.
  - vm_compute. reflexivity.
  - intros c _ _. rewrite joined_is_open. apply not_elem_of_empty.
Defined.


(** * The rest of the code *)

Ltac monad_unfold :=
  repeat (progress unfold delitem, bind, ret, raise, get_manager, get_redis,
            modify_manager, modify_redis, getitem, lift_outcome in *);
  simpl in *.

(** ** services/auth.py and api/auth.py *)

(** [jwt.decode] accepts exactly the tokens signed with the key and the
    algorithm of the call whose [iat] has come and whose [exp] has not. *)
Lemma jwt_decode_accepts (now : Z) (t : Token) (key alg : string) (c : Claims) :
  jwt_decode now t key alg = inl c <->
  tok_alg t = alg /\ tok_key t = key /\
  c_iat (tok_claims t) * usec_per_sec <= now < c_exp (tok_claims t) * usec_per_sec /\
  c = tok_claims t.
Proof.
  unfold jwt_decode.
  destruct (String.eqb_spec (tok_alg t) alg) as [Ha|Ha]; simpl;
    [|split; [discriminate|tauto]].
  destruct (String.eqb_spec (tok_key t) key) as [Hk|Hk]; simpl;
    [|split; [discriminate|tauto]].
  destruct (Z.leb_spec (c_exp (tok_claims t) * usec_per_sec) now) as [He|He];
    [split; [discriminate|lia]|].
  destruct (Z.ltb_spec now (c_iat (tok_claims t) * usec_per_sec)) as [Hi|Hi];
    [split; [discriminate|lia]|].
  split.
  - intros [= <-]. auto.
  - intros (_ & _ & _ & ->). reflexivity.
Qed.

Lemma verify_token_accepts (svc : AuthService) (now : Z) (t : Token) (td : TokenData) :
  verify_token svc now t = Some td <->
  tok_alg t = algorithm svc /\ tok_key t = secret_key svc /\
  c_iat (tok_claims t) * usec_per_sec <= now < c_exp (tok_claims t) * usec_per_sec /\
  td = {| user_id := c_user_id (tok_claims t); username := c_username (tok_claims t);
          email := c_email (tok_claims t);
          is_anonymous := c_is_anonymous (tok_claims t);
          exp := c_exp (tok_claims t) |}.
Proof.
  unfold verify_token.
  destruct (jwt_decode now t (secret_key svc) (algorithm svc)) as [c|e] eqn:Hd.
  - apply jwt_decode_accepts in Hd as (Ha & Hk & Ht & ->).
    split; [intros [= <-]; auto|]. intros (_ & _ & _ & ->). reflexivity.
  - split; [destruct e; discriminate|].
    intros (Ha & Hk & Ht & _).
    assert (Hok : jwt_decode now t (secret_key svc) (algorithm svc) = inl (tok_claims t))
      by (apply jwt_decode_accepts; auto).
    congruence.
Qed.

(** X1.  A token that is signed with another key or for another algorithm,
    that has expired, or whose issue time is still ahead, is rejected by
    [verify_token], and nothing else is; what [verify_token] rejects,
    [refresh_token] rejects, the [refresh] endpoint answers with 401, and so
    does the [verify] endpoint. *)
Theorem verify_token_rejects (svc : AuthService) (now : Z) (t : Token) :
  (verify_token svc now t = None <->
   tok_alg t <> algorithm svc \/ tok_key t <> secret_key svc \/
   c_exp (tok_claims t) * usec_per_sec <= now \/
   now < c_iat (tok_claims t) * usec_per_sec) /\
  (verify_token svc now t = None ->
   refresh_token svc now t = None /\
   refresh svc now t = HTTPException 401 "Invalid or expired token" /\
   verify svc now t = HTTPException 401 "Invalid or expired token").
Proof.
  split.
  - destruct (verify_token svc now t) as [td|] eqn:Hv.
    + apply verify_token_accepts in Hv as (Ha & Hk & Ht & _).
      split; [discriminate|]. intros [?|[?|[?|?]]]; first [contradiction|lia].
    + split; [intros _|reflexivity].
      destruct (String.eqb_spec (tok_alg t) (algorithm svc)) as [Ha|Ha]; [|auto].
      destruct (String.eqb_spec (tok_key t) (secret_key svc)) as [Hk|Hk]; [|auto].
      destruct (Z.leb_spec (c_exp (tok_claims t) * usec_per_sec) now) as [He|He]; [auto|].
      destruct (Z.ltb_spec now (c_iat (tok_claims t) * usec_per_sec)) as [Hi|Hi]; [auto|].
      exfalso.
      assert (Hok : is_Some (verify_token svc now t)).
      { eexists. apply verify_token_accepts. repeat split; auto; lia. }
      rewrite Hv in Hok. by destruct Hok.
  - intros Hv. unfold refresh, verify, refresh_token. rewrite Hv. auto.
Qed.

Lemma verify_token_rejects_witness :
  verify_token dev_service 86400000000 token_A = None.
Proof.
  apply (proj1 (verify_token_rejects dev_service 86400000000 token_A)).
  right. right. left. vm_compute. discriminate.
Defined.

(** The refreshed token of a token that verifies. *)
Lemma refresh_token_run (svc : AuthService) (now : Z) (t : Token) (td : TokenData) :
  verify_token svc now t = Some td ->
  refresh_token svc now t =
    Some (create_token svc now (user_id td) (username td) (email td) (is_anonymous td)).
Proof. intros Hv. unfold refresh_token. by rewrite Hv. Qed.

Lemma create_token_verifies (svc : AuthService) (issued now : Z)
    (uid uname : string) (mail : option string) (anonymous : bool) :
  issued <= now ->
  now < c_exp (tok_claims (create_token svc issued uid uname mail anonymous)) * usec_per_sec ->
  verify_token svc now (create_token svc issued uid uname mail anonymous) =
    Some {| user_id := uid; username := uname; email := mail;
            is_anonymous := anonymous;
            exp := epoch_sec (issued + expiration_hours svc * 3600 * usec_per_sec) |}.
Proof.
  intros Hle Hexp. apply verify_token_accepts.
  pose proof (epoch_sec_le issued). simpl in *. repeat split; auto; lia.
Qed.

(** With a lifetime of at least an hour a token is valid when it is issued. *)
Lemma create_token_fresh (svc : AuthService) (now : Z)
    (uid uname : string) (mail : option string) (anonymous : bool) :
  0 < expiration_hours svc ->
  now < c_exp (tok_claims (create_token svc now uid uname mail anonymous)) * usec_per_sec.
Proof.
  intros Hh. simpl. unfold epoch_sec, usec_per_sec.
  pose proof (Z.mul_succ_div_gt (now + expiration_hours svc * 3600 * 1000000) 1000000
                ltac:(lia)).
  nia.
Qed.

(** X2.  Refreshing a token that verifies gives a token for the same identity:
    it verifies to the user id, name, e-mail and anonymous flag of the old one
    at every time from the refresh until its own expiry, and with a lifetime of
    at least one hour it is valid at the moment of the refresh. *)
Theorem refresh_keeps_identity (svc : AuthService) (now : Z) (t : Token) (td : TokenData) :
  verify_token svc now t = Some td ->
  exists t',
    refresh_token svc now t = Some t' /\
    (forall now', now <= now' ->
       now' < c_exp (tok_claims t') * usec_per_sec ->
       verify_token svc now' t' =
         Some {| user_id := user_id td; username := username td; email := email td;
                 is_anonymous := is_anonymous td;
                 exp := c_exp (tok_claims t') |}) /\
    (0 < expiration_hours svc -> now < c_exp (tok_claims t') * usec_per_sec).
Proof.
  intros Hv. eexists. split; [by apply refresh_token_run|]. split.
  - intros now' Hle Hexp. by apply create_token_verifies.
  - apply create_token_fresh.
Qed.

Lemma refresh_keeps_identity_witness :
  exists t',
    refresh_token dev_service 3000 token_A = Some t' /\
    (forall now', 3000 <= now' ->
       now' < c_exp (tok_claims t') * usec_per_sec ->
       verify_token dev_service now' t' =
         Some {| user_id := "A"; username := "Alice"; email := None;
                 is_anonymous := false;
                 exp := c_exp (tok_claims t') |}) /\
    (0 < expiration_hours dev_service -> 3000 < c_exp (tok_claims t') * usec_per_sec).
Proof.
  apply (refresh_keeps_identity dev_service 3000 token_A
           {| user_id := "A"; username := "Alice"; email := None;
              is_anonymous := false; exp := 86400 |}).
  vm_compute. reflexivity.
Defined.

(** X3.  Refreshing never shortens a token of the same service: the token
    that [refresh_token] makes of a token issued earlier expires no earlier
    than the old one, and is issued no earlier. *)
Theorem refresh_extends_expiry (svc : AuthService) (issued now : Z)
    (uid uname : string) (mail : option string) (anonymous : bool) :
  issued <= now ->
  now < c_exp (tok_claims (create_token svc issued uid uname mail anonymous)) * usec_per_sec ->
  exists t',
    refresh_token svc now (create_token svc issued uid uname mail anonymous) = Some t' /\
    c_exp (tok_claims (create_token svc issued uid uname mail anonymous)) <=
      c_exp (tok_claims t') /\
    c_iat (tok_claims (create_token svc issued uid uname mail anonymous)) <=
      c_iat (tok_claims t').
Proof.
  intros Hle Hexp. eexists. split.
  - apply refresh_token_run. by apply create_token_verifies.
  - simpl. unfold epoch_sec, usec_per_sec.
    split; apply Z.div_le_mono; lia.
Qed.

Lemma refresh_extends_expiry_witness :
  exists t',
    refresh_token dev_service 3000 token_A = Some t' /\
    c_exp (tok_claims token_A) <= c_exp (tok_claims t') /\
    c_iat (tok_claims token_A) <= c_iat (tok_claims t').
Proof.
  apply (refresh_extends_expiry dev_service 0 3000 "A" "Alice" None false).
  - lia.
  - vm_compute. reflexivity.
Defined.

(** *** Slices and splits *)

Lemma string_length_app (s1 s2 : string) :
  String.length (s1 +:+ s2) = (String.length s1 + String.length s2)%nat.
Proof. induction s1 as [|c s1 IH]; simpl; [done|]. by rewrite IH. Qed.

(** [s[k:]] is what is left of [s] behind its first [k] characters. *)
Lemma substring_tail (s : string) (k m : nat) :
  (String.length s <= k + m)%nat ->
  exists pre, s = pre +:+ String.substring k m s /\
              String.length pre = Nat.min k (String.length s).
Proof.
  revert k m. induction s as [|c s IH]; intros k m Hlen.
  - exists EmptyString. by destruct k, m.
  - destruct k as [|k].
    + destruct m as [|m]; [simpl in Hlen; lia|].
      destruct (IH 0%nat m) as (pre & Hs & Hpre); [simpl in *; lia|].
      destruct pre; [|discriminate].
      exists EmptyString. split; [|done].
      change (String c s = String c (String.substring 0 m s)).
      f_equal. exact Hs.
    + destruct (IH k m) as (pre & Hs & Hpre); [simpl in *; lia|].
      exists (String c pre). split; [|simpl; lia].
      change (String c s = String c (pre +:+ String.substring k m s)).
      f_equal. exact Hs.
Qed.

(** [s[-n:]] is the end of [s], of [n] characters or of all there are. *)
Lemma last_chars_spec (n : nat) (s : string) :
  exists pre, s = pre +:+ last_chars n s /\
              String.length (last_chars n s) = Nat.min n (String.length s).
Proof.
  unfold last_chars.
  destruct (substring_tail s (String.length s - n) n) as (pre & Hs & Hpre); [lia|].
  exists pre. split; [exact Hs|].
  apply (f_equal String.length) in Hs. rewrite string_length_app in Hs. lia.
Qed.

(** The first part of a split holds no separator, and the string is that
    part alone or that part, a separator and a rest. *)
Lemma split_on_head (c : Ascii.ascii) (s : string) :
  let head := hd EmptyString (split_on c s) in
  (s = head \/ exists rest, s = head +:+ String c rest) /\
  (forall pre post, head <> pre +:+ String c post).
Proof.
  induction s as [|a s IH].
  - simpl. split; [by left|]. intros [|? ?] post; discriminate.
  - destruct (Ascii.eqb_spec a c) as [->|Hne].
    + simpl. rewrite Ascii.eqb_refl. simpl.
      split; [right; by exists s|]. intros [|? ?] post; discriminate.
    + assert (Hhd : hd EmptyString (split_on c (String a s)) =
                    String a (hd EmptyString (split_on c s))).
      { simpl. apply Ascii.eqb_neq in Hne. rewrite Hne.
        by destruct (split_on c s). }
      cbv zeta in *. rewrite Hhd. destruct IH as [Hs Hno]. split.
      * destruct Hs as [Hs|[rest Hs]].
        -- left. f_equal. exact Hs.
        -- right. exists rest.
           change (String a s =
                   String a (hd EmptyString (split_on c s) +:+ String c rest)).
           f_equal. exact Hs.
      * intros [|a' pre] post; simpl.
        -- intros [= ? ?]. contradiction.
        -- intros [= ? Hp]. by eapply Hno.
Qed.

(** *** The anonymous token and the login endpoints *)

(** X4.  A token from [create_anonymous_token] verifies, until it expires, to
    an anonymous identity without e-mail for the given user id; its name is
    the given one, or, when none or an empty one is given, [User] followed by
    the last six characters of the user id (all of them when the id is
    shorter). *)
Theorem anonymous_token_identity (svc : AuthService) (issued now : Z) (uid : string)
    (uname : option string) :
  issued <= now ->
  now < c_exp (tok_claims (create_anonymous_token svc issued uid uname)) * usec_per_sec ->
  exists shown,
    verify_token svc now (create_anonymous_token svc issued uid uname) =
      Some {| user_id := uid; username := shown; email := None; is_anonymous := true;
              exp := epoch_sec (issued + expiration_hours svc * 3600 * usec_per_sec) |} /\
    match uname with
    | Some u => u <> "" -> shown = u
    | None => True
    end /\
    (uname = None \/ uname = Some "" ->
     exists pre tail,
       shown = "User " +:+ tail /\ uid = pre +:+ tail /\
       String.length tail = Nat.min 6 (String.length uid)).
Proof.
  intros Hle Hexp. unfold create_anonymous_token in *.
  eexists. split; [by apply create_token_verifies|]. split.
  - destruct uname as [u|]; [|done]. intros Hu.
    apply String.eqb_neq in Hu. by rewrite Hu.
  - destruct (last_chars_spec 6 uid) as (pre & Huid & Hlen).
    intros [->| ->]; exists pre, (last_chars 6 uid); simpl; auto.
Qed.

Lemma anonymous_token_identity_witness :
  exists shown,
    verify_token dev_service 3000 (create_anonymous_token dev_service 0 "anon_12345678" None) =
      Some {| user_id := "anon_12345678"; username := shown; email := None;
              is_anonymous := true;
              exp := epoch_sec (0 + expiration_hours dev_service * 3600 * usec_per_sec) |} /\
    True /\
    (@None string = None \/ None = Some "" ->
     exists pre tail,
       shown = "User " +:+ tail /\ "anon_12345678" = pre +:+ tail /\
       String.length tail = Nat.min 6 (String.length "anon_12345678")).
Proof.
  apply (anonymous_token_identity dev_service 0 3000 "anon_12345678" None).
  - lia.
  - vm_compute. reflexivity.
Defined.

(** X5.  On a service whose tokens live for at least an hour, [login_anonymous]
    answers with a token that verifies at once to the user id and name of the
    answer, anonymous and without e-mail, and with the expiry of the answer;
    the user id is [anon_] and the first twelve characters of the fresh uuid. *)
Theorem login_anonymous_succeeds (svc : AuthService) (now : Z) (uuid_hex : string)
    (request_username : option string) :
  0 < expiration_hours svc ->
  exists resp,
    login_anonymous svc now uuid_hex request_username = Response resp /\
    login_user_id resp = "anon_" +:+ String.substring 0 12 uuid_hex /\
    login_is_anonymous resp = true /\
    login_email resp = None /\
    (forall u, request_username = Some u -> u <> "" -> login_username resp = u) /\
    verify_token svc now (login_token resp) =
      Some {| user_id := login_user_id resp; username := login_username resp;
              email := None; is_anonymous := true; exp := login_expires_at resp |}.
Proof.
  intros Hh. unfold login_anonymous, create_anonymous_token.
  assert (Hfresh : forall uid un,
    verify_token svc now (create_token svc now uid un None true) =
      Some {| user_id := uid; username := un; email := None; is_anonymous := true;
              exp := epoch_sec (now + expiration_hours svc * 3600 * usec_per_sec) |}).
  { intros uid un. apply create_token_verifies; [lia|by apply create_token_fresh]. }
  destruct request_username as [u|].
  - destruct (String.eqb u "") eqn:Hu; simpl; rewrite ?Hu, Hfresh.
    + eexists. split; [reflexivity|]. simpl. repeat split; auto.
      intros u' [= <-] Hne. apply String.eqb_eq in Hu. contradiction.
    + eexists. split; [reflexivity|]. simpl. repeat split; auto.
      by intros u' [= <-] _.
  - simpl. rewrite Hfresh.
    eexists. split; [reflexivity|]. simpl. repeat split; auto. discriminate.
Qed.

Lemma login_anonymous_succeeds_witness :
  exists resp,
    login_anonymous dev_service 5 "0123456789abcdef0123456789abcdef" (Some "Zed") =
      Response resp /\
    login_user_id resp = "anon_" +:+ String.substring 0 12 "0123456789abcdef0123456789abcdef" /\
    login_is_anonymous resp = true /\
    login_email resp = None /\
    (forall u, Some "Zed" = Some u -> u <> "" -> login_username resp = u) /\
    verify_token dev_service 5 (login_token resp) =
      Some {| user_id := login_user_id resp; username := login_username resp;
              email := None; is_anonymous := true; exp := login_expires_at resp |}.
Proof.
  apply (login_anonymous_succeeds dev_service 5 "0123456789abcdef0123456789abcdef"
           (Some "Zed")).
  reflexivity.
Defined.

(** X6.  [login] answers 400 without an e-mail; with one, on a service whose
    tokens live for at least an hour, it answers with a token that verifies
    at once to the user id of the answer and to that e-mail, not anonymous,
    under the name that is the e-mail up to its first [@]. *)
Theorem login_succeeds (svc : AuthService) (now : Z) (uuid_hex : string)
    (request_email : option string) :
  0 < expiration_hours svc ->
  match request_email with
  | None => login svc now uuid_hex request_email = HTTPException 400 "Email required"
  | Some mail =>
      (mail = "" ->
       login svc now uuid_hex request_email = HTTPException 400 "Email required") /\
      (mail <> "" ->
       exists resp,
         login svc now uuid_hex request_email = Response resp /\
         login_user_id resp = "user_" +:+ String.substring 0 12 uuid_hex /\
         login_is_anonymous resp = false /\
         (mail = login_username resp \/
          exists rest, mail = login_username resp +:+ String at_sign rest) /\
         (forall pre post, login_username resp <> pre +:+ String at_sign post) /\
         verify_token svc now (login_token resp) =
           Some {| user_id := login_user_id resp; username := login_username resp;
                   email := Some mail; is_anonymous := false;
                   exp := login_expires_at resp |})
  end.
Proof.
  intros Hh. destruct request_email as [mail|]; [|reflexivity].
  unfold login. split.
  - intros ->. reflexivity.
  - intros Hmail. apply String.eqb_neq in Hmail. rewrite Hmail.
    rewrite (create_token_verifies svc now now _ _ (Some mail) false (Z.le_refl now)
               (create_token_fresh svc now _ _ (Some mail) false Hh)).
    eexists. split; [reflexivity|]. simpl.
    pose proof (split_on_head at_sign mail) as Hsplit. cbv zeta in Hsplit.
    destruct Hsplit as [Hsplit Hno].
    repeat split; auto.
    apply create_token_verifies; [lia|by apply create_token_fresh].
Qed.

Lemma login_succeeds_witness :
  ("bob@x.org" = "" ->
   login dev_service 5 "0123456789abcdef0123456789abcdef" (Some "bob@x.org") =
     HTTPException 400 "Email required") /\
  ("bob@x.org" <> "" ->
   exists resp,
     login dev_service 5 "0123456789abcdef0123456789abcdef" (Some "bob@x.org") =
       Response resp /\
     login_user_id resp = "user_" +:+ String.substring 0 12 "0123456789abcdef0123456789abcdef" /\
     login_is_anonymous resp = false /\
     ("bob@x.org" = login_username resp \/
      exists rest, "bob@x.org" = login_username resp +:+ String at_sign rest) /\
     (forall pre post, login_username resp <> pre +:+ String at_sign post) /\
     verify_token dev_service 5 (login_token resp) =
       Some {| user_id := login_user_id resp; username := login_username resp;
               email := Some "bob@x.org"; is_anonymous := false;
               exp := login_expires_at resp |}).
Proof.
  apply (login_succeeds dev_service 5 "0123456789abcdef0123456789abcdef"
           (Some "bob@x.org")).
  reflexivity.
Defined.

(** X7.  On a service configured with a negative lifetime, every token is
    expired when it is issued: both login endpoints answer 500, and no token
    of the service can be refreshed. *)
Theorem negative_lifetime_fails_logins (svc : AuthService) (now : Z) (uuid_hex : string) :
  expiration_hours svc < 0 ->
  (forall request_username,
      login_anonymous svc now uuid_hex request_username =
        HTTPException 500 "Failed to create token") /\
  (forall mail, mail <> "" ->
      login svc now uuid_hex (Some mail) = HTTPException 500 "Failed to create token") /\
  (forall issued uid uname mail anonymous, issued <= now ->
      refresh_token svc now (create_token svc issued uid uname mail anonymous) = None).
Proof.
  intros Hh.
  assert (Hstale : forall issued uid uname mail anonymous, issued <= now ->
            verify_token svc now (create_token svc issued uid uname mail anonymous) = None).
  { intros issued uid uname mail anonymous Hle.
    destruct (verify_token svc now (create_token svc issued uid uname mail anonymous))
      as [td|] eqn:Hv; [|reflexivity].
    apply verify_token_accepts in Hv as (_ & _ & Ht & _).
    simpl in Ht. unfold epoch_sec, usec_per_sec in Ht.
    pose proof (Z.mul_div_le (issued + expiration_hours svc * 3600 * 1000000) 1000000
                  ltac:(lia)).
    lia. }
  split; [|split].
  - intros request_username. unfold login_anonymous, create_anonymous_token.
    destruct request_username as [u|].
    + destruct (String.eqb u "") eqn:Hu; rewrite ?Hu, Hstale by lia; reflexivity.
    + rewrite Hstale by lia. reflexivity.
  - intros mail Hmail. unfold login. apply String.eqb_neq in Hmail. rewrite Hmail.
    rewrite Hstale by lia. reflexivity.
  - intros issued uid uname mail anonymous Hle. unfold refresh_token.
    by rewrite Hstale.
Qed.

Lemma negative_lifetime_fails_logins_witness :
  login_anonymous {| secret_key := "k"; algorithm := "HS256"; expiration_hours := -1 |}
      5 "0123456789abcdef0123456789abcdef" None =
    HTTPException 500 "Failed to create token".
Proof.
  apply (proj1 (negative_lifetime_fails_logins
                  {| secret_key := "k"; algorithm := "HS256"; expiration_hours := -1 |}
                  5 "0123456789abcdef0123456789abcdef" ltac:(simpl; lia))).
Defined.

(** ** services/redis_service.py *)

(** *** Snapshots *)

(** X8.  A snapshot that [save_session_state] has written to an enabled store
    comes back on the first [connect] of that session id: when the three
    parameters are within their declared bounds the session starts with
    exactly the saved parameters, [beta] and counter, an empty roster and no
    update times; otherwise [connect] raises [ValidationError] having set the
    counter, and leaves the session id with an empty set of connections and
    without state. *)
Theorem saved_state_is_hydrated (w : World) (ws : nat) (sid : string)
    (st : SessionState) (n t : Z) :
  enabled (redis_service w) = true ->
  active_connections (manager w) !! sid = None ->
  let w0 := snd (modify_redis (save_session_state sid st n t) w) in
  load_session_state sid (redis_service w0) =
    Some {| snap_mu := mu st; snap_omega := omega st; snap_kappa := kappa st;
            snap_beta := beta st; snap_seq := n; snap_updated_at := t |} /\
  session_seq (manager (snd (connect ws sid w0))) !! sid = Some n /\
  ((mu_ok (mu st) && omega_ok (omega st) && kappa_ok (kappa st))%bool = true ->
   fst (connect ws sid w0) = Ret tt /\
   session_state (manager (snd (connect ws sid w0))) !! sid = Some st /\
   session_users (manager (snd (connect ws sid w0))) !! sid = Some [] /\
   last_update_time (manager (snd (connect ws sid w0))) !! sid = Some ∅ /\
   active_connections (manager (snd (connect ws sid w0))) !! sid = Some {[ws]}) /\
  ((mu_ok (mu st) && omega_ok (omega st) && kappa_ok (kappa st))%bool = false ->
   fst (connect ws sid w0) = Raise ValidationError /\
   session_state (manager (snd (connect ws sid w0))) !! sid =
     session_state (manager w) !! sid /\
   active_connections (manager (snd (connect ws sid w0))) !! sid = Some ∅).
Proof.
  intros Hen Hnone w0.
  assert (Hload : load_session_state sid (redis_service w0) =
                  Some {| snap_mu := mu st; snap_omega := omega st;
                          snap_kappa := kappa st; snap_beta := beta st;
                          snap_seq := n; snap_updated_at := t |}).
  { subst w0. unfold load_session_state, save_session_state, is_enabled. simpl.
    rewrite Hen. simpl. rewrite ?Hen. simpl. apply lookup_insert_eq. }
  split; [exact Hload|].
  unfold connect. monad_unfold.
  change (manager w0) with (manager w). rewrite Hnone. simpl.
  change (redis_service
            {| manager := set_active_connections <[sid := ∅]> (manager w);
               redis_service := redis_service w0; closed := closed w0;
               sent := sent w0 |}) with (redis_service w0).
  rewrite Hload. simpl. unfold SessionState_init.
  destruct (mu_ok (mu st) && omega_ok (omega st) && kappa_ok (kappa st))%bool; simpl.
  - rewrite !lookup_insert_eq. simpl. rewrite !lookup_insert_eq, union_empty_r_L.
    split; [done|]. split; [|discriminate].
    intros _. destruct st. auto.
  - rewrite !lookup_insert_eq. split; [done|]. split; [discriminate|]. auto.
Qed.

Lemma saved_state_is_hydrated_witness :
  session_seq
    (manager (snd (connect ws_C "s1"
                     (snd (modify_redis
                             (save_session_state "s1" SessionState_default 7 9000)
                             (world after_last_leave)))))) !! "s1" = Some 7.
Proof.
  apply (saved_state_is_hydrated (world after_last_leave) ws_C "s1"
           SessionState_default 7 9000).
  - vm_compute. reflexivity.
  - vm_compute. reflexivity.
Defined.

(** X9.  When the parameters of the snapshot are out of bounds, the session
    that the failed [connect] leaves behind is joined by the next [connect]
    as it is: that one completes, the session has its counter and one
    connection but no state, and [get_session_state] answers with the default
    parameters and the sequence number 0, not with the counter. *)
Theorem failed_hydration_leaves_stateless_session (w : World) (ws ws' : nat)
    (sid : string) (snap : Snapshot) :
  active_connections (manager w) !! sid = None ->
  session_state (manager w) !! sid = None ->
  load_session_state sid (redis_service w) = Some snap ->
  SessionState_init (snap_mu snap) (snap_omega snap) (snap_kappa snap) (snap_beta snap)
    = None ->
  let w1 := snd (connect ws sid w) in
  fst (connect ws sid w) = Raise ValidationError /\
  fst (connect ws' sid w1) = Ret tt /\
  active_connections (manager (snd (connect ws' sid w1))) !! sid = Some {[ws']} /\
  session_seq (manager (snd (connect ws' sid w1))) !! sid = Some (snap_seq snap) /\
  session_state (manager (snd (connect ws' sid w1))) !! sid = None /\
  get_session_state sid (manager (snd (connect ws' sid w1))) = (SessionState_default, 0).
Proof.
  intros Hnone Hst Hload Hinit w1.
  assert (Hrun : connect ws sid w =
    (Raise ValidationError,
     {| manager := set_session_seq <[sid := snap_seq snap]>
                     (set_active_connections <[sid := ∅]> (manager w));
        redis_service := redis_service w; closed := closed w; sent := sent w |})).
  { unfold connect. monad_unfold. rewrite Hnone. simpl. rewrite Hload. simpl.
    rewrite Hinit. reflexivity. }
  subst w1. rewrite Hrun. simpl.
  unfold connect. monad_unfold. rewrite !lookup_insert_eq. simpl.
  rewrite !lookup_insert_eq, union_empty_r_L.
  unfold get_session_state. simpl. rewrite Hst, !lookup_insert_eq.
  repeat split; reflexivity.
Qed.

Lemma failed_hydration_leaves_stateless_session_witness :
  let w1 := snd (connect ws_C "s1" (world out_of_bounds_left)) in
  fst (connect ws_C "s1" (world out_of_bounds_left)) = Raise ValidationError /\
  fst (connect ws_A "s1" w1) = Ret tt /\
  active_connections (manager (snd (connect ws_A "s1" w1))) !! "s1" = Some {[ws_A]} /\
  session_seq (manager (snd (connect ws_A "s1" w1))) !! "s1" = Some 3 /\
  session_state (manager (snd (connect ws_A "s1" w1))) !! "s1" = None /\
  get_session_state "s1" (manager (snd (connect ws_A "s1" w1))) = (SessionState_default, 0).
Proof.
  apply (failed_hydration_leaves_stateless_session (world out_of_bounds_left) ws_C ws_A "s1"
           {| snap_mu := 0.80; snap_omega := 0.847; snap_kappa := 0.0207;
              snap_beta := Some (1 - 0.80 - 0.0207 * 10.8)%float;
              snap_seq := 3; snap_updated_at := 5000 |}).
  - vm_compute. reflexivity.
  - vm_compute. reflexivity.
  - vm_compute. reflexivity.
  - vm_compute. reflexivity.
Defined.

(** *** The history *)

Lemma zadd_elements (ev : HistoryEvent) (l : list HistoryEvent) (e : HistoryEvent) :
  e ∈ zadd ev l <-> e = ev \/ e ∈ l.
Proof.
  induction l as [|a l IH]; simpl.
  - rewrite list_elem_of_singleton. split; [auto|]. intros [?|H]; [done|inversion H].
  - destruct (h_seq ev <? h_seq a).
    + rewrite !elem_of_cons. tauto.
    + rewrite !elem_of_cons, IH. tauto.
Qed.

Lemma zadd_ordered (ev : HistoryEvent) (l : list HistoryEvent) :
  ordered_by_seq l -> ordered_by_seq (zadd ev l).
Proof.
  induction l as [|a l IH]; simpl.
  - intros _. split; [constructor|done].
  - intros [Ha Hl]. destruct (Z.ltb_spec (h_seq ev) (h_seq a)) as [Hlt|Hge]; simpl.
    + split; [|by split].
      constructor; [lia|]. eapply Forall_impl; [exact Ha|]. simpl. intros; lia.
    + split; [|by apply IH].
      apply Forall_forall. intros e He. apply zadd_elements in He as [->|He]; [lia|].
      rewrite Forall_forall in Ha. by apply Ha.
Qed.

Lemma elem_of_drop_inv {A} (k : nat) (l : list A) (x : A) : x ∈ drop k l -> x ∈ l.
Proof.
  rewrite !list_elem_of_lookup. intros [i Hi]. rewrite lookup_drop in Hi. eauto.
Qed.

Lemma drop_ordered (k : nat) (l : list HistoryEvent) :
  ordered_by_seq l -> ordered_by_seq (drop k l).
Proof.
  revert k. induction l as [|a l IH]; intros k; [by destruct k|].
  destruct k as [|k]; [done|]. simpl. intros [_ Hl]. by apply IH.
Qed.


(** X10.  On an enabled store [add_to_history] keeps the history of the
    session in the order of the sequence numbers, leaves it with at most 1000
    events, each of them the new event or an event that was there, and does
    not touch the history of another session. *)
Theorem add_to_history_keeps_order (sid uid : string) (params : list (string * float))
    (seq now : Z) (r : RedisService) :
  enabled r = true ->
  let old := default [] (kv_history r !! sid) in
  let new := default [] (kv_history (add_to_history sid uid params seq now r) !! sid) in
  (ordered_by_seq old -> ordered_by_seq new) /\
  (length new <= 1000)%nat /\
  (forall e, e ∈ new ->
     e = {| h_seq := seq; h_user_id := uid; h_params := params; h_timestamp := now |} \/
     e ∈ old) /\
  (forall sid', sid' <> sid ->
     kv_history (add_to_history sid uid params seq now r) !! sid' = kv_history r !! sid').
Proof.
  intros Hen old new. subst new. unfold add_to_history, is_enabled. rewrite Hen. simpl.
  rewrite lookup_insert_eq. simpl. fold old. unfold zkeep_last_1000.
  repeat split.
  - intros Hold. by apply drop_ordered, zadd_ordered.
  - rewrite length_drop. lia.
  - intros e He. apply zadd_elements. eapply elem_of_drop_inv. exact He.
  - intros sid' Hne. by rewrite lookup_insert_ne.
Qed.

Lemma add_to_history_keeps_order_witness :
  (length (default [] (kv_history
             (add_to_history "s1" "A" [("mu", 0.6%float)] 9 9000
                (redis_service (world basic_broadcast))) !! "s1")) <= 1000)%nat.
Proof.
  apply (add_to_history_keeps_order "s1" "A" [("mu", 0.6%float)] 9 9000
           (redis_service (world basic_broadcast))).
  vm_compute. reflexivity.
Defined.



(** *** Deletion *)

(** X12.  On an enabled store [delete_session_state] removes the snapshot,
    the history and the presence hash of the session, so that every query for
    it comes back empty, and leaves the other sessions as they are; the sets
    [user:{id}:sessions] are not touched, so the users of the session still
    list it.  On a disabled store nothing changes, and the endpoint answers
    503. *)
Theorem delete_session_state_removes (sid : string) (r : RedisService) :
  (enabled r = true ->
   load_session_state sid (delete_session_state sid r) = None /\
   (forall a b, get_history sid a b (delete_session_state sid r) = []) /\
   redis_get_session_users sid (delete_session_state sid r) = [] /\
   get_session_metadata sid (delete_session_state sid r) = None /\
   kv_user_sessions (delete_session_state sid r) = kv_user_sessions r /\
   (forall sid', sid' <> sid ->
      load_session_state sid' (delete_session_state sid r) = load_session_state sid' r /\
      (forall a b, get_history sid' a b (delete_session_state sid r) =
                   get_history sid' a b r) /\
      redis_get_session_users sid' (delete_session_state sid r) =
        redis_get_session_users sid' r) /\
   api_delete_session_history sid r = (Response sid, delete_session_state sid r)) /\
  (enabled r = false ->
   delete_session_state sid r = r /\
   api_delete_session_history sid r = (history_unavailable, r)).
Proof.
  split; intros Hen.
  - unfold api_delete_session_history, delete_session_state, load_session_state,
      get_history, redis_get_session_users, get_session_metadata, load_session_state,
      is_enabled.
    rewrite Hen. simpl. rewrite ?Hen. simpl. rewrite !lookup_delete_eq. simpl.
    repeat split; auto.
    + intros a b. by destruct (b =? -1).
    + by rewrite lookup_delete_ne.
    + by rewrite lookup_delete_ne.
    + by rewrite lookup_delete_ne.
  - unfold api_delete_session_history, delete_session_state, is_enabled.
    rewrite Hen. auto.
Qed.

Lemma delete_session_state_removes_witness :
  load_session_state "s1"
    (delete_session_state "s1" (redis_service (world basic_broadcast))) = None.
Proof.
  apply (proj1 (delete_session_state_removes "s1" (redis_service (world basic_broadcast)))).
  vm_compute. reflexivity.
Defined.

(** *** Presence *)

(** X13.  On an enabled store, after [add_user_to_session] the user's record
    is among the users of the session and the session among the sessions of
    the user; after [remove_user_from_session] the users of the session are
    the records that other user ids had before, and the session is no longer
    among the sessions of the user. *)
Theorem presence_add_remove (sid uid : string) (user_data : User) (r : RedisService) :
  enabled r = true ->
  let added := add_user_to_session sid uid user_data r in
  let removed := remove_user_from_session sid uid added in
  user_data ∈ redis_get_session_users sid added /\
  sid ∈ default ∅ (kv_user_sessions added !! uid) /\
  (forall d, d ∈ redis_get_session_users sid removed <->
             exists uid', uid' <> uid /\ default ∅ (kv_users r !! sid) !! uid' = Some d) /\
  sid ∉ default ∅ (kv_user_sessions removed !! uid).
Proof.
  intros Hen added removed. subst removed added.
  unfold redis_get_session_users, remove_user_from_session, add_user_to_session,
    is_enabled.
  rewrite Hen. simpl. rewrite ?Hen. simpl.
  rewrite !lookup_insert_eq. simpl.
  rewrite !lookup_alter_eq, !lookup_insert_eq. simpl.
  repeat split.
  - apply list_elem_of_fmap. exists (uid, user_data). split; [done|].
    apply elem_of_map_to_list. apply lookup_insert_eq.
  - apply elem_of_union. left. by apply elem_of_singleton.
  - intros Hd. apply list_elem_of_fmap in Hd as [[uid' d'] [-> Hd]].
    apply elem_of_map_to_list in Hd. simpl.
    destruct (decide (uid' = uid)) as [->|Hne].
    + by rewrite lookup_delete_eq in Hd.
    + rewrite lookup_delete_ne, lookup_insert_ne in Hd by done. eauto.
  - intros (uid' & Hne & Hd). apply list_elem_of_fmap. exists (uid', d). split; [done|].
    apply elem_of_map_to_list. by rewrite lookup_delete_ne, lookup_insert_ne.
  - intros Hin. apply elem_of_difference in Hin as [_ Hin].
    apply Hin. by apply elem_of_singleton.
Qed.

Lemma presence_add_remove_witness :
  {| id := "C"; name := "Cy"; avatar := None; color := None |} ∈
    redis_get_session_users "s1"
      (add_user_to_session "s1" "C"
         {| id := "C"; name := "Cy"; avatar := None; color := None |} empty_store).
Proof.
  apply (presence_add_remove "s1" "C"
           {| id := "C"; name := "Cy"; avatar := None; color := None |} empty_store).
  reflexivity.
Defined.

(** *** The list of sessions with a snapshot *)

Lemma split_on_head_app (c : Ascii.ascii) (s t : string) :
  hd EmptyString (split_on c (s +:+ String c t)) = hd EmptyString (split_on c s).
Proof.
  induction s as [|a s IH]; simpl.
  - by rewrite Ascii.eqb_refl.
  - destruct (Ascii.eqb a c); [done|].
    destruct (split_on c (s +:+ String c t)), (split_on c s); simpl in *; congruence.
Qed.

Lemma state_key_session (sid : string) :
  nth 1 (split_on colon (state_key sid)) EmptyString = hd EmptyString (split_on colon sid).
Proof.
  unfold state_key.
  change ("session:" +:+ (sid +:+ ":state"))
    with ("session" +:+ String colon (sid +:+ String colon "state")).
  simpl.
  pose proof (split_on_head_app colon sid "state") as Hhd.
  destruct (split_on colon (sid +:+ String colon "state")); simpl in *; exact Hhd.
Qed.

Lemma split_on_no_separator (c : Ascii.ascii) (s : string) :
  (forall pre post, s <> pre +:+ String c post) ->
  hd EmptyString (split_on c s) = s.
Proof.
  intros Hno. pose proof (split_on_head c s) as Hsplit. cbv zeta in Hsplit.
  destruct Hsplit as [[Hs|[rest Hs]] _]; [done|]. by apply Hno in Hs.
Qed.

(** X14.  On an enabled store [get_active_sessions] lists, for each session
    id with a snapshot, the part of the id before its first colon: an id
    without colon is listed as it is, an id with a colon is listed cut. *)
Theorem get_active_sessions_lists_snapshots (r : RedisService) :
  enabled r = true ->
  (forall x, x ∈ get_active_sessions r <->
             exists sid, is_Some (kv_state r !! sid) /\
                         x = hd EmptyString (split_on colon sid)) /\
  (forall sid, (forall pre post, sid <> pre +:+ String colon post) ->
               is_Some (load_session_state sid r) -> sid ∈ get_active_sessions r) /\
  length (get_active_sessions r) = size (kv_state r).
Proof.
  intros Hen.
  assert (Hlist : forall x, x ∈ get_active_sessions r <->
            exists sid, is_Some (kv_state r !! sid) /\
                        x = hd EmptyString (split_on colon sid)).
  { intros x. unfold get_active_sessions, is_enabled. rewrite Hen. simpl.
    rewrite !List.map_map. split.
    - intros Hx. apply list_elem_of_fmap in Hx as [[sid snap] [-> Hin]].
      apply elem_of_map_to_list in Hin. exists sid. simpl.
      split; [eauto|]. apply state_key_session.
    - intros (sid & [snap Hsnap] & ->). apply list_elem_of_fmap.
      exists (sid, snap). split; [symmetry; apply state_key_session|].
      by apply elem_of_map_to_list. }
  split; [exact Hlist|]. split.
  - intros sid Hno Hsnap. apply Hlist. exists sid. split.
    + unfold load_session_state, is_enabled in Hsnap. by rewrite Hen in Hsnap.
    + symmetry. by apply split_on_no_separator.
  - unfold get_active_sessions, is_enabled. rewrite Hen. simpl.
    by rewrite !List.length_map, length_map_to_list.
Qed.

Lemma get_active_sessions_lists_snapshots_witness :
  "s1" ∈ get_active_sessions (redis_service (world basic_broadcast)).
Proof.
  apply (get_active_sessions_lists_snapshots (redis_service (world basic_broadcast))
           ltac:(vm_compute; reflexivity)).
  - intros pre post Heq.
    destruct pre as [|a [|b [|c pre]]]; cbv in Heq; inversion Heq.
  - eexists. vm_compute. reflexivity.
Defined.

(** ** main.py: the routes *)

(** A literal pattern matches its own path only. *)
Lemma match_path_lit (s : string) (pattern : list Segment) (path : list string)
    (params : list (string * string)) :
  match_path (Lit s :: pattern) path = Some params ->
  exists path', path = s :: path' /\ match_path pattern path' = Some params.
Proof.
  destruct path as [|seg path]; [discriminate|].
  cbn [match_path]. destruct (String.eqb_spec s seg) as [->|]; [|discriminate].
  eauto.
Qed.

Lemma match_path_literal_active (path : list string) (params : list (string * string)) :
  match_path (api_v1 [Lit "history"; Lit "active"]) path = Some params ->
  path = ["api"; "v1"; "history"; "active"].
Proof.
  unfold api_v1. intros Hp.
  apply match_path_lit in Hp as (p1 & -> & Hp).
  apply match_path_lit in Hp as (p2 & -> & Hp).
  apply match_path_lit in Hp as (p3 & -> & Hp).
  apply match_path_lit in Hp as (p4 & -> & Hp).
  destruct p4; [reflexivity|discriminate].
Qed.

(** X15.  The route [GET /api/v1/history/active] is registered behind
    [GET /api/v1/history/{session_id}], which matches the same path: that
    request is served by [get_session_history] with the session id [active],
    and no request at all is served by [get_active_sessions]. *)
Theorem active_sessions_route_is_shadowed :
  dispatch "GET" ["api"; "v1"; "history"; "active"] =
    Some (h_get_session_history, [("session_id", "active")]) /\
  (forall method path params,
      dispatch method path <> Some (h_get_active_sessions, params)).
Proof.
  split; [reflexivity|].
  intros method path params.
  unfold dispatch, app_routes.
  cbn [dispatch_in route_method route_path route_handler].
  repeat case_match; try discriminate.
  all: intros _.
  all: match goal with
       | H : match_path (api_v1 [Lit "history"; Lit "active"]) ?p = Some _ |- _ =>
           apply match_path_literal_active in H; subst p
       end.
  all: match goal with
       | H : match_path (api_v1 [Lit "history"; Param "session_id"]) _ = None |- _ =>
           vm_compute in H; discriminate H
       end.
Qed.

(** ** The hub, continued *)

Section HubMore.
Context `{E : Env}.

(** *** What a completed [param:broadcast] leaves in the store *)

Lemma broadcast_param_store (w w' : World) (sid uid : string)
    (params : list (string * float)) (exclude : option nat) (now : Z)
    (conns : gset nat) (n : Z) :
  active_connections (manager w) !! sid = Some conns ->
  session_seq (manager w) !! sid = Some n ->
  broadcast sid (ParamBroadcast uid params) exclude now w = (Ret tt, w') ->
  exists st1,
    redis_service w' =
      add_to_history sid uid params (n + 1) now
        (save_session_state sid (compute_beta st1) (n + 1) now (redis_service w)) /\
    (session_state (manager w') !! sid = Some (compute_beta st1) \/
     session_state (manager w') !! sid = None).
Proof.
  intros Hconns Hn.
  remember (ParamBroadcast uid params) as p eqn:Hp.
  unfold broadcast, bind at 1, get_manager. rewrite Hconns.
  unfold bind at 1, getitem. rewrite Hn. simpl.
  unfold bind at 1, modify_manager. unfold bind at 1.
  match goal with
  | |- context [record_update sid p now ?w0] =>
      destruct (record_update sid p now w0) as [[[]|e] w1] eqn:Hrec
  end; [|discriminate].
  subst p.
  apply record_update_run in Hrec as (w2 & st & seq & Hloop & _ & Hseq & ->).
  apply apply_params_frame in Hloop as (Hr & _ & _ & _ & Hq & _).
  simpl in Hr, Hq. rewrite Hq, lookup_insert_eq in Hseq. injection Hseq as <-.
  intros Hfan. apply fan_out_frame in Hfan as (_ & Hr' & _ & _ & Hstate).
  simpl in Hr', Hstate. rewrite lookup_insert_eq in Hstate.
  exists st. split; [by rewrite Hr', Hr|exact Hstate].
Qed.

Lemma zadd_length (ev : HistoryEvent) (l : list HistoryEvent) :
  length (zadd ev l) = S (length l).
Proof.
  induction l as [|a l IH]; simpl; [done|].
  destruct (h_seq ev <? h_seq a); simpl; by rewrite ?IH.
Qed.

(** X16.  After a [param:broadcast] that completes on a live session with an
    enabled store, [get_session_metadata] answers for the session with the
    sequence number of that broadcast, with the parameters and [beta] that the
    session then has, with a history of at least one and at most 1000 events,
    and with a user count that is the number of the users it lists. *)
Theorem metadata_follows_param_broadcast (w w' : World) (sid uid : string)
    (params : list (string * float)) (exclude : option nat) (now : Z)
    (conns : gset nat) (n : Z) :
  active_connections (manager w) !! sid = Some conns ->
  session_seq (manager w) !! sid = Some n ->
  enabled (redis_service w) = true ->
  broadcast sid (ParamBroadcast uid params) exclude now w = (Ret tt, w') ->
  exists md,
    get_session_metadata sid (redis_service w') = Some md /\
    meta_seq md = n + 1 /\
    (forall st', session_state (manager w') !! sid = Some st' ->
       snap_mu (meta_state md) = mu st' /\ snap_omega (meta_state md) = omega st' /\
       snap_kappa (meta_state md) = kappa st' /\ snap_beta (meta_state md) = beta st') /\
    (1 <= meta_history_count md <= 1000)%nat /\
    meta_user_count md = length (meta_users md).
Proof.
  intros Hconns Hn Hen Hrun.
  destruct (broadcast_param_store _ _ _ _ _ _ _ _ _ Hconns Hn Hrun) as (st1 & -> & Hst).
  unfold get_session_metadata, load_session_state, add_to_history, save_session_state,
    is_enabled.
  rewrite Hen. simpl. rewrite ?Hen. simpl. rewrite !lookup_insert_eq. simpl.
  eexists. split; [reflexivity|]. simpl.
  split; [reflexivity|]. split; [|split; [|reflexivity]].
  - intros st' Hst'. destruct Hst as [Hst|Hst]; [|congruence].
    rewrite Hst in Hst'. injection Hst' as <-. done.
  - unfold zkeep_last_1000. rewrite length_drop, zadd_length. lia.
Qed.

(** *** Joining a live session *)

(** X17.  [connect] to a session that is live only adds the socket to its
    connections: counter, state, roster and update times of the session stay,
    the store is not read into the session, nothing is sent; connecting a
    socket that is already there changes nothing. *)
Theorem connect_live_session_adds_socket (w : World) (ws : nat) (sid : string)
    (conns : gset nat) :
  active_connections (manager w) !! sid = Some conns ->
  connect ws sid w =
    (Ret tt,
     {| manager := set_active_connections <[sid := {[ws]} ∪ conns]> (manager w);
        redis_service := redis_service w; closed := closed w; sent := sent w |}) /\
  (ws ∈ conns -> manager (snd (connect ws sid w)) = manager w).
Proof.
  intros Hconns.
  assert (Hrun : connect ws sid w =
    (Ret tt,
     {| manager := set_active_connections <[sid := {[ws]} ∪ conns]> (manager w);
        redis_service := redis_service w; closed := closed w; sent := sent w |})).
  { unfold connect. monad_unfold. rewrite Hconns. simpl. rewrite Hconns. reflexivity. }
  split; [exact Hrun|]. intros Hin. rewrite Hrun. simpl.
  assert (Hsame : {[ws]} ∪ conns = conns).
  { apply subseteq_union_1_L. by apply singleton_subseteq_l. }
  rewrite Hsame. unfold set_active_connections.
  rewrite insert_id by exact Hconns. by destruct (manager w).
Qed.

(** *** Leaving a session that others stay in *)

Lemma dict_get_absent {V} (k : string) (d : list (string * V)) :
  k ∉ map fst d -> dict_get k d = None.
Proof.
  induction d as [|[k' v] d IH]; simpl; [done|].
  intros Hnot. destruct (String.eqb_spec k' k) as [->|Hne].
  - exfalso. apply Hnot. by left.
  - apply IH. intros Hin. apply Hnot. by right.
Qed.

Lemma dict_get_del {V} (k : string) (d : list (string * V)) :
  NoDup (map fst d) -> dict_get k (dict_del k d) = None.
Proof.
  induction d as [|[k' v] d IH]; simpl; [done|].
  intros Hnd. apply NoDup_cons in Hnd as [Hnot Hnd].
  destruct (String.eqb_spec k' k) as [->|Hne].
  - by apply dict_get_absent.
  - simpl. destruct (String.eqb_spec k' k); [done|]. by apply IH.
Qed.

Lemma dict_del_absent {V} (k : string) (d : list (string * V)) :
  dict_get k d = None -> dict_del k d = d.
Proof.
  induction d as [|[k' v] d IH]; simpl; [done|].
  destruct (String.eqb_spec k' k); [done|]. intros Hget. by rewrite IH.
Qed.

Lemma disconnect_others (w : World) (ws : nat) (sid : string) (conns : gset nat) :
  active_connections (manager w) !! sid = Some conns ->
  conns ∖ {[ws]} <> ∅ ->
  exists w',
    disconnect ws sid w = (Ret tt, w') /\
    active_connections (manager w') =
      <[sid := conns ∖ {[ws]}]> (active_connections (manager w)) /\
    session_seq (manager w') = session_seq (manager w) /\
    session_state (manager w') = session_state (manager w) /\
    last_update_time (manager w') = last_update_time (manager w) /\
    ws_to_user (manager w') = delete ws (ws_to_user (manager w)) /\
    session_users (manager w') =
      match ws_to_user (manager w) !! ws, session_users (manager w) !! sid with
      | Some uid, Some users => <[sid := dict_del uid users]> (session_users (manager w))
      | _, _ => session_users (manager w)
      end /\
    redis_service w' = redis_service w /\
    closed w' = closed w /\
    sent w' = sent w.
Proof.
  intros Hconns Hne.
  unfold disconnect. monad_unfold. rewrite Hconns. simpl.
  destruct (ws_to_user (manager w) !! ws) as [uid|] eqn:Hu; simpl.
  - destruct (session_users (manager w) !! sid) as [users|] eqn:Hus; simpl.
    + destruct (dict_get uid users) as [u|] eqn:Hg; simpl.
      * destruct (decide (conns ∖ {[ws]} = ∅)); [contradiction|].
        eexists. split; [reflexivity|]. simpl. repeat split; reflexivity.
      * destruct (decide (conns ∖ {[ws]} = ∅)); [contradiction|].
        eexists. split; [reflexivity|]. simpl.
        rewrite (dict_del_absent _ _ Hg), (insert_id _ _ _ Hus).
        repeat split; reflexivity.
    + destruct (decide (conns ∖ {[ws]} = ∅)); [contradiction|].
      eexists. split; [reflexivity|]. simpl. repeat split; reflexivity.
  - destruct (decide (conns ∖ {[ws]} = ∅)); [contradiction|].
    eexists. split; [reflexivity|]. simpl.
    rewrite (delete_id _ _ Hu). repeat split; reflexivity.
Qed.

(** X18.  When a connection leaves a session in which another connection
    stays, [disconnect] completes and keeps the session with its counter, its
    state and its update times; nothing is sent and the store is not touched.
    The user of the connection is taken off the roster even when the
    connection that stays is one of the same user: that connection is still
    mapped to the user, who is no longer in the roster. *)
Theorem disconnect_one_of_several (w : World) (ws ws' : nat) (sid : string)
    (conns : gset nat) :
  active_connections (manager w) !! sid = Some conns ->
  ws' ∈ conns ->
  ws' <> ws ->
  exists w',
    disconnect ws sid w = (Ret tt, w') /\
    active_connections (manager w') !! sid = Some (conns ∖ {[ws]}) /\
    ws' ∈ conns ∖ {[ws]} /\
    session_seq (manager w') = session_seq (manager w) /\
    session_state (manager w') = session_state (manager w) /\
    last_update_time (manager w') = last_update_time (manager w) /\
    redis_service w' = redis_service w /\
    sent w' = sent w /\
    (forall uid users,
        ws_to_user (manager w) !! ws = Some uid ->
        ws_to_user (manager w) !! ws' = Some uid ->
        session_users (manager w) !! sid = Some users ->
        NoDup (map fst users) ->
        ws_to_user (manager w') !! ws' = Some uid /\
        exists users', session_users (manager w') !! sid = Some users' /\
                       dict_get uid users' = None).
Proof.
  intros Hconns Hin Hne.
  assert (Hin' : ws' ∈ conns ∖ {[ws]}).
  { apply elem_of_difference. split; [done|]. by rewrite elem_of_singleton. }
  destruct (disconnect_others w ws sid conns Hconns)
    as (w' & Hrun & Ha & Hq & Hst & Hlut & Hmap & Hus & Hr & _ & Hs).
  { intros Hempty. rewrite Hempty in Hin'. by apply not_elem_of_empty in Hin'. }
  exists w'. split; [done|]. split; [by rewrite Ha, lookup_insert_eq|].
  do 6 (split; [done|]).
  intros uid users Hu Hu' Husers Hnd. split.
  - rewrite Hmap, lookup_delete_ne by done. exact Hu'.
  - rewrite Hus, Hu, Husers. exists (dict_del uid users).
    split; [apply lookup_insert_eq|by apply dict_get_del].
Qed.

Lemma disconnect_one_of_several_witness :
  exists w',
    disconnect ws_A "s1" (world two_tabs) = (Ret tt, w') /\
    active_connections (manager w') !! "s1" = Some ({[ws_A; ws_C]} ∖ {[ws_A]}) /\
    ws_C ∈ ({[ws_A; ws_C]} : gset nat) ∖ {[ws_A]} /\
    session_seq (manager w') = session_seq (manager (world two_tabs)) /\
    session_state (manager w') = session_state (manager (world two_tabs)) /\
    last_update_time (manager w') = last_update_time (manager (world two_tabs)) /\
    redis_service w' = redis_service (world two_tabs) /\
    sent w' = sent (world two_tabs) /\
    (forall uid users,
        ws_to_user (manager (world two_tabs)) !! ws_A = Some uid ->
        ws_to_user (manager (world two_tabs)) !! ws_C = Some uid ->
        session_users (manager (world two_tabs)) !! "s1" = Some users ->
        NoDup (map fst users) ->
        ws_to_user (manager w') !! ws_C = Some uid /\
        exists users', session_users (manager w') !! "s1" = Some users' /\
                       dict_get uid users' = None).
Proof.
  apply (disconnect_one_of_several (world two_tabs) ws_A ws_C "s1" {[ws_A; ws_C]}).
  - vm_compute. reflexivity.
  - apply elem_of_union. right. by apply elem_of_singleton.
  - discriminate.
Defined.

(** *** [shutdown] *)

Lemma close_all_spec (l : list nat) (w : World) :
  exists cl,
    close_all l w =
      (Ret tt, {| manager := manager w; redis_service := redis_service w;
                  closed := cl; sent := sent w |}) /\
    forall x, x ∈ cl <-> x ∈ l \/ x ∈ closed w.
Proof.
  revert w. induction l as [|ws l IH]; intros w; simpl.
  - exists (closed w). split; [by destruct w|].
    intros x. split; [by right|]. intros [Hx|Hx]; [|done]. by apply elem_of_nil in Hx.
  - unfold bind at 1, close at 1.
    destruct (IH {| manager := manager w; redis_service := redis_service w;
                    closed := {[ws]} ∪ closed w; sent := sent w |})
      as (cl & -> & Hcl).
    exists cl. split; [reflexivity|]. intros x. rewrite Hcl. simpl.
    rewrite elem_of_union, elem_of_singleton, elem_of_cons. tauto.
Qed.

(** X19.  [shutdown] completes from every state: the manager is as at start,
    the sockets of all sessions are closed (and those only, beside the ones
    that were), the store keeps everything and nothing is sent.  For a
    connection task that ends afterwards, the [finally] clause changes
    nothing and sends nothing. *)
Theorem shutdown_clears_hub (w : World) :
  exists w',
    shutdown w = (Ret tt, w') /\
    manager w' = manager_init /\
    redis_service w' = redis_service w /\
    sent w' = sent w /\
    (forall ws, ws ∈ closed w' <->
       ws ∈ closed w \/
       exists sid conns, active_connections (manager w) !! sid = Some conns /\ ws ∈ conns) /\
    (forall ws sid uid now, finalize ws sid uid now w' = (Ret tt, w')).
Proof.
  unfold shutdown, bind at 1, get_manager.
  destruct (close_all_spec
              (concat (map (fun kv => elements kv.2)
                         (map_to_list (active_connections (manager w))))) w)
    as (cl & Hrun & Hcl).
  unfold bind at 1. rewrite Hrun. unfold modify_manager. simpl.
  eexists. split; [reflexivity|]. simpl. do 3 (split; [reflexivity|]). split.
  - intros ws. rewrite Hcl. split.
    + intros [Hin|Hin]; [|by left]. right.
      apply list_elem_of_In, in_concat in Hin as (l & Hl & Hin).
      apply in_map_iff in Hl as ([sid conns] & <- & Hkv).
      apply list_elem_of_In, elem_of_map_to_list in Hkv.
      exists sid, conns. split; [done|].
      by apply list_elem_of_In, elem_of_elements in Hin.
    + intros [Hin|(sid & conns & Hconns & Hin)]; [by right|]. left.
      apply list_elem_of_In, in_concat. exists (elements conns). split.
      * apply in_map_iff. exists (sid, conns). split; [done|].
        by apply list_elem_of_In, elem_of_map_to_list.
      * by apply list_elem_of_In, elem_of_elements.
  - intros ws sid uid now. unfold finalize, bind at 1.
    rewrite disconnect_no_session by apply lookup_empty.
    destruct uid as [me|]; [|reflexivity].
    destruct (truthy (Some me)); [|reflexivity].
    apply broadcast_no_session. apply lookup_empty.
Qed.

(** *** api/sessions.py *)

(** X20.  [list_sessions] has one entry for each live session and no other:
    an entry is in the list exactly when [get_session] answers with it for
    its session id; [get_session] answers 404 exactly for the session ids that
    are not live. *)
Theorem sessions_api_lists_live_sessions (m : ConnectionManager) :
  (forall info, info ∈ list_sessions m <->
                get_session (info_session_id info) m = Response info) /\
  NoDup (map info_session_id (list_sessions m)) /\
  length (list_sessions m) = size (active_connections m) /\
  (forall sid, get_session sid m = HTTPException 404 "Session not found" <->
               active_connections m !! sid = None).
Proof.
  unfold list_sessions, get_session. repeat split.
  - intros Hin. apply list_elem_of_fmap in Hin as ([sid conns] & -> & Hkv).
    apply elem_of_map_to_list in Hkv. simpl. by rewrite Hkv.
  - intros Hget.
    destruct (active_connections m !! info_session_id info) as [conns|] eqn:Hconns;
      [|discriminate].
    injection Hget as <-. apply list_elem_of_fmap.
    exists (info_session_id info, conns). split; [done|].
    by apply elem_of_map_to_list.
  - rewrite List.map_map. simpl. apply NoDup_fst_map_to_list.
  - by rewrite length_map, length_map_to_list.
  - by destruct (active_connections m !! sid).
  - by intros ->.
Qed.

Lemma close_and_disconnect_all (sid : string) (l : list nat) (w : World) :
  NoDup l ->
  l <> [] ->
  active_connections (manager w) !! sid = Some (list_to_set l) ->
  is_Some (session_seq (manager w) !! sid) ->
  is_Some (session_state (manager w) !! sid) ->
  is_Some (session_users (manager w) !! sid) ->
  is_Some (last_update_time (manager w) !! sid) ->
  exists w',
    close_and_disconnect l sid w = (Ret tt, w') /\
    active_connections (manager w') !! sid = None /\
    session_seq (manager w') !! sid = None /\
    session_state (manager w') !! sid = None /\
    session_users (manager w') !! sid = None /\
    last_update_time (manager w') !! sid = None /\
    redis_service w' = redis_service w /\
    sent w' = sent w /\
    (forall x, x ∈ closed w' <-> x ∈ l \/ x ∈ closed w).
Proof.
  revert w. induction l as [|ws l IH]; intros w Hnd Hne Hconns Hq Hst Hus Hlut; [done|].
  apply NoDup_cons in Hnd as [Hnot Hnd].
  cbn [close_and_disconnect]. unfold bind at 1, close at 1.
  set (w0 := {| manager := manager w; redis_service := redis_service w;
                closed := {[ws]} ∪ closed w; sent := sent w |}).
  unfold bind at 1.
  destruct l as [|ws2 l].
  - destruct (disconnect_last w0 ws sid)
      as (w' & -> & Ha & Hq' & Hst' & Hus' & Hlut' & Hr & Hc & Hs); try done.
    { simpl. rewrite Hconns. f_equal. simpl. apply union_empty_r_L. }
    exists w'. split; [reflexivity|]. do 5 (split; [done|]).
    split; [done|]. split; [done|].
    intros x. rewrite Hc. simpl.
    rewrite elem_of_union, elem_of_singleton, elem_of_cons.
    split; [intros [->|?]; auto|].
    intros [[->|Hx]|Hx]; auto. by apply elem_of_nil in Hx.
  - assert (Hrest : list_to_set (ws :: ws2 :: l) ∖ {[ws]} =
                    (list_to_set (ws2 :: l) : gset nat)).
    { apply set_eq. intros x.
      rewrite elem_of_difference, elem_of_singleton, !elem_of_list_to_set, elem_of_cons.
      split; [intros [[->|Hx] Hn]; done|].
      intros Hx. split; [by right|]. intros ->. contradiction. }
    destruct (disconnect_others w0 ws sid (list_to_set (ws :: ws2 :: l)))
      as (w1 & -> & Ha & Hq1 & Hst1 & Hlut1 & _ & Hus1 & Hr1 & Hc1 & Hs1).
    { exact Hconns. }
    { rewrite Hrest. intros Hempty.
      assert (Hin : ws2 ∈ (list_to_set (ws2 :: l) : gset nat)).
      { apply elem_of_list_to_set. by left. }
      rewrite Hempty in Hin. by apply not_elem_of_empty in Hin. }
    destruct (IH w1) as (w' & Hrun & Ha' & Hq' & Hst' & Hus' & Hlut' & Hr & Hs & Hc);
      try done.
    + by rewrite Ha, lookup_insert_eq, Hrest.
    + by rewrite Hq1.
    + by rewrite Hst1.
    + rewrite Hus1. simpl.
      destruct (ws_to_user (manager w) !! ws); [|done].
      destruct Hus as [users Hus]. rewrite Hus. rewrite lookup_insert_eq. by eexists.
    + by rewrite Hlut1.
    + exists w'. split; [exact Hrun|]. do 5 (split; [done|]).
      split; [by rewrite Hr, Hr1|]. split; [by rewrite Hs, Hs1|].
      intros x. rewrite Hc, Hc1. simpl.
      rewrite elem_of_union, elem_of_singleton, (elem_of_cons (ws2 :: l) x ws). tauto.
Qed.

(** X21.  [delete_session] answers 404 for a session that is not live and
    changes nothing.  For a live session it closes every socket of the
    session and takes the session out of the manager, with nothing sent to
    anyone; the store is left as it is, so that the next [connect] to the
    session id resumes the counter of the persisted snapshot. *)
Theorem delete_session_tears_down (w : World) (sid : string) :
  (active_connections (manager w) !! sid = None ->
   delete_session sid w = (Ret (HTTPException 404 "Session not found"), w)) /\
  (forall conns,
     active_connections (manager w) !! sid = Some conns ->
     conns <> ∅ ->
     is_Some (session_seq (manager w) !! sid) ->
     is_Some (session_state (manager w) !! sid) ->
     is_Some (session_users (manager w) !! sid) ->
     is_Some (last_update_time (manager w) !! sid) ->
     exists w',
       delete_session sid w = (Ret (Response sid), w') /\
       get_session sid (manager w') = HTTPException 404 "Session not found" /\
       session_seq (manager w') !! sid = None /\
       session_state (manager w') !! sid = None /\
       session_users (manager w') !! sid = None /\
       last_update_time (manager w') !! sid = None /\
       redis_service w' = redis_service w /\
       sent w' = sent w /\
       (forall ws, ws ∈ closed w' <-> ws ∈ conns \/ ws ∈ closed w) /\
       (forall ws snap,
          load_session_state sid (redis_service w) = Some snap ->
          session_seq (manager (snd (connect ws sid w'))) !! sid = Some (snap_seq snap))).
Proof.
  split.
  - intros Hnone. unfold delete_session, bind, get_manager. by rewrite Hnone.
  - intros conns Hconns Hne Hq Hst Hus Hlut.
    destruct (close_and_disconnect_all sid (elements conns) w)
      as (w' & Hrun & Ha & Hq' & Hst' & Hus' & Hlut' & Hr & Hs & Hc); try done.
    + apply NoDup_elements.
    + intros Hnil. apply Hne. by apply elements_empty_inv, leibniz_equiv in Hnil.
    + by rewrite list_to_set_elements_L.
    + exists w'. split.
      { unfold delete_session, bind at 1, get_manager. rewrite Hconns.
        unfold bind. by rewrite Hrun. }
      split; [unfold get_session; by rewrite Ha|].
      do 6 (split; [done|]). split.
      * intros ws. rewrite Hc, elem_of_elements. tauto.
      * intros ws snap Hload.
        apply (connect_hydrates w' ws sid snap); [done|by rewrite Hr].
Qed.

Lemma delete_session_tears_down_witness :
  exists w',
    delete_session "s1" (world joined) = (Ret (Response "s1"), w') /\
    get_session "s1" (manager w') = HTTPException 404 "Session not found" /\
    session_seq (manager w') !! "s1" = None /\
    session_state (manager w') !! "s1" = None /\
    session_users (manager w') !! "s1" = None /\
    last_update_time (manager w') !! "s1" = None /\
    redis_service w' = redis_service (world joined) /\
    sent w' = sent (world joined) /\
    (forall ws, ws ∈ closed w' <->
                ws ∈ ({[ws_A; ws_B]} : gset nat) \/ ws ∈ closed (world joined)) /\
    (forall ws snap,
       load_session_state "s1" (redis_service (world joined)) = Some snap ->
       session_seq (manager (snd (connect ws "s1" w'))) !! "s1" = Some (snap_seq snap)).
Proof.
  apply (proj2 (delete_session_tears_down (world joined) "s1") {[ws_A; ws_B]}).
  - vm_compute. reflexivity.
  - intros Hempty.
    assert (Hin : ws_A ∈ ({[ws_A; ws_B]} : gset nat)).
    { apply elem_of_union. left. by apply elem_of_singleton. }
    rewrite Hempty in Hin. by apply not_elem_of_empty in Hin.
  - vm_compute. by eexists.
  - vm_compute. by eexists.
  - vm_compute. by eexists.
  - vm_compute. by eexists.
Defined.

(** *** The [auth] frame *)

Lemma add_user_run (w : World) (ws : nat) (sid : string) (user : User) :
  exists w1,
    add_user ws sid user w = (Ret tt, w1) /\
    active_connections (manager w1) = active_connections (manager w) /\
    session_seq (manager w1) = session_seq (manager w) /\
    session_state (manager w1) = session_state (manager w) /\
    last_update_time (manager w1) = last_update_time (manager w) /\
    ws_to_user (manager w1) = <[ws := id user]> (ws_to_user (manager w)) /\
    session_users (manager w1) =
      <[sid := dict_set (id user) user (default [] (session_users (manager w) !! sid))]>
        (session_users (manager w)) /\
    redis_service w1 = add_user_to_session sid (id user) user (redis_service w) /\
    closed w1 = closed w /\
    sent w1 = sent w.
Proof.
  unfold add_user. monad_unfold.
  destruct (session_users (manager w) !! sid) as [users|] eqn:Hus; simpl.
  - rewrite Hus. simpl. eexists. split; [reflexivity|]. simpl.
    repeat split; reflexivity.
  - rewrite lookup_insert_eq. simpl. eexists. split; [reflexivity|]. simpl.
    rewrite insert_insert_eq. repeat split; reflexivity.
Qed.

Lemma broadcast_joined_accepted (w : World) (ws : nat) (sid : string) (user : User)
    (now : Z) (conns : gset nat) (n : Z) :
  active_connections (manager w) !! sid = Some conns ->
  session_seq (manager w) !! sid = Some n ->
  (forall c, c ∈ conns -> c <> ws -> c ∉ closed w) ->
  broadcast sid (SessionJoined user) (Some ws) now w =
    (Ret tt,
     {| manager := set_session_seq <[sid := n + 1]> (manager w);
        redis_service := redis_service w;
        closed := closed w;
        sent := sent w ++
                map (fun c => (c, {| msg_payload := SessionJoined user;
                                     msg_seq := Some (n + 1);
                                     msg_timestamp := Some now |}))
                    (filter (fun c => c <> ws) (elements conns)) |}).
Proof.
  intros Hconns Hn Hopen.
  unfold broadcast, bind at 1, get_manager. rewrite Hconns.
  unfold bind at 1, getitem. rewrite Hn. simpl.
  unfold bind at 1, modify_manager. unfold bind at 1, record_update, ret.
  unfold fan_out, bind at 1, get_manager. simpl.
  unfold bind at 1, getitem. rewrite Hconns. simpl.
  unfold bind at 1. rewrite send_all_spec. simpl.
  destruct (open_recipients (elements conns) ws (closed w)) as [Hdead Hlive].
  { intros c Hc'. apply Hopen. by apply elem_of_elements. }
  rewrite Hdead, Hlive. reflexivity.
Qed.

(** X22.  An [auth] frame with a token that verifies, on a live session whose
    other sockets are open: the user is entered in the roster under the user
    id of the token (an entry of that id is replaced, the others stay) and in
    the store's presence, the socket is mapped to that id, and the local
    [user_id] becomes it.  The sender is sent [auth:success] with the roster
    and with the state and counter as they are before the join is broadcast;
    every other socket is sent [session:joined] with the next sequence number,
    which the counter then holds. *)
Theorem auth_success_joins (w : World) (ws : nat) (sid : string) (uid : option string)
    (t : Token) (colour : option string) (now : Z) (td : TokenData)
    (conns : gset nat) (n : Z) :
  verify_token auth_service now t = Some td ->
  active_connections (manager w) !! sid = Some conns ->
  session_seq (manager w) !! sid = Some n ->
  ws ∉ closed w ->
  (forall c, c ∈ conns -> c <> ws -> c ∉ closed w) ->
  let user :=
    {| id := user_id td; name := username td; avatar := None;
       color := Some (default (if is_anonymous td then "#8b5cf6" else "#06b6d4") colour) |} in
  let roster :=
    dict_set (user_id td) user (default [] (session_users (manager w) !! sid)) in
  exists w',
    handle_message ws sid uid (Auth (Some t) colour) now w = (Ret tt, w') /\
    next_user_id uid (Auth (Some t) colour) now = Some (user_id td) /\
    ws_to_user (manager w') !! ws = Some (user_id td) /\
    session_users (manager w') !! sid = Some roster /\
    dict_get (user_id td) roster = Some user /\
    session_seq (manager w') !! sid = Some (n + 1) /\
    session_state (manager w') = session_state (manager w) /\
    redis_service w' = add_user_to_session sid (user_id td) user (redis_service w) /\
    sent w' =
      sent w ++
      (ws, direct (AuthSuccess sid (user_id td) (map snd roster)
                     (get_session_state sid (manager w)))) ::
      map (fun c => (c, {| msg_payload := SessionJoined user; msg_seq := Some (n + 1);
                           msg_timestamp := Some now |}))
          (filter (fun c => c <> ws) (elements conns)).
Proof.
  intros Hver Hconns Hn Hws Hopen user roster.
  destruct (add_user_run w ws sid user)
    as (w1 & Hadd & Ha & Hq & Hst & Hlut & Hmap & Hus & Hr & Hc & Hs).
  assert (Hget : dict_get (user_id td) roster = Some user).
  { subst roster. generalize (default [] (session_users (manager w) !! sid)).
    intros d. induction d as [|[k v] d IH]; simpl.
    - by rewrite String.eqb_refl.
    - destruct (String.eqb_spec k (user_id td)) as [->|Hne]; simpl.
      + by rewrite String.eqb_refl.
      + destruct (String.eqb_spec k (user_id td)); [done|]. exact IH. }
  unfold handle_message, next_user_id. rewrite Hver.
  fold user. unfold bind at 1. rewrite Hadd.
  unfold bind at 1, get_manager. unfold bind at 1, send_json at 1.
  rewrite decide_False by (by rewrite Hc).
  rewrite (broadcast_joined_accepted _ ws sid user now conns n).
  - eexists. split; [reflexivity|]. simpl.
    split; [reflexivity|].
    split; [by rewrite Hmap, lookup_insert_eq|].
    split; [by rewrite Hus, lookup_insert_eq|].
    split; [exact Hget|].
    split; [apply lookup_insert_eq|].
    split; [exact Hst|].
    split; [exact Hr|].
    rewrite Hs, <- app_assoc. simpl. f_equal. f_equal. f_equal.
    unfold get_session_users, get_session_state.
    rewrite Hus, lookup_insert_eq, Hst, Hq. reflexivity.
  - simpl. by rewrite Ha.
  - simpl. by rewrite Hq.
  - simpl. intros c Hin Hne. rewrite Hc. by apply Hopen.
Qed.

(** X23.  An [auth] frame without a token, or with a token that does not
    verify, is answered with [auth:failed] to the sender alone and changes
    neither the manager nor the store; the local [user_id] stays what it was,
    so a connection that had authenticated before keeps its identity. *)
Theorem auth_failure_keeps_identity (w : World) (ws : nat) (sid : string)
    (uid : option string) (token : option Token) (colour : option string) (now : Z) :
  (forall t, token = Some t -> verify_token auth_service now t = None) ->
  ws ∉ closed w ->
  handle_message ws sid uid (Auth token colour) now w =
    (Ret tt,
     {| manager := manager w; redis_service := redis_service w; closed := closed w;
        sent := sent w ++
                [(ws, direct (AuthFailed "Invalid or missing authentication token"))] |}) /\
  next_user_id uid (Auth token colour) now = uid.
Proof.
  intros Hbad Hws. unfold handle_message, next_user_id, send_json.
  destruct token as [t|].
  - rewrite (Hbad t eq_refl). by rewrite decide_False.
  - by rewrite decide_False.
Qed.

(** X24.  As long as the local [user_id] is [None] or the empty string, a
    [param:update] and a [conflict:resolved] frame are dropped: nothing
    changes and nothing is sent, not even an answer to the sender; and when
    such a connection ends, the [finally] clause broadcasts no
    [session:left]. *)
Theorem unauthenticated_frames_are_dropped (w : World) (ws : nat) (sid : string)
    (uid : option string) (now : Z) :
  truthy uid = false ->
  (forall params, handle_message ws sid uid (ParamUpdate params) now w = (Ret tt, w)) /\
  (forall param value,
     handle_message ws sid uid (ConflictResolved param value) now w = (Ret tt, w)) /\
  finalize ws sid uid now w = disconnect ws sid w.
Proof.
  intros Hfalse. unfold handle_message, finalize.
  destruct uid as [me|]; rewrite ?Hfalse; simpl.
  - repeat split; try reflexivity.
    unfold bind. destruct (disconnect ws sid w) as [[[]|e] w']; reflexivity.
  - repeat split; try reflexivity.
    unfold bind. destruct (disconnect ws sid w) as [[[]|e] w']; reflexivity.
Qed.




(** *** The [conflict:resolved] frame *)

(** X25.  A [conflict:resolved] frame of an authenticated connection is
    applied without any conflict check, whatever the update times of the
    session are: the value is assigned, the update time of the parameter is
    set to the clock reading, [beta] is recomputed, the counter advances and
    the other sockets are sent the [param:broadcast] with the new sequence
    number. *)
Theorem conflict_resolved_is_applied_unchecked (w : World) (ws : nat) (sid me param : string)
    (value : float) (now : Z) (conns : gset nat) (n : Z) (st : SessionState)
    (times : gmap string Z) :
  me <> "" ->
  active_connections (manager w) !! sid = Some conns ->
  session_seq (manager w) !! sid = Some n ->
  session_state (manager w) !! sid = Some st ->
  last_update_time (manager w) !! sid = Some times ->
  lookup_attr param <> attr_other ->
  (forall c, c ∈ conns -> c <> ws -> c ∉ closed w) ->
  exists w',
    handle_message ws sid (Some me) (ConflictResolved param value) now w = (Ret tt, w') /\
    session_seq (manager w') !! sid = Some (n + 1) /\
    session_state (manager w') !! sid =
      Some (compute_beta (match setattr st param value with
                          | Ret st1 => st1
                          | Raise _ => st
                          end)) /\
    last_update_time (manager w') !! sid =
      Some (if hasattr param then <[param := now]> times else times) /\
    sent w' =
      sent w ++
      map (fun c => (c, {| msg_payload := ParamBroadcast me [(param, value)];
                           msg_seq := Some (n + 1); msg_timestamp := Some now |}))
          (filter (fun c => c <> ws) (elements conns)).
Proof.
  intros Hme Hconns Hn Hst Htimes Hattr Hopen.
  unfold handle_message, truthy.
  apply String.eqb_neq in Hme. rewrite Hme. simpl.
  assert (Hloop : exists w1,
            apply_params sid [(param, value)] now
              (snd (modify_manager (set_session_seq <[sid := n + 1]>) w)) = (Ret tt, w1) /\
            session_state (manager w1) !! sid =
              Some (match setattr st param value with Ret st1 => st1 | Raise _ => st end) /\
            last_update_time (manager w1) !! sid =
              Some (if hasattr param then <[param := now]> times else times)).
  { simpl. monad_unfold. rewrite Hst. simpl. unfold hasattr, setattr.
    destruct (lookup_attr param); try contradiction; simpl;
      rewrite ?Htimes; simpl;
      (eexists; split; [reflexivity|]; simpl; rewrite ?lookup_insert_eq; by rewrite ?Hst). }
  destruct Hloop as (w1 & Hloop & Hst1 & Hlut1).
  rewrite (broadcast_param_accepted w w1 ws sid me _ now conns n _
             Hconns Hn Hloop Hst1 Hopen).
  eexists. split; [reflexivity|]. simpl.
  rewrite lookup_insert_eq.
  pose proof (apply_params_frame _ _ _ _ _ _ Hloop) as (_ & _ & _ & _ & Hq & _).
  simpl in Hq. rewrite Hq, lookup_insert_eq.
  repeat split; try reflexivity. exact Hlut1.
Qed.

(** *** What holds in every state the server reaches *)

Lemma dict_del_keys {V} (k : string) (d : list (string * V)) :
  NoDup (map fst d) -> NoDup (map fst (dict_del k d)).
Proof.
  induction d as [|[k' v] d IH]; simpl; [done|].
  intros Hnd. apply NoDup_cons in Hnd as [Hnot Hnd].
  destruct (String.eqb k' k); [done|]. simpl. apply NoDup_cons. split; [|auto].
  intros Hin. apply Hnot. clear -Hin.
  induction d as [|[k2 v2] d IH]; simpl in *; [done|].
  destruct (String.eqb k2 k); [by right|]. simpl in Hin.
  apply elem_of_cons in Hin as [->|Hin]; [by left|right; auto].
Qed.

(** The invariant is checked at the session the step works on and at the
    others. *)
Ltac at_session sid0 sid :=
  destruct (decide (sid0 = sid)) as [->|?];
  [ rewrite ?lookup_insert_eq, ?lookup_delete_eq in *
  | rewrite ?lookup_insert_ne, ?lookup_delete_ne in * by done ].

Ltac hub_inv_solve Hinv sid :=
  let H1 := fresh "H1" in let H2 := fresh "H2" in
  let H3 := fresh "H3" in let H4 := fresh "H4" in
  destruct Hinv as (H1 & H2 & H3 & H4);
  split; [|split; [|split]]; simpl;
  [ intros sid0 [n0 Hs]; at_session sid0 sid; try congruence; eauto
  | intros sid0 [t0 Hs]; at_session sid0 sid; try congruence; eauto;
    try (destruct (H2 sid) as [[? ?] [? ?]]; [by eauto|]; split; eauto; congruence)
  | intros sid0 times0 key0 t0 Hs Hk; at_session sid0 sid; try congruence;
    try (injection Hs as <-); try (by rewrite lookup_empty in Hk); eauto
  | intros sid0 users0 Hs; at_session sid0 sid; try congruence; eauto;
    try (injection Hs as <-); eauto using dict_del_keys, NoDup_nil_2 ].

Lemma teardown_hub_inv (sid : string) :
  preserves hub_inv
    (delitem active_connections set_active_connections sid;;
     delitem session_seq set_session_seq sid;;
     delitem session_state set_session_state sid;;
     delitem session_users set_session_users sid;;
     delitem last_update_time set_last_update_time sid).
Proof.
  intros w w' r. monad_unfold.
  destruct (active_connections (manager w) !! sid) eqn:Ha; simpl;
    [|by intros [= <- <-]].
  destruct (session_seq (manager w) !! sid) eqn:Hq; simpl;
    [|intros [= <- <-] Hinv; simpl; hub_inv_solve Hinv sid].
  destruct (session_state (manager w) !! sid) eqn:Hst; simpl;
    [|intros [= <- <-] Hinv; simpl; hub_inv_solve Hinv sid].
  destruct (session_users (manager w) !! sid) eqn:Hus; simpl;
    [|intros [= <- <-] Hinv; simpl; hub_inv_solve Hinv sid].
  destruct (last_update_time (manager w) !! sid) eqn:Hlut; simpl;
    intros [= <- <-] Hinv; simpl; hub_inv_solve Hinv sid.
Qed.

Lemma disconnect_hub_inv (ws : nat) (sid : string) : preserves hub_inv (disconnect ws sid).
Proof.
  intros w w' r. unfold disconnect, bind at 1, get_manager.
  destruct (active_connections (manager w) !! sid) as [conns|] eqn:Hconns;
    [|by intros [= <- <-]].
  unfold bind at 1, modify_manager at 1. unfold bind at 1.
  match goal with
  | |- context [decide (?c = ∅)] => generalize (decide (c = ∅))
  end.
  intros Hdec Hrun Hinv.
  assert (Hmid : exists w0,
    hub_inv (manager w0) /\
    (if Hdec then
       delitem active_connections set_active_connections sid;;
       delitem session_seq set_session_seq sid;;
       delitem session_state set_session_state sid;;
       delitem session_users set_session_users sid;;
       delitem last_update_time set_last_update_time sid
     else ret tt) w0 = (r, w')).
  { destruct (ws_to_user (manager w) !! ws) as [uid|] eqn:Hu.
    - unfold bind at 1, modify_manager at 1 in Hrun.
      destruct (session_users (manager w) !! sid) as [users|] eqn:Hus.
      + destruct (dict_get uid users) eqn:Hg.
        * eexists. split; [|exact Hrun]. simpl. hub_inv_solve Hinv sid.
        * eexists. split; [|exact Hrun]. simpl. hub_inv_solve Hinv sid.
      + eexists. split; [|exact Hrun]. simpl. hub_inv_solve Hinv sid.
    - eexists. split; [|exact Hrun]. simpl. hub_inv_solve Hinv sid. }
  destruct Hmid as (w0 & Hinv0 & Hrun0). destruct Hdec.
  - eapply teardown_hub_inv; eauto.
  - by injection Hrun0 as <- <-.
Qed.

Lemma disconnect_all_hub_inv (dead : list nat) (sid : string) :
  preserves hub_inv (disconnect_all dead sid).
Proof.
  induction dead as [|ws rest IH]; simpl; [apply preserves_ret|].
  apply preserves_bind; [apply disconnect_hub_inv|]. auto.
Qed.

Lemma connect_hub_inv (ws : nat) (sid : string) : preserves hub_inv (connect ws sid).
Proof.
  intros w w' r. unfold connect. monad_unfold.
  destruct (active_connections (manager w) !! sid) as [conns|] eqn:Hconns; simpl.
  - rewrite Hconns. simpl. intros [= <- <-] Hinv. simpl. hub_inv_solve Hinv sid.
  - destruct (load_session_state sid (redis_service w)) as [snap|]; simpl.
    + destruct (SessionState_init _ _ _ _); simpl; rewrite ?lookup_insert_eq; simpl;
        intros [= <- <-] Hinv; simpl; hub_inv_solve Hinv sid.
    + rewrite lookup_insert_eq. simpl.
      intros [= <- <-] Hinv; simpl; hub_inv_solve Hinv sid.
Qed.

Lemma dict_set_keys {V} (k : string) (v : V) (d : list (string * V)) :
  NoDup (map fst d) -> NoDup (map fst (dict_set k v d)).
Proof.
  induction d as [|[k' v'] d IH]; simpl.
  - intros _. apply NoDup_singleton.
  - intros Hnd. apply NoDup_cons in Hnd as [Hnot Hnd].
    destruct (String.eqb_spec k' k) as [->|Hne]; simpl.
    + by apply NoDup_cons.
    + apply NoDup_cons. split; [|auto].
      intros Hin. apply Hnot. clear -Hin Hne.
      induction d as [|[k2 v2] d IH]; simpl in *.
      * apply list_elem_of_singleton in Hin. congruence.
      * destruct (String.eqb_spec k2 k) as [->|Hne2]; simpl in Hin.
        -- apply elem_of_cons in Hin as [->|Hin]; [done|by right].
        -- apply elem_of_cons in Hin as [->|Hin]; [by left|right; auto].
Qed.

Lemma add_user_hub_inv (ws : nat) (sid : string) (user : User) :
  preserves hub_inv (add_user ws sid user).
Proof.
  intros w w' r Hrun Hinv.
  destruct (add_user_run w ws sid user)
    as (w1 & Hadd & Ha & Hq & Hst & Hlut & _ & Hus & _).
  rewrite Hadd in Hrun. injection Hrun as <- <-.
  destruct Hinv as (H1 & H2 & H3 & H4).
  split; [|split; [|split]].
  - intros sid0. rewrite Hq, Ha. apply H1.
  - intros sid0. rewrite Hlut, Hst, Hus. intros Hl. destruct (H2 _ Hl) as [? ?].
    split; [done|]. destruct (decide (sid0 = sid)) as [->|?].
    + rewrite lookup_insert_eq. by eexists.
    + by rewrite lookup_insert_ne.
  - intros sid0 times key t. rewrite Hlut. apply H3.
  - intros sid0 users. rewrite Hus. destruct (decide (sid0 = sid)) as [->|?].
    + rewrite lookup_insert_eq. intros [= <-]. apply dict_set_keys.
      destruct (session_users (manager w) !! sid) eqn:Hu; simpl; [eauto|apply NoDup_nil_2].
    + rewrite lookup_insert_ne by done. apply H4.
Qed.

Lemma setattr_field (st st' : SessionState) (key : string) (value : float) :
  setattr st key value = Ret st' -> is_field key = true.
Proof. unfold setattr, is_field. by destruct (lookup_attr key). Qed.

Lemma apply_params_hub_inv (sid : string) (params : list (string * float)) (now : Z) :
  preserves hub_inv (apply_params sid params now).
Proof.
  induction params as [|[key value] rest IH]; simpl; [apply preserves_ret|].
  intros w w' r. monad_unfold.
  destruct (session_state (manager w) !! sid) as [st|] eqn:Hst; simpl;
    [|by intros [= <- <-]].
  destruct (hasattr key) eqn:Hkey; simpl.
  - destruct (setattr st key value) as [st'|e] eqn:Hset; simpl; [|by intros [= <- <-]].
    destruct (last_update_time (manager w) !! sid) as [times|] eqn:Htimes; simpl.
    + intros Hrun Hinv. eapply IH; [exact Hrun|]. simpl.
      apply setattr_field in Hset.
      hub_inv_solve Hinv sid.
      destruct (decide (key0 = key)) as [->|?]; [done|].
      rewrite lookup_insert_ne in Hk by done. eauto.
    + intros [= <- <-] Hinv. simpl. hub_inv_solve Hinv sid.
  - intros Hrun Hinv. eapply IH; eauto.
Qed.

Lemma record_update_hub_inv (sid : string) (p : Payload) (now : Z) :
  preserves hub_inv (record_update sid p now).
Proof.
  destruct p; simpl; try apply preserves_ret.
  apply preserves_bind; [apply apply_params_hub_inv|]. intros _.
  intros w w' r. monad_unfold.
  destruct (session_state (manager w) !! sid) as [st|] eqn:Hst; simpl;
    [|by intros [= <- <-]].
  rewrite lookup_insert_eq. simpl.
  destruct (session_seq (manager w) !! sid) eqn:Hq; simpl;
    intros [= <- <-] Hinv; simpl; hub_inv_solve Hinv sid.
Qed.

Lemma fan_out_hub_inv (sid : string) (message : Message) (exclude : option nat) :
  preserves hub_inv (fan_out sid message exclude).
Proof.
  unfold fan_out.
  repeat first
    [ apply preserves_bind; [|intros ?]
    | apply preserves_get_manager | apply preserves_getitem
    | apply preserves_send_all | apply disconnect_all_hub_inv ].
Qed.

Lemma broadcast_hub_inv (sid : string) (p : Payload) (exclude : option nat) (now : Z) :
  preserves hub_inv (broadcast sid p exclude now).
Proof.
  intros w w' r. unfold broadcast, bind at 1, get_manager.
  destruct (active_connections (manager w) !! sid) as [conns|] eqn:Hconns;
    [|by intros [= <- <-]].
  unfold bind at 1, getitem.
  destruct (session_seq (manager w) !! sid) as [old|] eqn:Hq; [|by intros [= <- <-]].
  unfold ret at 1. unfold bind at 1, modify_manager at 1.
  intros Hrun Hinv.
  eapply (preserves_bind hub_inv (record_update sid p now)
            (fun _ => fan_out sid _ exclude)); [| |exact Hrun|].
  - apply record_update_hub_inv.
  - intros _. apply fan_out_hub_inv.
  - simpl. hub_inv_solve Hinv sid.
Qed.

Lemma handle_message_hub_inv (ws : nat) (sid : string) (uid : option string)
    (data : ClientMessage) (now : Z) :
  preserves hub_inv (handle_message ws sid uid data now).
Proof.
  unfold handle_message.
  repeat first
    [ apply broadcast_hub_inv | apply add_user_hub_inv | apply preserves_send_conflicts
    | apply preserves_send_json | apply preserves_lift_outcome
    | apply preserves_bind; [|intros ?]
    | apply preserves_get_manager | apply preserves_ret
    | case_match ].
Qed.

Lemma finalize_hub_inv (ws : nat) (sid : string) (uid : option string) (now : Z) :
  preserves hub_inv (finalize ws sid uid now).
Proof.
  unfold finalize.
  repeat first
    [ apply broadcast_hub_inv | apply disconnect_hub_inv
    | apply preserves_bind; [|intros ?]
    | apply preserves_ret
    | case_match ].
Qed.

Lemma step_hub_inv (now : Z) (e : Event) (s : System) :
  hub_inv (manager (world s)) ->
  hub_inv (manager (world (step now e s))).
Proof.
  intros Hs. destruct e as [ws sid|ws data|ws|ws]; simpl.
  - destruct (tasks s !! ws); [done|].
    destruct (connect ws sid (world s)) as [[[]|e] w] eqn:Hrun; simpl;
      eapply connect_hub_inv; eauto.
  - destruct (tasks s !! ws) as [t|]; [|done].
    destruct (handle_message ws (task_session t) (task_user t) data now (world s))
      as [[[]|e] w] eqn:Hrun; simpl.
    + eapply handle_message_hub_inv; eauto.
    + eapply finalize_hub_inv; [apply surjective_pairing|].
      eapply handle_message_hub_inv; eauto.
  - destruct (tasks s !! ws) as [t|]; [|done]. simpl.
    eapply finalize_hub_inv; [apply surjective_pairing|]. done.
  - done.
Qed.

Lemma run_hub_inv (events : list (Z * Event)) (s : System) :
  hub_inv (manager (world s)) ->
  hub_inv (manager (world (run events s))).
Proof.
  revert s. induction events as [|[now e] rest IH]; intros s Hs; [done|].
  simpl. apply IH. by apply step_hub_inv.
Qed.

Lemma init_hub_inv (r : RedisService) : hub_inv (manager (world (system_init r))).
Proof.
  split; [|split; [|split]]; simpl.
  - intros sid [n Hn]. by rewrite lookup_empty in Hn.
  - intros sid [t Ht]. by rewrite lookup_empty in Ht.
  - intros sid times key t Ht. by rewrite lookup_empty in Ht.
  - intros sid users Hu. by rewrite lookup_empty in Hu.
Qed.




(** *** The counter of a live session *)

Lemma seq_mono_refl (m : ConnectionManager) : seq_mono m m.
Proof. intros sid n Hn. exists n. split; [done|lia]. Qed.

Lemma seq_mono_trans (m1 m2 m3 : ConnectionManager) :
  seq_mono m1 m2 -> seq_mono m2 m3 -> seq_mono m1 m3.
Proof.
  intros H12 H23 sid n3 Hn3.
  destruct (H23 _ _ Hn3) as (n2 & Hn2 & Hle2).
  destruct (H12 _ _ Hn2) as (n1 & Hn1 & Hle1).
  exists n1. split; [done|lia].
Qed.

Lemma seq_mono_same (m m' : ConnectionManager) :
  session_seq m' = session_seq m -> seq_mono m m'.
Proof. intros Heq sid n. rewrite Heq. intros Hn. exists n. split; [done|lia]. Qed.

Lemma seq_mono_delete (m : ConnectionManager) (sid : string) :
  seq_mono m (set_session_seq (delete sid) m).
Proof.
  intros sid' n. simpl. intros Hn. apply lookup_delete_Some in Hn as [_ Hn].
  exists n. split; [done|lia].
Qed.

Lemma seq_mono_next (m : ConnectionManager) (sid : string) (old : Z) :
  session_seq m !! sid = Some old ->
  seq_mono m (set_session_seq <[sid := old + 1]> m).
Proof.
  intros Hold sid' n. simpl. destruct (decide (sid' = sid)) as [->|Hne].
  - rewrite lookup_insert_eq. intros [= <-]. exists old. split; [done|lia].
  - rewrite lookup_insert_ne by done. intros Hn. exists n. split; [done|lia].
Qed.

Ltac seq_mono_step Hm :=
  eapply seq_mono_trans; [exact Hm|];
  first [ apply seq_mono_delete | by apply seq_mono_same ].

Lemma disconnect_seq_mono (m0 : ConnectionManager) (ws : nat) (sid : string) :
  preserves (seq_mono m0) (disconnect ws sid).
Proof.
  unfold disconnect, delitem.
  repeat first
    [ apply preserves_bind; [|intros ?]
    | apply preserves_get_manager | apply preserves_ret
    | apply preserves_raise
    | apply preserves_modify_manager; intros m' Hm; seq_mono_step Hm
    | case_match ].
Qed.

Lemma disconnect_all_seq_mono (m0 : ConnectionManager) (dead : list nat) (sid : string) :
  preserves (seq_mono m0) (disconnect_all dead sid).
Proof.
  induction dead as [|ws rest IH]; simpl; [apply preserves_ret|].
  apply preserves_bind; [apply disconnect_seq_mono|]. auto.
Qed.

Lemma record_update_seq_mono (m0 : ConnectionManager) (sid : string) (p : Payload)
    (now : Z) :
  preserves (seq_mono m0) (record_update sid p now).
Proof.
  intros w w' r Hrun Hm.
  apply record_update_frame in Hrun as (_ & _ & _ & Hq & _).
  eapply seq_mono_trans; [exact Hm|]. by apply seq_mono_same.
Qed.

Lemma fan_out_seq_mono (m0 : ConnectionManager) (sid : string) (message : Message)
    (exclude : option nat) :
  preserves (seq_mono m0) (fan_out sid message exclude).
Proof.
  unfold fan_out.
  repeat first
    [ apply preserves_bind; [|intros ?]
    | apply preserves_get_manager | apply preserves_getitem
    | apply preserves_send_all | apply disconnect_all_seq_mono ].
Qed.

Lemma broadcast_seq_mono (m0 : ConnectionManager) (sid : string) (p : Payload)
    (exclude : option nat) (now : Z) :
  preserves (seq_mono m0) (broadcast sid p exclude now).
Proof.
  intros w w' r. unfold broadcast, bind at 1, get_manager.
  destruct (active_connections (manager w) !! sid) as [conns|] eqn:Hconns;
    [|by intros [= <- <-]].
  unfold bind at 1, getitem.
  destruct (session_seq (manager w) !! sid) as [old|] eqn:Hq; [|by intros [= <- <-]].
  unfold ret at 1. unfold bind at 1, modify_manager at 1.
  intros Hrun Hm.
  eapply (preserves_bind (seq_mono m0) (record_update sid p now)
            (fun _ => fan_out sid _ exclude)); [| |exact Hrun|].
  - apply record_update_seq_mono.
  - intros _. apply fan_out_seq_mono.
  - simpl. eapply seq_mono_trans; [exact Hm|]. by apply seq_mono_next.
Qed.

Lemma add_user_seq_mono (m0 : ConnectionManager) (ws : nat) (sid : string) (user : User) :
  preserves (seq_mono m0) (add_user ws sid user).
Proof.
  intros w w' r Hrun Hm.
  destruct (add_user_run w ws sid user) as (w1 & Hadd & _ & Hq & _).
  rewrite Hadd in Hrun. injection Hrun as <- <-.
  eapply seq_mono_trans; [exact Hm|]. by apply seq_mono_same.
Qed.

Lemma handle_message_seq_mono (m0 : ConnectionManager) (ws : nat) (sid : string)
    (uid : option string) (data : ClientMessage) (now : Z) :
  preserves (seq_mono m0) (handle_message ws sid uid data now).
Proof.
  unfold handle_message.
  repeat first
    [ apply broadcast_seq_mono | apply add_user_seq_mono | apply preserves_send_conflicts
    | apply preserves_send_json | apply preserves_lift_outcome
    | apply preserves_bind; [|intros ?]
    | apply preserves_get_manager | apply preserves_ret
    | case_match ].
Qed.

Lemma finalize_seq_mono (m0 : ConnectionManager) (ws : nat) (sid : string)
    (uid : option string) (now : Z) :
  preserves (seq_mono m0) (finalize ws sid uid now).
Proof.
  unfold finalize.
  repeat first
    [ apply broadcast_seq_mono | apply disconnect_seq_mono
    | apply preserves_bind; [|intros ?]
    | apply preserves_ret
    | case_match ].
Qed.

Lemma connect_live_seq (w w' : World) (ws : nat) (sid : string) (r : outcome unit) :
  is_Some (active_connections (manager w) !! sid) ->
  connect ws sid w = (r, w') ->
  session_seq (manager w') = session_seq (manager w).
Proof.
  intros [conns Hconns]. unfold connect. monad_unfold. rewrite Hconns. simpl.
  rewrite Hconns. simpl. by intros [= <- <-].
Qed.

Lemma connect_other_seq (w w' : World) (ws : nat) (sid sid' : string) (r : outcome unit) :
  sid' <> sid ->
  connect ws sid w = (r, w') ->
  session_seq (manager w') !! sid' = session_seq (manager w) !! sid'.
Proof.
  intros Hne. unfold connect. monad_unfold.
  destruct (active_connections (manager w) !! sid) as [conns|] eqn:Hconns; simpl.
  - rewrite Hconns. simpl. by intros [= <- <-].
  - destruct (load_session_state sid (redis_service w)) as [snap|]; simpl.
    + destruct (SessionState_init _ _ _ _); simpl; rewrite ?lookup_insert_eq; simpl;
        intros [= <- <-]; simpl; by rewrite lookup_insert_ne.
    + rewrite lookup_insert_eq. simpl. intros [= <- <-]. simpl. by rewrite lookup_insert_ne.
Qed.

Lemma step_seq (now : Z) (e : Event) (s : System) (sid : string) (n n' : Z) :
  hub_inv (manager (world s)) ->
  session_seq (manager (world s)) !! sid = Some n ->
  session_seq (manager (world (step now e s))) !! sid = Some n' ->
  n <= n'.
Proof.
  intros Hinv Hn.
  assert (Hmono : forall m', seq_mono (manager (world s)) m' ->
                             session_seq m' !! sid = Some n' -> n <= n').
  { intros m' Hm Hn'. destruct (Hm _ _ Hn') as (n0 & Hn0 & Hle). congruence. }
  assert (Hsame : session_seq (manager (world s)) !! sid = Some n' -> n <= n').
  { intros Hn'. assert (n = n') by congruence. lia. }
  destruct e as [ws sid'|ws data|ws|ws]; simpl.
  - destruct (tasks s !! ws); [exact Hsame|].
    destruct (connect ws sid' (world s)) as [r w] eqn:Hrun.
    assert (Hsame' : session_seq (manager w) !! sid = session_seq (manager (world s)) !! sid).
    { destruct (decide (sid = sid')) as [->|Hne].
      - rewrite (connect_live_seq _ _ _ _ _ ltac:(apply Hinv; eauto) Hrun). done.
      - by apply (connect_other_seq _ _ _ _ _ _ Hne Hrun). }
    destruct r as [[]|e]; simpl; rewrite Hsame'; exact Hsame.
  - destruct (tasks s !! ws) as [t|]; [|exact Hsame].
    destruct (handle_message ws (task_session t) (task_user t) data now (world s))
      as [[[]|e] w] eqn:Hrun; simpl; apply Hmono.
    + eapply handle_message_seq_mono; [exact Hrun|apply seq_mono_refl].
    + eapply finalize_seq_mono; [apply surjective_pairing|].
      eapply handle_message_seq_mono; [exact Hrun|apply seq_mono_refl].
  - destruct (tasks s !! ws) as [t|]; [|exact Hsame]. simpl. apply Hmono.
    eapply finalize_seq_mono; [apply surjective_pairing|apply seq_mono_refl].
  - exact Hsame.
Qed.

(** X27.  In every state that the server reaches, no event makes the counter
    of a session go down: when a session has a counter before and after the
    handling of an event (a connection opening, a frame, a disconnection), the
    counter after is at least the counter before. *)
Theorem counter_never_decreases (r : RedisService) (events : list (Z * Event)) (now : Z)
    (e : Event) (sid : string) (n n' : Z) :
  let s := run events (system_init r) in
  session_seq (manager (world s)) !! sid = Some n ->
  session_seq (manager (world (step now e s))) !! sid = Some n' ->
  n <= n'.
Proof.
  intros s. apply step_seq. apply run_hub_inv, init_hub_inv.
Qed.

End HubMore.

(** ** The scenarios, continued *)

Lemma auth_success_joins_witness :
  let user := {| id := "A"; name := "Alice"; avatar := None; color := Some "#06b6d4" |} in
  let roster :=
    dict_set "A" user (default [] (session_users (manager (world opened)) !! "s1")) in
  exists w',
    handle_message (E := dev_env) ws_A "s1" None (Auth (Some token_A) None) 2000
      (world opened) = (Ret tt, w') /\
    next_user_id (E := dev_env) None (Auth (Some token_A) None) 2000 = Some "A" /\
    ws_to_user (manager w') !! ws_A = Some "A" /\
    session_users (manager w') !! "s1" = Some roster /\
    dict_get "A" roster = Some user /\
    session_seq (manager w') !! "s1" = Some (0 + 1) /\
    session_state (manager w') = session_state (manager (world opened)) /\
    redis_service w' = add_user_to_session "s1" "A" user (redis_service (world opened)) /\
    sent w' =
      sent (world opened) ++
      (ws_A, direct (AuthSuccess "s1" "A" (map snd roster)
                       (get_session_state "s1" (manager (world opened))))) ::
      map (fun c => (c, {| msg_payload := SessionJoined user; msg_seq := Some (0 + 1);
                           msg_timestamp := Some 2000 |}))
          (filter (fun c => c <> ws_A) (elements ({[ws_A]} : gset nat))).
Proof.
  apply (auth_success_joins (E := dev_env) (world opened) ws_A "s1" None token_A None 2000
           {| user_id := "A"; username := "Alice"; email := None; is_anonymous := false;
              exp := 86400 |} {[ws_A]} 0).
  - vm_compute. reflexivity.
  - vm_compute. reflexivity.
  - vm_compute. reflexivity.
  - assert (Hc : closed (world opened) = ∅) by (vm_compute; reflexivity).
    rewrite Hc. apply not_elem_of_empty.
  - intros c _ _.
    assert (Hc : closed (world opened) = ∅) by (vm_compute; reflexivity).
    rewrite Hc. apply not_elem_of_empty.
Defined.

Lemma auth_failure_keeps_identity_witness :
  handle_message (E := dev_env) ws_A "s1" (Some "A") (Auth None None) 5000 (world joined) =
    (Ret tt,
     {| manager := manager (world joined); redis_service := redis_service (world joined);
        closed := closed (world joined);
        sent := sent (world joined) ++
                [(ws_A, direct (AuthFailed "Invalid or missing authentication token"))] |}) /\
  next_user_id (E := dev_env) (Some "A") (Auth None None) 5000 = Some "A".
Proof.
  apply (auth_failure_keeps_identity (E := dev_env) (world joined) ws_A "s1" (Some "A")
           None None 5000).
  - intros t Ht. discriminate Ht.
  - rewrite joined_is_open. apply not_elem_of_empty.
Defined.

Lemma unauthenticated_frames_are_dropped_witness :
  (forall params,
     handle_message (E := dev_env) ws_A "s1" None (ParamUpdate params) 2000 (world opened) =
       (Ret tt, world opened)) /\
  (forall param value,
     handle_message (E := dev_env) ws_A "s1" None (ConflictResolved param value) 2000
       (world opened) = (Ret tt, world opened)) /\
  finalize (E := dev_env) ws_A "s1" None 2000 (world opened) =
    disconnect ws_A "s1" (world opened).
Proof.
  apply (unauthenticated_frames_are_dropped (E := dev_env) (world opened) ws_A "s1" None 2000).
  reflexivity.
Defined.

Lemma conflict_resolved_is_applied_unchecked_witness :
  exists w',
    handle_message (E := dev_env) ws_A "s1" (Some "A") (ConflictResolved "mu" 0.65%float)
      1100000 (world mu_updated) = (Ret tt, w') /\
    session_seq (manager w') !! "s1" = Some (3 + 1) /\
    session_state (manager w') !! "s1" =
      Some (compute_beta
              (match setattr (E := dev_env)
                       {| mu := 0.60; omega := 0.847; kappa := 0.0207;
                          beta := Some (1 - 0.60 - 0.0207 * 10.8)%float |} "mu" 0.65%float with
               | Ret st1 => st1
               | Raise _ =>
                   {| mu := 0.60; omega := 0.847; kappa := 0.0207;
                      beta := Some (1 - 0.60 - 0.0207 * 10.8)%float |}
               end)) /\
    last_update_time (manager w') !! "s1" =
      Some (if hasattr (E := dev_env) "mu" then <[ "mu" := 1100000 ]> {[ "mu" := 1000000 ]}
            else {[ "mu" := 1000000 ]}) /\
    sent w' =
      sent (world mu_updated) ++
      map (fun c => (c, {| msg_payload := ParamBroadcast "A" [("mu", 0.65%float)];
                           msg_seq := Some (3 + 1); msg_timestamp := Some 1100000 |}))
          (filter (fun c => c <> ws_A) (elements ({[ws_A; ws_B]} : gset nat))).
Proof.
  apply (conflict_resolved_is_applied_unchecked (E := dev_env) (world mu_updated) ws_A "s1"
           "A" "mu" 0.65%float 1100000 {[ws_A; ws_B]} 3).
  - discriminate.
  - vm_compute. reflexivity.
  - vm_compute. reflexivity.
  - vm_compute. reflexivity.
  - vm_compute. reflexivity.
  - vm_compute. discriminate.
  - intros c _ _.
    assert (Hc : closed (world mu_updated) = ∅) by (vm_compute; reflexivity).
    rewrite Hc. apply not_elem_of_empty.
Defined.

Lemma counter_never_decreases_witness :
  session_seq (manager (world joined)) !! "s1" = Some 2 /\
  session_seq (manager (world out_of_bounds)) !! "s1" = Some 3 /\
  2 <= 3.
Proof.
  split; [vm_compute; reflexivity|]. split; [vm_compute; reflexivity|].
  apply (counter_never_decreases (E := dev_env) empty_store join_A_B 5000
           (Receive ws_A (ParamUpdate [("mu", 0.80%float)])) "s1" 2 3).
  - vm_compute. reflexivity.
  - vm_compute. reflexivity.
Defined.

Lemma metadata_follows_param_broadcast_witness :
  let w' :=
    snd (broadcast (E := dev_env) "s1" (ParamBroadcast "A" [("mu", 0.60%float)])
           (Some ws_A) 5000 (world joined)) in
  exists md,
    get_session_metadata "s1" (redis_service w') = Some md /\
    meta_seq md = 2 + 1 /\
    (forall st', session_state (manager w') !! "s1" = Some st' ->
       snap_mu (meta_state md) = mu st' /\ snap_omega (meta_state md) = omega st' /\
       snap_kappa (meta_state md) = kappa st' /\ snap_beta (meta_state md) = beta st') /\
    (1 <= meta_history_count md <= 1000)%nat /\
    meta_user_count md = length (meta_users md).
Proof.
  apply (metadata_follows_param_broadcast (E := dev_env) (world joined) _ "s1" "A"
           [("mu", 0.60%float)] (Some ws_A) 5000 {[ws_A; ws_B]} 2).
  - vm_compute. reflexivity.
  - vm_compute. reflexivity.
  - vm_compute. reflexivity.
  - vm_compute. reflexivity.
Defined.

Lemma connect_live_session_adds_socket_witness :
  connect ws_B "s1" (world opened) =
    (Ret tt,
     {| manager := set_active_connections <["s1" := {[ws_B]} ∪ {[ws_A]}]>
                     (manager (world opened));
        redis_service := redis_service (world opened); closed := closed (world opened);
        sent := sent (world opened) |}) /\
  (ws_B ∈ ({[ws_A]} : gset nat) ->
   manager (snd (connect ws_B "s1" (world opened))) = manager (world opened)).
Proof.
  apply (connect_live_session_adds_socket (world opened) ws_B "s1" {[ws_A]}).
  vm_compute. reflexivity.
Defined.
